(** * Job ranking pipeline: a shallow embedding of [rank_jobs_w_claude.py]

    The development follows the methods of [JobRanker]:
    [_extract_company_name], [parse_google_search_json],
    [analyze_job_listing], [rank_jobs] and [save_results].

    Conventions of the embedding.
    - A Python [str] is a Rocq [string], one [ascii] per character: the
      strings of the model are those whose characters have a code below
      256, the character of code [n] standing for the code point [n]
      (Latin-1).  White space, digits and the case of letters are those
      Python gives these code points.
    - A Python object is a [pyval]: the values [json.loads] builds, numbers
      with a fraction or an exponent (Python floats) left out.
    - A call that can raise returns a [result]; an [except] clause is a
      match on it.
    - Job objects live in a store indexed by references, because
      [rank_jobs] writes into the objects of the list it was given. *)

From Stdlib Require Import String Ascii List ZArith QArith Bool Arith Lia.
From Stdlib Require Import Permutation Sorted.
Import ListNotations.

Local Close Scope Q_scope.
Local Open Scope string_scope.
Local Open Scope list_scope.

(** ** Python strings *)

Module PyStr.

(** [sub in s] for two strings. *)
Fixpoint contains (sub s : string) : bool :=
  match s with
  | EmptyString => prefix sub EmptyString
  | String _ s' => prefix sub s || contains sub s'
  end.

(** [s.find(sub)]: the index of the first occurrence, if any. *)
Fixpoint find (sub s : string) : option nat :=
  match s with
  | EmptyString => if prefix sub EmptyString then Some 0 else None
  | String _ s' =>
      if prefix sub s then Some 0
      else match find sub s' with
           | Some n => Some (S n)
           | None => None
           end
  end.

(** [s[n:]] *)
Fixpoint drop (n : nat) (s : string) : string :=
  match n, s with
  | O, _ => s
  | S _, EmptyString => EmptyString
  | S k, String _ s' => drop k s'
  end.

(** [s[:n]] *)
Fixpoint take (n : nat) (s : string) : string :=
  match n, s with
  | O, _ => EmptyString
  | S _, EmptyString => EmptyString
  | S k, String c s' => String c (take k s')
  end.

(** Reverse of a string, used to hold the piece being scanned. *)
Fixpoint rev_onto (s acc : string) : string :=
  match s with
  | EmptyString => acc
  | String c s' => rev_onto s' (String c acc)
  end.

Definition rev (s : string) : string := rev_onto s EmptyString.

(** [s.split(sep)] for a non-empty [sep]: a left-to-right scan for
    non-overlapping occurrences.  [skip] counts the characters of a matched
    separator that remain to be passed over; [cur] is the current piece,
    reversed. *)
Fixpoint split_go (sep : string) (skip : nat) (cur : string) (s : string)
  : list string :=
  match s with
  | EmptyString => [rev cur]
  | String c s' =>
      match skip with
      | S k => split_go sep k cur s'
      | O =>
          if prefix sep s
          then rev cur :: split_go sep (String.length sep - 1) EmptyString s'
          else split_go sep 0 (String c cur) s'
      end
  end.

Definition split (sep s : string) : list string := split_go sep 0 EmptyString s.

(** [new.join(pieces)] *)
Definition join (new : string) (pieces : list string) : string :=
  String.concat new pieces.

(** [s.replace(old, new)] for a non-empty [old]: every non-overlapping
    occurrence, scanning from the left. *)
Definition replace (old new s : string) : string := join new (split old s).

Definition startswith (p s : string) : bool := prefix p s.

(** The characters [str.strip()] removes, those [str.isspace] holds for:
    tab, line feed, vertical tab, form feed, carriage return, the four
    separators 0x1c..0x1f, the space, the next-line control 0x85 and the
    no-break space 0xa0. *)
Definition is_space (c : ascii) : bool :=
  let n := nat_of_ascii c in
  (((9 <=? n) && (n <=? 13)) || ((28 <=? n) && (n <=? 32))
   || (n =? 133) || (n =? 160))%nat.

Fixpoint lstrip_by (p : ascii -> bool) (s : string) : string :=
  match s with
  | EmptyString => EmptyString
  | String c s' => if p c then lstrip_by p s' else s
  end.

Definition rstrip_by (p : ascii -> bool) (s : string) : string :=
  rev (lstrip_by p (rev s)).

Definition strip_by (p : ascii -> bool) (s : string) : string :=
  rstrip_by p (lstrip_by p s).

(** [s.strip()] *)
Definition strip (s : string) : string := strip_by is_space s.

(** [s.strip(chars)] *)
Definition strip_chars (chars : string) (s : string) : string :=
  strip_by (fun c => contains (String c EmptyString) chars) s.

(** The letters and digits of ASCII. *)
Definition is_ascii_upper (c : ascii) : bool :=
  let n := nat_of_ascii c in ((65 <=? n) && (n <=? 90))%nat.

Definition is_ascii_lower (c : ascii) : bool :=
  let n := nat_of_ascii c in ((97 <=? n) && (n <=? 122))%nat.

Definition is_digit (c : ascii) : bool :=
  let n := nat_of_ascii c in ((48 <=? n) && (n <=? 57))%nat.

(** The capital letters, which [str.lower] changes: A..Z and, above code
    127, 0xc0..0xde but for the multiplication sign 0xd7. *)
Definition is_upper (c : ascii) : bool :=
  let n := nat_of_ascii c in
  (((65 <=? n) && (n <=? 90))
   || ((192 <=? n) && (n <=? 222) && negb (n =? 215)))%nat.

(** The small letters whose capital is 32 codes below: a..z and, above
    code 127, 0xe0..0xfe but for the division sign 0xf7. *)
Definition has_capital (c : ascii) : bool :=
  let n := nat_of_ascii c in
  (((97 <=? n) && (n <=? 122))
   || ((224 <=? n) && (n <=? 254) && negb (n =? 247)))%nat.

(** The small letters whose capital lies above code 255: the micro sign
    0xb5 and the y with diaeresis 0xff.  Python's result for them is not
    a string of the model. *)
Definition capital_outside (c : ascii) : bool :=
  let n := nat_of_ascii c in ((n =? 181) || (n =? 255))%nat.

(** The cased characters: the letters above, the sharp s 0xdf, the two
    ordinal indicators 0xaa and 0xba, and the two letters of
    [capital_outside]. *)
Definition is_cased (c : ascii) : bool :=
  let n := nat_of_ascii c in
  (is_upper c || has_capital c
   || (n =? 170) || (n =? 181) || (n =? 186) || (n =? 223) || (n =? 255))%nat.

Definition lower_char (c : ascii) : ascii :=
  if is_upper c then ascii_of_nat (nat_of_ascii c + 32) else c.

(** The title case of one character: its capital; the sharp s gives two
    letters.  The two letters of [capital_outside] are left as they are. *)
Definition title_char (c : ascii) : string :=
  if (nat_of_ascii c =? 223)%nat then "Ss"
  else if has_capital c
       then String (ascii_of_nat (nat_of_ascii c - 32)) EmptyString
       else String c EmptyString.

(** [s.lower()] *)
Fixpoint lower (s : string) : string :=
  match s with
  | EmptyString => EmptyString
  | String c s' => String (lower_char c) (lower s')
  end.

(** [s.capitalize()]: the first character in title case, the rest
    lower-cased. *)
Definition capitalize (s : string) : string :=
  match s with
  | EmptyString => EmptyString
  | String c s' => title_char c ++ lower s'
  end.

(** [s.title()]: a character that follows a cased character is
    lower-cased, any other character is put in title case. *)
Fixpoint title_go (prev_cased : bool) (s : string) : string :=
  match s with
  | EmptyString => EmptyString
  | String c s' =>
      (if prev_cased then String (lower_char c) EmptyString else title_char c)
      ++ title_go (is_cased c) s'
  end.

Definition str_title (s : string) : string := title_go false s.

(** The white space [int] ignores around a number: tab to carriage
    return and the space, and above code 127 the white space of
    [str.isspace]; the separators 0x1c..0x1f are not part of it. *)
Definition is_int_space (c : ascii) : bool :=
  let n := nat_of_ascii c in
  (((9 <=? n) && (n <=? 13)) || (n =? 32) || (n =? 133) || (n =? 160))%nat.

(** The digits of [int(s)] after the sign: decimal digits, with single
    underscores allowed between two digits.  [prev_digit] tells whether the
    previous character was a digit; [acc] is the value read so far. *)
Fixpoint digits_go (prev_digit : bool) (acc : Z) (s : string) : option Z :=
  match s with
  | EmptyString => if prev_digit then Some acc else None
  | String c s' =>
      if is_digit c
      then digits_go true (10 * acc + Z.of_nat (nat_of_ascii c - 48))%Z s'
      else if Ascii.eqb c "_"%char && prev_digit
           then match s' with
                | String d _ => if is_digit d then digits_go false acc s' else None
                | EmptyString => None
                end
           else None
  end.

Fixpoint count_digits (s : string) : nat :=
  match s with
  | EmptyString => 0
  | String c s' => if is_digit c then S (count_digits s') else count_digits s'
  end.

(** [sys.get_int_max_str_digits()], at its default. *)
Definition int_max_str_digits : nat := 4300.

(** A number of at most [int_max_str_digits] digits, leading zeros
    counted. *)
Definition digits_within_limit (d : string) : option Z :=
  if (count_digits d <=? int_max_str_digits)%nat
  then digits_go false 0%Z d
  else None.

(** [int(s)] on a string, base ten: surrounding white space is ignored, one
    sign is allowed; [None] stands for [ValueError]. *)
Definition to_int (s : string) : option Z :=
  match strip_by is_int_space s with
  | String "-"%char d => option_map Z.opp (digits_within_limit d)
  | String "+"%char d => digits_within_limit d
  | d => digits_within_limit d
  end.

(** [s.partition(sep)]: the text before the first [sep], whether [sep]
    was found, and the text after it. *)
Definition partition (sep s : string) : string * bool * string :=
  match find sep s with
  | Some n => (take n s, true, drop (n + String.length sep) s)
  | None => (s, false, EmptyString)
  end.

(** The text after the last occurrence of the character [c], if there is
    one. *)
Fixpoint after_last_opt (c : ascii) (s : string) : option string :=
  match s with
  | EmptyString => None
  | String x s' =>
      match after_last_opt c s' with
      | Some t => Some t
      | None => if Ascii.eqb x c then Some s' else None
      end
  end.

(** [s.rpartition(c)[2]] for a character [c] *)
Definition after_last (c : ascii) (s : string) : string :=
  match after_last_opt c s with
  | Some t => t
  | None => s
  end.

Fixpoint all_chars (p : ascii -> bool) (s : string) : bool :=
  match s with
  | EmptyString => true
  | String c s' => p c && all_chars p s'
  end.

Fixpoint take_while (p : ascii -> bool) (s : string) : string :=
  match s with
  | EmptyString => EmptyString
  | String c s' => if p c then String c (take_while p s') else EmptyString
  end.

End PyStr.

(** ** Python objects and exceptions *)

(** The objects the program handles: what [json.loads] returns (Python
    floats apart).  A [dict] is kept as its list of items, in insertion
    order. *)
#[warnings="-register-all"]
Inductive pyval : Type :=
| PNone
| PBool (b : bool)
| PInt (z : Z)
| PStr (s : string)
| PList (l : list pyval)
| PDict (d : list (string * pyval)).

(** The exception classes that occur.  [JSONDecodeError] is the only one an
    [except] clause of the program names; every class here derives from
    [Exception].  [ServiceError] stands for the errors of the client of the
    analysis service (connection, status, rate limit). *)
Inductive exn_class : Type :=
| TypeError
| KeyError
| AttributeError
| IndexError
| ValueError
| OverflowError
| JSONDecodeError
| UnboundLocalError
| ServiceError.

(** An exception: its class and [str(e)]. *)
Record exn : Type := Exn { exn_cls : exn_class; exn_str : string }.

Inductive result (A : Type) : Type :=
| Ok (a : A)
| Raise (e : exn).

Arguments Ok {A} a.
Arguments Raise {A} e.

Definition bind {A B : Type} (r : result A) (k : A -> result B) : result B :=
  match r with
  | Ok a => k a
  | Raise e => Raise e
  end.

Notation "x <- r ;; k" := (bind r (fun x => k))
  (at level 61, r at next level, right associativity).

(** [isinstance(e, json.JSONDecodeError)] *)
Definition is_json_decode_error (e : exn) : bool :=
  match exn_cls e with
  | JSONDecodeError => true
  | _ => false
  end.

(** The call returns a value: it does not raise. *)
Definition returns {A : Type} (r : result A) : Prop := exists a, r = Ok a.

(** One double quote, and one single quote, as strings. *)
Definition dquote : string := String "034"%char EmptyString.
Definition squote : string := String "039"%char EmptyString.

(** [type(v).__name__] *)
Definition type_name (v : pyval) : string :=
  match v with
  | PNone => "NoneType"
  | PBool _ => "bool"
  | PInt _ => "int"
  | PStr _ => "str"
  | PList _ => "list"
  | PDict _ => "dict"
  end.

(** [bool(v)] *)
Definition truthy (v : pyval) : bool :=
  match v with
  | PNone => false
  | PBool b => b
  | PInt z => negb (Z.eqb z 0)
  | PStr s => negb (String.eqb s EmptyString)
  | PList l => match l with [] => false | _ => true end
  | PDict d => match d with [] => false | _ => true end
  end.

(** [d.get(k)] on the items of a dict, which hold one item per key. *)
Fixpoint dict_lookup (k : string) (d : list (string * pyval)) : option pyval :=
  match d with
  | [] => None
  | (k', v) :: d' => if String.eqb k k' then Some v else dict_lookup k d'
  end.

(** [k in d] for a dict *)
Definition dict_has (k : string) (d : list (string * pyval)) : bool :=
  match dict_lookup k d with
  | Some _ => true
  | None => false
  end.

(** [v == s] where [s] is a string: only a string equals a string. *)
Definition eq_str (s : string) (v : pyval) : bool :=
  match v with
  | PStr t => String.eqb s t
  | _ => false
  end.

(** [s in v] for a string [s]: substring test on a string, membership in a
    list, key membership in a dict; [TypeError] on the other objects. *)
Definition py_in (s : string) (v : pyval) : result bool :=
  match v with
  | PStr t => Ok (PyStr.contains s t)
  | PList l => Ok (existsb (eq_str s) l)
  | PDict d => Ok (dict_has s d)
  | _ => Raise (Exn TypeError
                  ("argument of type " ++ squote ++ type_name v ++ squote
                   ++ " is not iterable"))
  end.

(** ** [urllib.parse.urlparse(url).netloc]

    The part of CPython's [urlsplit] that decides [netloc]: leading control
    characters and spaces are dropped, tabs and line breaks are removed, a
    scheme [letter (letter | digit | + | - | .)* :] is split off, and when
    the rest starts with two slashes the network location runs up to the
    first slash, question mark or hash.  A network location with only one
    of the two square brackets raises [ValueError]; with both, the host
    between them has to be an IPv6 address or an address of a later
    version ([_check_bracketed_netloc], with the address syntax of the
    module [ipaddress]).  The last check of [urlsplit], which normalises a
    network location that is not ASCII and looks for a delimiter, never
    raises on the characters of the model: none of them normalises to a
    delimiter. *)

Module UrlParse.

Definition is_c0_or_space (c : ascii) : bool := (nat_of_ascii c <=? 32)%nat.

Definition is_tab_or_newline (c : ascii) : bool :=
  let n := nat_of_ascii c in
  ((n =? 9) || (n =? 10) || (n =? 13))%nat.

Fixpoint remove_chars (p : ascii -> bool) (s : string) : string :=
  match s with
  | EmptyString => EmptyString
  | String c s' => if p c then remove_chars p s' else String c (remove_chars p s')
  end.

Definition is_alpha (c : ascii) : bool :=
  PyStr.is_ascii_upper c || PyStr.is_ascii_lower c.

Definition is_scheme_char (c : ascii) : bool :=
  is_alpha c || PyStr.is_digit c
  || Ascii.eqb c "+"%char || Ascii.eqb c "-"%char || Ascii.eqb c "."%char.

(** The url once its scheme, if it has one, is split off. *)
Definition after_scheme (url : string) : string :=
  match PyStr.find ":" url, url with
  | Some (S i), String c0 _ =>
      if is_alpha c0 && PyStr.all_chars is_scheme_char (PyStr.take (S i) url)
      then PyStr.drop (S (S i)) url
      else url
  | _, _ => url
  end.

Definition is_netloc_delim (c : ascii) : bool :=
  Ascii.eqb c "/"%char || Ascii.eqb c "?"%char || Ascii.eqb c "#"%char.

Fixpoint take_until (p : ascii -> bool) (s : string) : string :=
  match s with
  | EmptyString => EmptyString
  | String c s' => if p c then EmptyString else String c (take_until p s')
  end.

(** *** The addresses of [ipaddress], as far as their syntax goes *)

Definition is_hex (c : ascii) : bool :=
  let n := nat_of_ascii c in
  (PyStr.is_digit c || ((65 <=? n) && (n <=? 70)) || ((97 <=? n) && (n <=? 102)))%nat.

(** [IPv4Address._parse_octet] returns: one to three ASCII digits, no
    leading zero but in the octet 0, a value of 255 at most. *)
Definition octet_ok (octet_str : string) : bool :=
  negb (String.eqb octet_str EmptyString)
  && PyStr.all_chars PyStr.is_digit octet_str
  && (String.length octet_str <=? 3)%nat
  && (String.eqb octet_str "0" || negb (PyStr.startswith "0" octet_str))
  && match PyStr.digits_go false 0%Z octet_str with
     | Some z => (z <=? 255)%Z
     | None => false
     end.

(** [IPv4Address(s)] returns: four octets between dots. *)
Definition ipv4_ok (s : string) : bool :=
  negb (PyStr.contains "/" s)
  && negb (String.eqb s EmptyString)
  && (let octets := PyStr.split "." s in
      (List.length octets =? 4)%nat && forallb octet_ok octets).

(** [IPv6Address._parse_hextet] returns: one to four hexadecimal digits. *)
Definition hextet_ok (hextet_str : string) : bool :=
  PyStr.all_chars is_hex hextet_str
  && (String.length hextet_str <=? 4)%nat
  && negb (String.eqb hextet_str EmptyString).

(** The checks of [IPv6Address._ip_int_from_string] on the parts between
    colons, once an IPv4 suffix is replaced by two hextets: nine parts at
    most; at most one empty part within (the double colon); with it, an
    empty first or last part has to be next to it, at most seven hextets
    are left, and they are well formed; without it, there are eight well
    formed hextets. *)
Definition ipv6_parts_ok (parts : list string) : bool :=
  let n := List.length parts in
  let first_empty := String.eqb (hd EmptyString parts) EmptyString in
  let last_empty := String.eqb (last parts EmptyString) EmptyString in
  (n <=? 9)%nat
  && match filter (fun i => String.eqb (nth i parts "x") EmptyString)
             (seq 1 (n - 2)) with
     | [] =>
         (n =? 8)%nat && negb first_empty && negb last_empty
         && forallb hextet_ok parts
     | [skip_index] =>
         let parts_hi := if first_empty then skip_index - 1 else skip_index in
         let parts_lo :=
           if last_empty then n - skip_index - 1 - 1 else n - skip_index - 1 in
         negb (first_empty && negb (parts_hi =? 0)%nat)
         && negb (last_empty && negb (parts_lo =? 0)%nat)
         && (parts_hi + parts_lo <=? 7)%nat
         && forallb hextet_ok (firstn parts_hi parts)
         && forallb hextet_ok (skipn (n - parts_lo) parts)
     | _ => false
     end.

(** [IPv6Address(s)] returns.  A scope, after a percent sign, must not be
    empty nor hold another percent sign.  The two hextets that take the
    place of an IPv4 suffix are written 0 here: they are well formed
    whatever the suffix. *)
Definition ipv6_ok (s : string) : bool :=
  negb (PyStr.contains "/" s)
  && (let '(addr, sep, scope_id) := PyStr.partition "%" s in
      negb (sep && (String.eqb scope_id EmptyString
                    || PyStr.contains "%" scope_id))
      && negb (String.eqb addr EmptyString)
      && (let parts := PyStr.split ":" addr in
          (3 <=? List.length parts)%nat
          && (if PyStr.contains "." (last parts EmptyString)
              then ipv4_ok (last parts EmptyString)
                   && ipv6_parts_ok (removelast parts ++ ["0"; "0"])
              else ipv6_parts_ok parts))).

(** The pattern of an address of a later version: the letter v, one
    hexadecimal digit or more, a dot, and one character or more, none of
    them a line feed. *)
Definition ipvfuture_ok (hostname : string) : bool :=
  match hostname with
  | String "v"%char rest =>
      let digits := PyStr.take_while is_hex rest in
      negb (String.eqb digits EmptyString)
      && match PyStr.drop (String.length digits) rest with
         | String "."%char tail =>
             negb (String.eqb tail EmptyString)
             && negb (PyStr.contains (String "010"%char EmptyString) tail)
         | _ => false
         end
  | _ => false
  end.

(** [_check_bracketed_host]: [ipaddress.ip_address] tries the host as an
    IPv4 address first, which is refused between brackets, and then as an
    IPv6 address.  The text of the last error names the host; it is cut
    here to its fixed part. *)
Definition check_bracketed_host (hostname : string) : result unit :=
  if PyStr.startswith "v" hostname
  then if ipvfuture_ok hostname then Ok tt
       else Raise (Exn ValueError "IPvFuture address is invalid")
  else if ipv4_ok hostname
  then Raise (Exn ValueError "An IPv4 address cannot be in brackets")
  else if ipv6_ok hostname then Ok tt
  else Raise (Exn ValueError "does not appear to be an IPv4 or IPv6 address").

(** [_check_bracketed_netloc] *)
Definition check_bracketed_netloc (netloc : string) : result unit :=
  let hostname_and_port := PyStr.after_last "@" netloc in
  let '(before_bracket, have_open_br, bracketed) :=
    PyStr.partition "[" hostname_and_port in
  if have_open_br then
    if negb (String.eqb before_bracket EmptyString)
    then Raise (Exn ValueError "Invalid IPv6 URL")
    else
      let '(hostname, _, port) := PyStr.partition "]" bracketed in
      if negb (String.eqb port EmptyString) && negb (PyStr.startswith ":" port)
      then Raise (Exn ValueError "Invalid IPv6 URL")
      else check_bracketed_host hostname
  else
    let '(hostname, _, _) := PyStr.partition ":" hostname_and_port in
    check_bracketed_host hostname.

Definition netloc (url : string) : result string :=
  let url := PyStr.lstrip_by is_c0_or_space url in
  let url := remove_chars is_tab_or_newline url in
  let rest := after_scheme url in
  if String.eqb (PyStr.take 2 rest) "//"
  then
    let loc := take_until is_netloc_delim (PyStr.drop 2 rest) in
    if xorb (PyStr.contains "[" loc) (PyStr.contains "]" loc)
    then Raise (Exn ValueError "Invalid IPv6 URL")
    else if PyStr.contains "[" loc && PyStr.contains "]" loc
    then match check_bracketed_netloc loc with
         | Ok _ => Ok loc
         | Raise e => Raise e
         end
    else Ok loc
  else Ok EmptyString.

End UrlParse.

(** ** [JobRanker._extract_company_name] *)

(** [urlparse(url).netloc.lower()] on an object.  For an object that is
    not a string, [urlparse] either fails on [decode] or yields a bytes
    result on which the first [in] test of a string fails: an exception in
    both cases. *)
Definition url_domain (url : pyval) : result string :=
  match url with
  | PStr u => loc <- UrlParse.netloc u ;; Ok (PyStr.lower loc)
  | _ => Raise (Exn TypeError "a bytes-like object is required, not 'str'")
  end.

(** [l[-2]] for a list of at least two elements. *)
Fixpoint second_to_last (l : list string) : string :=
  match l with
  | [a; _] => a
  | _ :: l' => second_to_last l'
  | [] => EmptyString
  end.

(** The body of the [try] block. *)
Definition extract_company_name_try (url title : pyval) : result string :=
  hiring <- py_in " hiring " title ;;
  if hiring then
    match title with
    | PStr t =>
        let company := PyStr.strip (hd EmptyString (PyStr.split " hiring " t)) in
        let company :=
          if PyStr.startswith "Jobs at " company
          then PyStr.replace "Jobs at " EmptyString company
          else company in
        Ok company
    | _ => Raise (Exn AttributeError
                    (squote ++ type_name title ++ squote
                     ++ " object has no attribute 'split'"))
    end
  else
    domain <- url_domain url ;;
    if PyStr.contains "linkedin.com" domain then Ok "LinkedIn Job"
    else if PyStr.contains "glassdoor.com" domain then Ok "Glassdoor Job"
    else if PyStr.contains "indeed.com" domain then Ok "Indeed Job"
    else if PyStr.contains "greenhouse.io" domain then Ok "Greenhouse Job"
    else
      let domain_parts := PyStr.split "." domain in
      if (2 <=? List.length domain_parts)%nat
      then Ok (PyStr.capitalize (second_to_last domain_parts))
      else Ok (PyStr.capitalize domain).

(** The method: [except Exception] turns every exception of the body into
    the literal name. *)
Definition _extract_company_name (url title : pyval) : result string :=
  match extract_company_name_try url title with
  | Ok company => Ok company
  | Raise _ => Ok "Unknown Company"
  end.

(** ** Job records *)

(** The dataclass [JobListing].  Its annotations are not enforced: a field
    holds whatever object was stored in it. *)
Record JobListing : Type := mkJob {
  title : pyval;
  company : pyval;
  url : pyval;
  description : pyval;
  match_score : pyval;
  analysis : pyval
}.

(** [JobListing(title=.., company=.., url=.., description=..)] with the
    defaults of the two last fields. *)
Definition new_job (t c u d : pyval) : JobListing :=
  mkJob t c u d (PInt 0) (PStr EmptyString).

(** ** [JobRanker.parse_google_search_json] *)

(** What the method prints. *)
Inductive parse_log : Type :=
| LogNoResults
| LogFound (n : nat)
| LogParsed (i : nat)
| LogParseError (i : nat) (msg : string).

(** [item.get(key, default)]: only a dict has the method. *)
Definition item_get (item : pyval) (key : string) (default : pyval) : result pyval :=
  match item with
  | PDict d => Ok (match dict_lookup key d with
                   | Some v => v
                   | None => default
                   end)
  | _ => Raise (Exn AttributeError
                  (squote ++ type_name item ++ squote
                   ++ " object has no attribute 'get'"))
  end.

(** [v[:n]]: strings and lists can be sliced; [None], a number or a dict
    cannot. *)
Definition slice_to (n : nat) (v : pyval) : result pyval :=
  match v with
  | PStr s => Ok (PStr (PyStr.take n s))
  | PList l => Ok (PList (firstn n l))
  | PDict _ => Raise (Exn TypeError "unhashable type: 'slice'")
  | _ => Raise (Exn TypeError
                  (squote ++ type_name v ++ squote ++ " object is not subscriptable"))
  end.

(** One turn of the loop: the body of the [try], which appends the record
    before it prints the progress line, and the [except Exception] clause,
    which prints a warning and goes on.  [jobs] is the list built so far. *)
Definition parse_item (i : nat) (item : pyval)
    (st : list JobListing * list parse_log) : list JobListing * list parse_log :=
  let '(jobs, log) := st in
  let fetched :=
    t <- item_get item "title" (PStr "Unknown Position") ;;
    u <- item_get item "link" (PStr EmptyString) ;;
    s <- item_get item "snippet" (PStr EmptyString) ;;
    c <- _extract_company_name u t ;;
    Ok (new_job t (PStr c) u s) in
  match fetched with
  | Raise e => (jobs, log ++ [LogParseError i (exn_str e)])
  | Ok job =>
      let jobs := jobs ++ [job] in
      match slice_to 50 (title job) with
      | Ok _ => (jobs, log ++ [LogParsed i])
      | Raise e => (jobs, log ++ [LogParseError i (exn_str e)])
      end
  end.

(** [for i, item in enumerate(items, 1)] *)
Fixpoint parse_items (i : nat) (items : list pyval)
    (st : list JobListing * list parse_log) : list JobListing * list parse_log :=
  match items with
  | [] => st
  | item :: rest => parse_items (S i) rest (parse_item i item st)
  end.

(** [v['items']]: a dict is indexed by key; a string or a list is not. *)
Definition subscript_str (v : pyval) (key : string) : result pyval :=
  match v with
  | PDict d => match dict_lookup key d with
               | Some x => Ok x
               | None => Raise (Exn KeyError (squote ++ key ++ squote))
               end
  | PStr _ => Raise (Exn TypeError "string indices must be integers, not 'str'")
  | PList _ => Raise (Exn TypeError "list indices must be integers or slices, not str")
  | _ => Raise (Exn TypeError
                  (squote ++ type_name v ++ squote ++ " object is not subscriptable"))
  end.

Fixpoint chars_of (s : string) : list pyval :=
  match s with
  | EmptyString => []
  | String c s' => PStr (String c EmptyString) :: chars_of s'
  end.

(** The elements a [for] loop draws from an object that has a length: the
    elements of a list, the characters of a string, the keys of a dict. *)
Definition iterate (v : pyval) : result (list pyval) :=
  match v with
  | PList l => Ok l
  | PStr s => Ok (chars_of s)
  | PDict d => Ok (map (fun kv => PStr (fst kv)) d)
  | _ => Raise (Exn TypeError
                  ("object of type " ++ squote ++ type_name v ++ squote
                   ++ " has no len()"))
  end.

(** The method: the records built, or the exception that leaves it, and
    the lines printed. *)
Definition parse_google_search_json (search_results : pyval)
  : result (list JobListing) * list parse_log :=
  match py_in "items" search_results with
  | Raise e => (Raise e, [])
  | Ok false => (Ok [], [LogNoResults])
  | Ok true =>
      match subscript_str search_results "items" with
      | Raise e => (Raise e, [])
      | Ok items =>
          if negb (truthy items) then (Ok [], [LogNoResults])
          else
            match iterate items with
            | Raise e => (Raise e, [])
            | Ok l =>
                let '(jobs, log) := parse_items 1 l ([], [LogFound (List.length l)]) in
                (Ok jobs, log)
            end
      end
  end.

(** ** [JobRanker.analyze_job_listing] *)

(** The prompt is a fixed text with five holes; it is kept as the values
    that fill them. *)
Record prompt : Type := mkPrompt {
  p_resume : string;
  p_company : pyval;
  p_title : pyval;
  p_url : pyval;
  p_description : pyval
}.

(** What one call of the analysis service does, as far as the method can
    tell: [client.messages.create] or the reading of
    [response.content[0].text] raises, or the text is there, and
    [json.loads] either decodes it or raises [JSONDecodeError] ([None]).
    An exception of class [JSONDecodeError] in [CallRaises] is one raised
    by [create] itself, before [response] is assigned: reading the
    attributes of a response does not decode anything. *)
Inductive api_outcome : Type :=
| CallRaises (e : exn)
| Reply (text : string) (decoded : option pyval).

(** The service: the outcome of its [n]-th call, given the prompt. *)
Definition service : Type := nat -> prompt -> api_outcome.

(** [job.description[:4000]] and the other holes; built before the [try]. *)
Definition build_prompt (resume : string) (job : JobListing) : result prompt :=
  d <- slice_to 4000 (description job) ;;
  Ok (mkPrompt resume (company job) (title job) (url job) d).

(** The body of the [try] block, from the outcome of the call on. *)
Definition analyze_try (o : api_outcome) : result (pyval * pyval) :=
  match o with
  | CallRaises e => Raise e
  | Reply _ None => Raise (Exn JSONDecodeError "Expecting value")
  | Reply _ (Some result) =>
      s <- subscript_str result "match_score" ;;
      a <- subscript_str result "analysis" ;;
      Ok (s, a)
  end.

(** The local variable [response] after the [try] block was left. *)
Definition response_text (o : api_outcome) : option string :=
  match o with
  | CallRaises _ => None
  | Reply text _ => Some text
  end.

(** The expression of the inner [try]: piece number 1 of [content] split at
    the word match_score, piece number 1 of that split at colons, piece
    number 0 of that split at commas, stripped of white space and then of
    double quotes, read by [int].  [None] when any step raises. *)
Definition scrape_try (content : string) : option Z :=
  match nth_error (PyStr.split "match_score" content) 1 with
  | None => None
  | Some after =>
      match nth_error (PyStr.split ":" after) 1 with
      | None => None
      | Some value =>
          PyStr.to_int
            (PyStr.strip_chars dquote
               (PyStr.strip (hd EmptyString (PyStr.split "," value))))
      end
  end.

(** The score of the [except json.JSONDecodeError] clause. *)
Definition scrape_score (content : string) : Z :=
  if PyStr.contains "match_score" content
  then match scrape_try content with
       | Some z => z
       | None => 5%Z
       end
  else 5%Z.

(** The two [except] clauses, tried in order on the exception that left
    the [try] block. *)
Definition analyze_outcome (o : api_outcome) : result (pyval * pyval) :=
  match analyze_try o with
  | Ok r => Ok r
  | Raise e =>
      if is_json_decode_error e then
        match response_text o with
        | Some content => Ok (PInt (scrape_score content), PStr content)
        | None =>
            Raise (Exn UnboundLocalError
                     "cannot access local variable 'response' where it is not associated with a value")
        end
      else Ok (PInt 0, PStr ("Analysis failed: " ++ exn_str e))
  end.

(** The method, as the [n]-th call of the service. *)
Definition analyze_job_listing (svc : service) (resume : string) (n : nat)
    (job : JobListing) : result (pyval * pyval) :=
  p <- build_prompt resume job ;;
  analyze_outcome (svc n p).

(** ** Comparison of objects *)

(** The integer an [int] or a [bool] stands for in a comparison. *)
Definition num_of (v : pyval) : option Z :=
  match v with
  | PInt z => Some z
  | PBool b => Some (if b then 1%Z else 0%Z)
  | _ => None
  end.

(** [a == b] *)
Fixpoint py_eq (a b : pyval) {struct a} : bool :=
  match a, b with
  | PNone, PNone => true
  | PInt _, _ | PBool _, _ =>
      match num_of a, num_of b with
      | Some m, Some n => Z.eqb m n
      | _, _ => false
      end
  | PStr s, PStr t => String.eqb s t
  | PList la, PList lb =>
      (fix list_eq (la lb : list pyval) {struct la} : bool :=
         match la, lb with
         | [], [] => true
         | x :: la', y :: lb' => py_eq x y && list_eq la' lb'
         | _, _ => false
         end) la lb
  | PDict da, PDict db =>
      Nat.eqb (List.length da) (List.length db)
      && (fix all_in (da : list (string * pyval)) {struct da} : bool :=
            match da with
            | [] => true
            | (k, v) :: da' =>
                match dict_lookup k db with
                | Some v' => py_eq v v'
                | None => false
                end && all_in da'
            end) da
  | _, _ => false
  end.

Definition not_supported (op : string) (a b : pyval) : exn :=
  Exn TypeError
    (squote ++ op ++ squote ++ " not supported between instances of "
     ++ squote ++ type_name a ++ squote ++ " and "
     ++ squote ++ type_name b ++ squote).

(** [a < b]: numbers with numbers, strings with strings, lists with lists
    (at the first pair of elements that differ); [TypeError] otherwise. *)
Fixpoint py_lt (a b : pyval) {struct a} : result bool :=
  match a, b with
  | PStr s, PStr t => Ok (String.ltb s t)
  | PList la, PList lb =>
      (fix list_lt (la lb : list pyval) {struct la} : result bool :=
         match la, lb with
         | [], [] => Ok false
         | [], _ :: _ => Ok true
         | _ :: _, [] => Ok false
         | x :: la', y :: lb' =>
             if py_eq x y then list_lt la' lb' else py_lt x y
         end) la lb
  | _, _ =>
      match num_of a, num_of b with
      | Some m, Some n => Ok (Z.ltb m n)
      | _, _ => Raise (not_supported "<" a b)
      end
  end.

(** ** The store of job objects *)

(** A list of jobs is a list of references: the same object may occur in
    it more than once, and [rank_jobs] updates the objects in place. *)
Definition ref : Type := nat.

Definition store : Type := ref -> JobListing.

Definition store_set (h : store) (r : ref) (j : JobListing) : store :=
  fun x => if Nat.eqb x r then j else h x.

(** [job.match_score = score; job.analysis = analysis] *)
Definition set_result (j : JobListing) (score an : pyval) : JobListing :=
  mkJob (title j) (company j) (url j) (description j) score an.

(** ** [JobRanker.rank_jobs] *)

(** The number handed to [time.sleep]: an [int] or a finite [float], given
    by its exact value, or one of the three other values of a [float]. *)
Inductive seconds : Type :=
| Finite (q : Q)
| Infinity (negative : bool)
| NotANumber.

(** What a run does to the outside world, in order: the call of
    [analyze_job_listing] for the record at position [i], and the calls of
    [time.sleep] that returned. *)
Inductive event : Type :=
| EvAnalyze (i : nat) (r : ref)
| EvSleep (d : seconds).

Definition is_sleep (e : event) : bool :=
  match e with
  | EvSleep _ => true
  | EvAnalyze _ _ => false
  end.

(** The largest number of nanoseconds [time.sleep] can hold, plus one:
    two to the power 63. *)
Definition ns_limit : Q := 9223372036854775808 # 1.

(** [time.sleep(d)].  The length is turned into a whole number of
    nanoseconds in 64 bits: [ValueError] for a value that is no number,
    [OverflowError] for a length of [ns_limit] nanoseconds or more, in
    either direction (the rounding of the product by a [float] moves this
    bound by less than a microsecond); then a negative length is refused
    with [ValueError].  A length that passes is handed to the operating
    system, which refuses a wait that would end after the last instant
    its clock can hold and grants every other; the model takes the wait
    to be granted, and the properties of a completed run are stated for
    the delays of [plain_delay], which every machine grants. *)
Definition sleep (d : seconds) : result unit :=
  match d with
  | NotANumber => Raise (Exn ValueError "Invalid value NaN (not a number)")
  | Infinity _ =>
      Raise (Exn OverflowError "timestamp too large to convert to C _PyTime_t")
  | Finite q =>
      if Qle_bool ns_limit (q * (1000000000 # 1))%Q
         || Qle_bool (q * (1000000000 # 1))%Q (- ns_limit)%Q
      then Raise (Exn OverflowError "timestamp too large to convert to C _PyTime_t")
      else if Qle_bool 0 q then Ok tt
      else Raise (Exn ValueError "sleep length must be non-negative")
  end.

Record run_state : Type := mkState {
  st_store : store;
  st_trace : list event
}.

(** The [for] loop: [i] is the position of the head of [jobs], counted from
    one, and [total] is [len(jobs)] of the whole list. *)
Fixpoint rank_loop (svc : service) (resume : string) (delay : seconds)
    (total i : nat) (jobs : list ref) (st : run_state)
  : result unit * run_state :=
  match jobs with
  | [] => (Ok tt, st)
  | r :: rest =>
      let h := st_store st in
      let tr := st_trace st ++ [EvAnalyze i r] in
      match analyze_job_listing svc resume i (h r) with
      | Raise e => (Raise e, mkState h tr)
      | Ok (score, an) =>
          let h := store_set h r (set_result (h r) score an) in
          if (i <? total)%nat then
            match sleep delay with
            | Raise e => (Raise e, mkState h tr)
            | Ok _ =>
                rank_loop svc resume delay total (S i) rest
                  (mkState h (tr ++ [EvSleep delay]))
            end
          else rank_loop svc resume delay total (S i) rest (mkState h tr)
      end
  end.

(** [sorted(jobs, key=lambda x: x.match_score, reverse=True)].  The order of
    the result is that of a stable sort into non-increasing keys; the sort
    only ever asks whether one key is less than another, and the exception of
    a comparison leaves it.  Whenever all the comparisons of a list
    succeed, the result does not depend on which pairs a stable sort
    compares; a list of two or more keys among which numbers, strings,
    [None] or dicts are mixed makes every comparison sort raise. *)
Fixpoint insert_desc (key : ref -> pyval) (x : ref) (l : list ref)
  : result (list ref) :=
  match l with
  | [] => Ok [x]
  | y :: l' =>
      c <- py_lt (key x) (key y) ;;
      if c then (tl <- insert_desc key x l' ;; Ok (y :: tl))
      else Ok (x :: l)
  end.

Fixpoint sorted_desc (key : ref -> pyval) (l : list ref) : result (list ref) :=
  match l with
  | [] => Ok []
  | x :: l' => s <- sorted_desc key l' ;; insert_desc key x s
  end.

(** The method: the ranked list or the exception that leaves it, with the
    store and the trace at that point. *)
Definition rank_jobs (svc : service) (resume : string) (h : store)
    (jobs : list ref) (delay_seconds : seconds)
  : result (list ref) * run_state :=
  match rank_loop svc resume delay_seconds (List.length jobs) 1 jobs (mkState h [])
  with
  | (Raise e, st) => (Raise e, st)
  | (Ok _, st) =>
      (sorted_desc (fun r => match_score (st_store st r)) jobs, st)
  end.

(** ** [JobRanker.save_results] *)

(** The file system: what each path holds.  A file written by [json.dump]
    is kept as the object that was dumped. *)
Definition files : Type := string -> option pyval.

(** [open(filename, 'w')] followed by the write: whatever the path held is
    replaced.  The file system of the model accepts every write; a path
    that the operating system refuses is outside the model. *)
Definition write_file (fs : files) (filename : string) (doc : pyval) : files :=
  fun p => if String.eqb p filename then Some doc else fs p.

(** The dict appended for the job at position [i]. *)
Definition result_entry (i : nat) (job : JobListing) : pyval :=
  PDict [("rank", PInt (Z.of_nat i));
         ("match_score", match_score job);
         ("company", company job);
         ("title", title job);
         ("url", url job);
         ("analysis", analysis job)].

(** [for i, job in enumerate(ranked_jobs, 1): results.append({...})] *)
Fixpoint result_entries (h : store) (i : nat) (ranked_jobs : list ref)
  : list pyval :=
  match ranked_jobs with
  | [] => []
  | r :: rest => result_entry i (h r) :: result_entries h (S i) rest
  end.

Definition save_results (h : store) (ranked_jobs : list ref)
    (filename : string) (fs : files) : files :=
  write_file fs filename (PList (result_entries h 1 ranked_jobs)).

(** ** [JobRanker.load_jobs_from_urls] *)

(** [urlparse(url).netloc] followed by the test ['.' in domain], as far as
    they can raise.  For an object that is not a string, [urlparse] fails
    on [decode] when the object is truthy; when it is falsy the result is
    made of bytes, and the test of a string in it raises [TypeError]. *)
Definition url_netloc (url : pyval) : result string :=
  match url with
  | PStr u => UrlParse.netloc u
  | _ =>
      if truthy url
      then Raise (Exn AttributeError
                    (squote ++ type_name url ++ squote
                     ++ " object has no attribute 'decode'"))
      else Raise (Exn TypeError "a bytes-like object is required, not 'str'")
  end.

(** [domain.split('.')[1] if '.' in domain else domain] *)
Definition url_company (domain : string) : result string :=
  if PyStr.contains "." domain
  then match nth_error (PyStr.split "." domain) 1 with
       | Some label => Ok label
       | None => Raise (Exn IndexError "list index out of range")
       end
  else Ok domain.

(** The body of the [try] block: the record built for one url. *)
Definition url_record_try (url : pyval) : result JobListing :=
  domain <- url_netloc url ;;
  company <- url_company domain ;;
  Ok (new_job (PStr "Position from URL") (PStr (PyStr.str_title company)) url
        (PStr "[Job description will be fetched via Claude API]")).

(** The loop: [st] holds the records appended so far and the urls a
    warning was printed for. *)
Fixpoint load_urls_loop (urls : list pyval)
    (st : list JobListing * list pyval) : list JobListing * list pyval :=
  match urls with
  | [] => st
  | url :: rest =>
      let '(jobs, warned) := st in
      match url_record_try url with
      | Ok job => load_urls_loop rest (jobs ++ [job], warned)
      | Raise _ => load_urls_loop rest (jobs, warned ++ [url])
      end
  end.

Definition load_jobs_from_urls (urls : list pyval)
  : list JobListing * list pyval :=
  load_urls_loop urls ([], []).

(** ** [JobRanker.load_jobs_from_google_search] *)

(** The two lines printed when full descriptions are asked for. *)
Inductive fetch_note : Type :=
| NoteAttempt (n : nat)
| NoteNotSupported.

(** [if fetch_full_descriptions and jobs]: a non-empty list is truthy. *)
Definition load_jobs_from_google_search (search_results : pyval)
    (fetch_full_descriptions : bool)
  : result (list JobListing) * list parse_log * list fetch_note :=
  match parse_google_search_json search_results with
  | (Raise e, log) => (Raise e, log, [])
  | (Ok jobs, log) =>
      if fetch_full_descriptions
         && match jobs with [] => false | _ :: _ => true end
      then (Ok jobs, log, [NoteAttempt (List.length jobs); NoteNotSupported])
      else (Ok jobs, log, [])
  end.

(** ** Files that are read *)

(** A file that is read: its text, and what [json.load] makes of it
    ([None] when it raises [JSONDecodeError]). *)
Record file_body : Type := FileBody {
  body_text : string;
  body_json : option pyval
}.

(** The files present, by path. *)
Definition disk : Type := string -> option file_body.

(** ** [JobRanker.load_jobs_from_google_search_file] *)

(** How the method ends: with the records, or with one of the three
    exceptions it prints and raises again. *)
Inductive loaded : Type :=
| Loaded (jobs : list JobListing)
| LoadFileNotFound (path : string)
| LoadInvalidJson (path : string)
| LoadRaised (e : exn).

Definition load_jobs_from_google_search_file (d : disk) (json_file_path : string)
  : loaded * list parse_log :=
  match d json_file_path with
  | None => (LoadFileNotFound json_file_path, [])
  | Some body =>
      match body_json body with
      | None => (LoadInvalidJson json_file_path, [])
      | Some search_results =>
          match parse_google_search_json search_results with
          | (Ok jobs, log) => (Loaded jobs, log)
          | (Raise e, log) => (LoadRaised e, log)
          end
      end
  end.

(** ** [JobRanker.__init__], [load_resume_from_file] *)

(** The environment variables. *)
Definition environ : Type := string -> option string.

(** [os.getenv(name, default)] *)
Definition getenv (env : environ) (name default : string) : string :=
  match env name with
  | Some v => v
  | None => default
  end.

(** [api_key or os.getenv('ANTHROPIC_API_KEY')], then the test
    [if not self.api_key]: an empty string counts as no key. *)
Definition resolve_api_key (api_key : option string) (env : environ)
  : result string :=
  let chosen :=
    match api_key with
    | Some k => if String.eqb k EmptyString then env "ANTHROPIC_API_KEY" else Some k
    | None => env "ANTHROPIC_API_KEY"
    end in
  match chosen with
  | Some k =>
      if String.eqb k EmptyString
      then Raise (Exn ValueError
                    "ANTHROPIC_API_KEY environment variable must be set or pass api_key parameter")
      else Ok k
  | None =>
      Raise (Exn ValueError
               "ANTHROPIC_API_KEY environment variable must be set or pass api_key parameter")
  end.

(** How the constructor ends: with the key and the resume text, with the
    [ValueError] of a missing key, or with the [FileNotFoundError] of a
    missing resume file. *)
Inductive init_outcome : Type :=
| InitOk (api_key resume : string)
| InitValueError (msg : string)
| InitFileNotFound (path : string).

(** [load_resume_from_file]: the text of the file, or [None] for
    [FileNotFoundError]. *)
Definition load_resume_from_file (d : disk) (file_path : string) : option string :=
  option_map body_text (d file_path).

(** The constructor: the key is checked before the resume file is opened. *)
Definition ranker_init (api_key : option string) (env : environ) (d : disk)
  : init_outcome :=
  let resume_path := getenv env "RESUME_PATH" "resume.txt" in
  match resolve_api_key api_key env with
  | Raise e => InitValueError (exn_str e)
  | Ok key =>
      match load_resume_from_file d resume_path with
      | Some resume => InitOk key resume
      | None => InitFileNotFound resume_path
      end
  end.

(** ** [query_google_api.run_search] *)

(** What one [requests.get] does: it raises (time-out, connection), or it
    gives a response with its status code, its text and what [r.json()]
    makes of the text ([None] when it raises). *)
Inductive http_outcome : Type :=
| GetRaises (e : exn)
| Response (status_code : Z) (text : string) (json : option pyval).

(** The search API: what the request with a given [start] parameter
    gives. *)
Definition search_api : Type := nat -> http_outcome.

(** What a run does, in order: the requests, by their [start] parameter,
    and the calls of [time.sleep(1.0)]. *)
Inductive search_event : Type :=
| EvRequest (start : nat)
| EvPause.

(** How [run_search] ends: it returns the raw responses, it raises the
    [RuntimeError] of a status other than 200, or another exception
    leaves it. *)
Inductive search_outcome : Type :=
| Returned (raw_responses : list pyval)
| SearchApiError (status_code : Z) (text : string)
| SearchRaised (e : exn).

Definition per_page : nat := 10.

(** The [while] loop.  [fuel] bounds the number of turns; [None] is the
    loop cut short by the bound, which eleven turns never are. *)
Fixpoint search_loop (fuel : nat) (api : search_api) (max_results : Z)
    (start : nat) (raw_responses : list pyval) (tr : list search_event)
  : option (search_outcome * list search_event) :=
  match fuel with
  | O => None
  | S fuel' =>
      if (start <=? 100)%nat
         && (Z.of_nat (List.length raw_responses) <? max_results)%Z
      then
        let tr := tr ++ [EvRequest start] in
        match api start with
        | GetRaises e => Some (SearchRaised e, tr)
        | Response status_code text json =>
            if negb (Z.eqb status_code 200)
            then Some (SearchApiError status_code text, tr)
            else
              match json with
              | None => Some (SearchRaised (Exn JSONDecodeError "Expecting value"), tr)
              | Some j =>
                  let raw_responses := raw_responses ++ [j] in
                  let tr := tr ++ [EvPause] in
                  match item_get j "items" PNone with
                  | Raise e => Some (SearchRaised e, tr)
                  | Ok items =>
                      if negb (truthy items)
                      then Some (Returned raw_responses, tr)
                      else search_loop fuel' api max_results (start + per_page)
                             raw_responses tr
                  end
              end
        end
      else Some (Returned raw_responses, tr)
  end.

Definition run_search (api : search_api) (max_results : Z)
  : option (search_outcome * list search_event) :=
  search_loop 11 api max_results 1 [] [].

(** The script: [run_search(max_results=50)], then the dump of the list
    into the file of the search results. *)
Definition search_main (api : search_api) (fs : files) : files :=
  match run_search api 50 with
  | Some (Returned raw_data, _) =>
      write_file fs "job_search_results.json" (PList raw_data)
  | _ => fs
  end.

(** ** [main] of the ranker *)

(** A fresh store for the records of a list: the record at position [r]
    is the object of reference [r]; the other references hold [dflt]. *)
Definition store_of_list (jobs : list JobListing) (dflt : JobListing) : store :=
  fun r => nth r jobs dflt.

(** How [main] ends. *)
Inductive main_outcome : Type :=
| MainNoKey (msg : string)
| MainResumeNotFound (path : string)
| MainLoadFailed (l : loaded)
| MainNoJobs
| MainRankingRaised (e : exn)
| MainDone (ranked_jobs : list ref).

(** [main]: the ranker is built from the environment, the saved search is
    loaded, and when it gives records they are ranked with a delay of two
    seconds and saved in job_rankings.json.  The files read are looked up
    in [d]; the file written goes to [fs].  The result holds the store
    and the trace of the ranking when there was one. *)
Definition ranker_main (env : environ) (d : disk) (svc : service) (fs : files)
  : main_outcome * option run_state * files :=
  match ranker_init None env d with
  | InitValueError msg => (MainNoKey msg, None, fs)
  | InitFileNotFound path => (MainResumeNotFound path, None, fs)
  | InitOk _ resume =>
      let job_search_list_path :=
        getenv env "JOB_SEARCH_LIST_PATH" "job_search_results.json" in
      match fst (load_jobs_from_google_search_file d job_search_list_path) with
      | Loaded [] => (MainNoJobs, None, fs)
      | Loaded (job :: jobs) =>
          let jobs_to_analyze := job :: jobs in
          let h := store_of_list jobs_to_analyze job in
          let refs := seq 0 (List.length jobs_to_analyze) in
          match rank_jobs svc resume h refs (Finite 2) with
          | (Raise e, st) => (MainRankingRaised e, Some st, fs)
          | (Ok ranked_jobs, st) =>
              (MainDone ranked_jobs, Some st,
               save_results (st_store st) ranked_jobs "job_rankings.json" fs)
          end
      | l => (MainLoadFailed l, None, fs)
      end
  end.

(** * The vocabulary of the properties *)

(** The text before the first occurrence of [sep], or the whole text. *)
Definition up_to (sep s : string) : string :=
  match PyStr.find sep s with
  | Some n => PyStr.take n s
  | None => s
  end.

(** A decoded reply that is a dict with both keys. *)
Definition has_both_keys (v : pyval) : bool :=
  match v with
  | PDict d => dict_has "match_score" d && dict_has "analysis" d
  | _ => false
  end.

(** The scrape told by positions: the text examined starts after the first
    occurrence of the word match_score and stops before the next
    occurrence of it; in that text, the value starts after the first colon
    and stops before the next colon or the next comma, whichever comes
    first; stripped of white space and of double quotes it is read as an
    integer.  The score is 5 when the word or the colon is missing or the
    value is not an integer. *)
Definition scrape_by_position (content : string) : Z :=
  match PyStr.find "match_score" content with
  | None => 5%Z
  | Some n =>
      let examined :=
        up_to "match_score"
          (PyStr.drop (n + String.length "match_score") content) in
      match PyStr.find ":" examined with
      | None => 5%Z
      | Some c =>
          let value :=
            up_to ","
              (up_to ":" (PyStr.drop (c + 1) examined)) in
          match PyStr.to_int (PyStr.strip_chars dquote (PyStr.strip value)) with
          | Some z => z
          | None => 5%Z
          end
      end
  end.

(** The text that follows the word in the example of the specification:
    a double quote, a colon, a space, the digit 7 and a comma. *)
Definition seven_after (post : string) : string :=
  dquote ++ ": 7," ++ post.

(** The record an item yields in the list returned: none for an item that
    is not a dict, one with the three defaults for a dict. *)
Definition item_records (item : pyval) : list JobListing :=
  match item with
  | PDict d =>
      let t := match dict_lookup "title" d with
               | Some v => v
               | None => PStr "Unknown Position"
               end in
      let u := match dict_lookup "link" d with
               | Some v => v
               | None => PStr EmptyString
               end in
      let s := match dict_lookup "snippet" d with
               | Some v => v
               | None => PStr EmptyString
               end in
      match _extract_company_name u t with
      | Ok c => [new_job t (PStr c) u s]
      | Raise _ => []
      end
  | _ => []
  end.

(** The trace of a loop that runs to its end: an analysis per record, with
    a sleep between two consecutive analyses. *)
Fixpoint paced (d : seconds) (i : nat) (jobs : list ref) : list event :=
  match jobs with
  | [] => []
  | r :: rest =>
      match rest with
      | [] => [EvAnalyze i r]
      | _ :: _ => EvAnalyze i r :: EvSleep d :: paced d (S i) rest
      end
  end.

(** The number of delays taken in a trace. *)
Definition count_sleeps (tr : list event) : nat :=
  List.length (filter is_sleep tr).

(** The records whose description the prompt can slice. *)
Definition sliceable (h : store) (jobs : list ref) : Prop :=
  forall r, In r jobs -> returns (slice_to 4000 (description (h r))).

(** A service whose calls never raise a decode error themselves. *)
Definition no_decode_error_from_call (svc : service) : Prop :=
  forall i p e, svc i p = CallRaises e -> is_json_decode_error e = false.

(** The pair a record holds has the property [P]. *)
Definition holds_at (P : pyval -> pyval -> Prop) (h : store) (r : ref) : Prop :=
  P (match_score (h r)) (analysis (h r)).

(** An integer from 0 to 10. *)
Definition score_in_range (v : pyval) : bool :=
  match v with
  | PInt z => (0 <=? z)%Z && (z <=? 10)%Z
  | _ => false
  end.

(** A string that is not empty. *)
Definition nonempty_text (v : pyval) : bool :=
  match v with
  | PStr s => negb (String.eqb s EmptyString)
  | _ => false
  end.

(** A reply in the requested format, as far as the two fields go: if it
    decodes to an object with both keys, match_score is an integer from 0
    to 10 and analysis a non-empty string; if it does not decode, it is
    not empty and its scraped score is from 0 to 10. *)
Definition conforming (o : api_outcome) : bool :=
  match o with
  | CallRaises _ => true
  | Reply _ (Some v) =>
      match subscript_str v "match_score", subscript_str v "analysis" with
      | Ok s, Ok a => score_in_range s && nonempty_text a
      | _, _ => true
      end
  | Reply text None =>
      nonempty_text (PStr text) && score_in_range (PInt (scrape_score text))
  end.

(** The stable insertion sort into non-increasing integer keys [k]. *)
Fixpoint insert_z (k : ref -> Z) (x : ref) (l : list ref) : list ref :=
  match l with
  | [] => [x]
  | y :: l' => if (k x <? k y)%Z then y :: insert_z k x l' else x :: l
  end.

Fixpoint sort_z (k : ref -> Z) (l : list ref) : list ref :=
  match l with
  | [] => []
  | x :: l' => insert_z k x (sort_z k l')
  end.

(** [b] may follow [a] in a list of non-increasing keys. *)
Definition desc (k : ref -> Z) (a b : ref) : Prop := (k b <= k a)%Z.

(** The integer score a record holds (0 if it holds another object). *)
Definition score_of (st : run_state) (r : ref) : Z :=
  match match_score (st_store st r) with
  | PInt z => z
  | _ => 0%Z
  end.

(** A service all of whose analyses return an integer score. *)
Definition integer_scores (svc : service) : Prop :=
  forall i p, exists z a, analyze_outcome (svc i p) = Ok (PInt z, a).

(** The url is one [load_jobs_from_urls] builds a record for. *)
Definition url_parses (u : pyval) : bool :=
  match url_record_try u with
  | Ok _ => true
  | Raise _ => false
  end.

(** The records [load_jobs_from_urls] appends for one url. *)
Definition url_records (u : pyval) : list JobListing :=
  match url_record_try u with
  | Ok job => [job]
  | Raise _ => []
  end.

(** A record as the two loaders build it: not scored yet. *)
Definition unscored (j : JobListing) : Prop :=
  match_score j = PInt 0 /\ analysis j = PStr EmptyString.

(** The label [load_jobs_from_urls] names the company after: the second
    label of the host, or the host when it has no dot. *)
Definition company_label (host : string) : string :=
  match PyStr.split "." host with
  | _ :: label :: _ => label
  | _ => host
  end.

(** The object is a dict. *)
Definition is_dict (v : pyval) : bool :=
  match v with
  | PDict _ => true
  | _ => false
  end.

(** The number of the item a line of the parser is about (0 for the two
    lines that are about no item). *)
Definition log_index (l : parse_log) : nat :=
  match l with
  | LogParsed i => i
  | LogParseError i _ => i
  | LogNoResults => 0
  | LogFound _ => 0
  end.

(** The object is a number other than zero or [True]: truthy, and without
    a length. *)
Definition is_nonzero_number (v : pyval) : bool :=
  match v with
  | PInt z => negb (Z.eqb z 0)
  | PBool b => b
  | _ => false
  end.

(** Two records with the same title, company, url and description: the
    fields [rank_jobs] does not write. *)
Definition same_identity (a b : JobListing) : Prop :=
  title a = title b /\ company a = company b
  /\ url a = url b /\ description a = description b.

(** A service that is down: every call raises an error of the client. *)
Definition service_down (svc : service) : Prop :=
  forall i p, exists e,
    svc i p = CallRaises e /\ is_json_decode_error e = false.

(** The integer under match_score in an object of the results file (0 if
    there is none). *)
Definition entry_score (entry : pyval) : Z :=
  match entry with
  | PDict d =>
      match dict_lookup "match_score" d with
      | Some (PInt z) => z
      | _ => 0%Z
      end
  | _ => 0%Z
  end.

(** The integer under rank in an object of the results file. *)
Definition entry_rank (entry : pyval) : Z :=
  match entry with
  | PDict d =>
      match dict_lookup "rank" d with
      | Some (PInt z) => z
      | _ => 0%Z
      end
  | _ => 0%Z
  end.

(** The [start] parameters of the first [n] requests of a search: 1, 11,
    21, ... *)
Definition starts (n : nat) : list nat :=
  map (fun k => 1 + per_page * k)%nat (seq 0 n).

(** The trace of [n] requests that were all answered: each request is
    followed by a pause. *)
Definition paged_trace (n : nat) : list search_event :=
  flat_map (fun s => [EvRequest s; EvPause]) (starts n).

(** The page of a response with status 200 whose text decodes. *)
Definition json_200 (o : http_outcome) : option pyval :=
  match o with
  | Response status_code _ (Some j) =>
      if Z.eqb status_code 200 then Some j else None
  | _ => None
  end.

(** The page is an object with a truthy value under items: the search goes
    on after it. *)
Definition page_continues (j : pyval) : bool :=
  match item_get j "items" PNone with
  | Ok items => truthy items
  | Raise _ => false
  end.

(** Every request is answered with a page that has items. *)
Definition always_full (api : search_api) : Prop :=
  forall s, exists text j,
    api s = Response 200 text (Some j) /\ page_continues j = true.

(** What holds of the pages and of the trace while the loop of the search
    runs. *)
Definition search_inv (api : search_api) (max_results : Z) (start : nat)
    (raw : list pyval) (tr : list search_event) : Prop :=
  start = (1 + per_page * List.length raw)%nat
  /\ tr = paged_trace (List.length raw)
  /\ map (fun s => json_200 (api s)) (starts (List.length raw)) = map Some raw
  /\ forallb page_continues raw = true
  /\ (List.length raw <= 10)%nat
  /\ (Z.of_nat (List.length raw) <= Z.max 0 max_results)%Z.

(** A delay that [time.sleep] takes on every machine: a number that is
    not negative and at most [long_wait] seconds (some 126 years, less
    than half of what the clock of nanoseconds holds).  A longer wait, up
    to the bound of [sleep], is granted or refused by the operating system
    according to its clock. *)
Definition long_wait : Q := 4000000000 # 1.

Definition plain_delay (d : seconds) : bool :=
  match d with
  | Finite q => Qle_bool 0 q && Qle_bool q long_wait
  | _ => false
  end.

(** Nothing but white space. *)
Definition blank (s : string) : bool := PyStr.all_chars PyStr.is_space s.

(** The host names one of the four job boards. *)
Definition job_board (domain : string) : bool :=
  PyStr.contains "linkedin.com" domain || PyStr.contains "glassdoor.com" domain
  || PyStr.contains "indeed.com" domain || PyStr.contains "greenhouse.io" domain.

(** The label the domain rule names the company after: the label before
    the last one, or the host when it has no dot. *)
Definition domain_label (domain : string) : string :=
  match List.rev (PyStr.split "." domain) with
  | _ :: label :: _ => label
  | _ => domain
  end.

(** The url has a host under which the domain rule finds no name: none of
    the job boards, and an empty label. *)
Definition url_names_nothing (u : pyval) : bool :=
  match u with
  | PStr s =>
      match UrlParse.netloc s with
      | Ok host =>
          negb (job_board (PyStr.lower host))
          && String.eqb (domain_label (PyStr.lower host)) EmptyString
      | Raise _ => false
      end
  | _ => false
  end.

(** The pairs for which no name is found: a title with nothing but white
    space before its first hiring, or a title without the word and a url
    as above. *)
Definition names_nothing (u t : pyval) : bool :=
  match py_in " hiring " t with
  | Ok true =>
      match t with
      | PStr t' => blank (up_to " hiring " t')
      | _ => false
      end
  | Ok false => url_names_nothing u
  | Raise _ => false
  end.

(** The pairs on which the extraction raises: a title that is no string,
    list or dict; a list or a dict that holds the word; or, when the
    title does not hold the word, a url that is no string or whose network
    location [urlparse] refuses. *)
Definition extraction_raises (u t : pyval) : bool :=
  match py_in " hiring " t with
  | Raise _ => true
  | Ok true =>
      match t with
      | PStr _ => false
      | _ => true
      end
  | Ok false =>
      match u with
      | PStr s =>
          match UrlParse.netloc s with
          | Ok _ => false
          | Raise _ => true
          end
      | _ => true
      end
  end.

(** The capital of the first character of the text is a character of the
    model: [capitalize] is Python's on such a text. *)
Definition capital_in_range (s : string) : bool :=
  match s with
  | EmptyString => true
  | String c _ => negb (PyStr.capital_outside c)
  end.

(** The same for [str_title], which puts in title case every character
    that does not follow a cased one. *)
Fixpoint title_in_range_go (prev_cased : bool) (s : string) : bool :=
  match s with
  | EmptyString => true
  | String c s' =>
      (prev_cased || negb (PyStr.capital_outside c))
      && title_in_range_go (PyStr.is_cased c) s'
  end.

Definition title_in_range (s : string) : bool := title_in_range_go false s.

(** ** Sample data *)

(** A record as the parser builds it. *)
Definition sample_job : JobListing :=
  new_job (PStr "Backend Engineer") (PStr "Widgetco")
    (PStr "https://careers.widgetco.com/job/42") (PStr "Build services.").

(** The prompt of [sample_job] with the resume text resume. *)
Definition sample_prompt : prompt :=
  mkPrompt "resume" (PStr "Widgetco") (PStr "Backend Engineer")
    (PStr "https://careers.widgetco.com/job/42") (PStr "Build services.").

(** A store in which every reference points to the same unscored record. *)
Definition fresh_store : store := fun _ => sample_job.

(** A store whose records have no description text: what the parser builds
    from an item whose snippet is null. *)
Definition undescribed_store : store :=
  fun _ => new_job (PStr "Backend Engineer") (PStr "Widgetco")
             (PStr "https://careers.widgetco.com/job/42") PNone.

(** A service whose call raises a decode error before any response is
    there. *)
Definition undecodable_service : service :=
  fun _ _ => CallRaises (Exn JSONDecodeError "Expecting value: line 1 column 1 (char 0)").

(** The text of a JSON object with the two fields, the analysis being a
    string without characters to escape. *)
Definition two_fields (score_text an_text : string) : string :=
  "{" ++ dquote ++ "match_score" ++ dquote ++ ": " ++ score_text ++ ", "
  ++ dquote ++ "analysis" ++ dquote ++ ": " ++ dquote ++ an_text ++ dquote ++ "}".

(** A reply with the two fields: its text, and the object it decodes to;
    [score] is the object that the JSON text [score_text] denotes. *)
Definition json_reply (score_text : string) (score : pyval) (an_text : string)
  : api_outcome :=
  Reply (two_fields score_text an_text)
    (Some (PDict [("match_score", score); ("analysis", PStr an_text)])).

(** A service that answers every call with the score 8. *)
Definition strong_fit : service :=
  fun _ _ => json_reply "8" (PInt 8) "Strong fit".

(** A service that answers every call with the score 42 and an empty
    analysis. *)
Definition out_of_range : service :=
  fun _ _ => json_reply "42" (PInt 42) EmptyString.

(** A reply that decodes to an object without the two keys. *)
Definition score_only_reply : api_outcome :=
  Reply ("{" ++ dquote ++ "score" ++ dquote ++ ": 7}")
    (Some (PDict [("score", PInt 7)])).

(** A reply in which prose mentions the word before the JSON text does. *)
Definition prose_then_json : string :=
  "I computed the match_score as follows. {" ++ dquote ++ "match_score"
  ++ seven_after (" " ++ dquote ++ "analysis" ++ dquote ++ ": "
                  ++ dquote ++ "ok" ++ dquote).

(** A reply in which the JSON text is wrapped in prose. *)
Definition json_in_prose : string :=
  "Here is my answer: {" ++ dquote ++ "match_score"
  ++ seven_after (" " ++ dquote ++ "analysis" ++ dquote ++ ": "
                  ++ dquote ++ "Good fit" ++ dquote ++ "} Thanks!").

(** A reply that is no JSON, with a no-break space (code 160) before the
    score and a next-line control (code 133) after it: [strip] and [int]
    drop both. *)
Definition spaced_score : string :=
  "match_score:" ++ String "160"%char ("42" ++ String "133"%char ", not JSON").

(** A reply that is no JSON, with a unit separator (code 31) between the
    quote and the score: [strip] would drop it, but it stands inside the
    quotes, and [int] refuses it. *)
Definition separated_score : string :=
  "match_score: " ++ dquote ++ String "031"%char ("7" ++ dquote ++ ", not JSON").

(** A snapshot whose single item has a null snippet. *)
Definition null_snippet_snapshot : pyval :=
  PDict [("items",
          PList [PDict [("title", PStr "Backend Engineer");
                        ("link", PStr "https://careers.widgetco.com/job/42");
                        ("snippet", PNone)]])].

(** A snapshot whose single item has a null title. *)
Definition null_title_snapshot : pyval :=
  PDict [("items",
          PList [PDict [("title", PNone);
                        ("link", PStr "https://careers.widgetco.com/job/42");
                        ("snippet", PStr "Build services.")]])].

(** A store with two scored records. *)
Definition two_scored_jobs : store :=
  fun r =>
    match r with
    | O => mkJob (PStr "Backend Engineer") (PStr "Widgetco") (PStr "https://w.example/1")
             (PStr "d") (PInt 9) (PStr "Strong fit")
    | _ => mkJob (PStr "Analyst") (PStr "Initech") (PStr "https://i.example/2")
             (PStr "d") (PInt 4) (PStr "Weak fit")
    end.

(** A service that answers the first call with the string 8 as score and
    the later calls with the integer 7. *)
Definition string_then_integer : service :=
  fun i _ =>
    if Nat.eqb i 1 then json_reply (dquote ++ "8" ++ dquote) (PStr "8") "Good"
    else json_reply "7" (PInt 7) "Fair".

(** The service of the example of the specification: scores 3, 9, 1, 9, 5
    in the order of the calls. *)
Definition example_scores : service :=
  fun i _ =>
    nth (i - 1)
      [json_reply "3" (PInt 3) "ok"; json_reply "9" (PInt 9) "ok";
       json_reply "1" (PInt 1) "ok"; json_reply "9" (PInt 9) "ok";
       json_reply "5" (PInt 5) "ok"]
      (json_reply "0" (PInt 0) "ok").

(** A page of results with one item, and a page without items, as the
    search API answers them. *)
Definition full_page : http_outcome :=
  Response 200 ("{" ++ dquote ++ "items" ++ dquote ++ ": [{}]}")
    (Some (PDict [("items", PList [PDict []])])).

Definition empty_page : http_outcome :=
  Response 200 "{}" (Some (PDict [])).

(** A search whose second page is empty. *)
Definition two_page_api : search_api :=
  fun s => if Nat.eqb s 11 then empty_page else full_page.

(** An environment with a key and nothing else. *)
Definition key_only : environ :=
  fun name => if String.eqb name "ANTHROPIC_API_KEY" then Some "sk-test" else None.

(** A line feed. *)
Definition newline : string := String "010"%char EmptyString.

(** The resume file, and the file of search results as the search script
    writes it after one empty page: a list with one object. *)
Definition disk_after_search : disk :=
  fun path =>
    if String.eqb path "resume.txt" then Some (FileBody "Ten years of Python." None)
    else if String.eqb path "job_search_results.json"
    then Some (FileBody ("[" ++ newline ++ "  {}" ++ newline ++ "]")
                 (Some (PList [PDict []])))
    else None.

(** A key followed by a value, both strings, in JSON. *)
Definition json_pair (key value : string) : string :=
  dquote ++ key ++ dquote ++ ": " ++ dquote ++ value ++ dquote.

(** The resume file, and a snapshot with two items. *)
Definition disk_with_snapshot : disk :=
  fun path =>
    if String.eqb path "resume.txt" then Some (FileBody "Ten years of Python." None)
    else if String.eqb path "job_search_results.json"
    then Some (FileBody
                 ("{" ++ dquote ++ "items" ++ dquote ++ ": [{"
                  ++ json_pair "title" "Backend Engineer" ++ ", "
                  ++ json_pair "link" "https://careers.widgetco.com/job/42" ++ ", "
                  ++ json_pair "snippet" "Build services." ++ "}, {"
                  ++ json_pair "title" "Initech hiring Analyst" ++ ", "
                  ++ json_pair "link" "https://www.linkedin.com/jobs/view/1" ++ "}]}")
                 (Some (PDict
                          [("items",
                            PList
                              [PDict [("title", PStr "Backend Engineer");
                                      ("link", PStr "https://careers.widgetco.com/job/42");
                                      ("snippet", PStr "Build services.")];
                               PDict [("title", PStr "Initech hiring Analyst");
                                      ("link", PStr "https://www.linkedin.com/jobs/view/1")]])])))
    else None.

(** A key followed by a number, in JSON. *)
Definition json_number (key value : string) : string :=
  dquote ++ key ++ dquote ++ ": " ++ value.

(** An object of the results file as [json.dump] writes it with an
    indentation of two. *)
Definition ranking_text (rank score company title url analysis : string)
  : string :=
  "  {" ++ newline
  ++ "    " ++ json_number "rank" rank ++ "," ++ newline
  ++ "    " ++ json_number "match_score" score ++ "," ++ newline
  ++ "    " ++ json_pair "company" company ++ "," ++ newline
  ++ "    " ++ json_pair "title" title ++ "," ++ newline
  ++ "    " ++ json_pair "url" url ++ "," ++ newline
  ++ "    " ++ json_pair "analysis" analysis ++ newline
  ++ "  }".

(** The results file [save_results] writes for the two records of
    [two_scored_jobs], and the resume file. *)
Definition disk_with_rankings : disk :=
  fun path =>
    if String.eqb path "resume.txt" then Some (FileBody "Ten years of Python." None)
    else if String.eqb path "job_rankings.json"
    then Some (FileBody
                 ("[" ++ newline
                  ++ ranking_text "1" "9" "Widgetco" "Backend Engineer"
                       "https://w.example/1" "Strong fit" ++ "," ++ newline
                  ++ ranking_text "2" "4" "Initech" "Analyst"
                       "https://i.example/2" "Weak fit" ++ newline
                  ++ "]")
                 (Some (PList
                          [PDict [("rank", PInt 1); ("match_score", PInt 9);
                                  ("company", PStr "Widgetco");
                                  ("title", PStr "Backend Engineer");
                                  ("url", PStr "https://w.example/1");
                                  ("analysis", PStr "Strong fit")];
                           PDict [("rank", PInt 2); ("match_score", PInt 4);
                                  ("company", PStr "Initech");
                                  ("title", PStr "Analyst");
                                  ("url", PStr "https://i.example/2");
                                  ("analysis", PStr "Weak fit")]])))
    else None.

(** A list of urls: three whose network location [urlparse] splits off
    (the second has none, the third is an IPv6 address with a port), and
    three it raises on or that are no strings. *)
Definition sample_urls : list pyval :=
  [PStr "https://job-boards.greenhouse.io/acme/1"; PStr "http://[broken]/x";
   PNone; PStr "widgetco.com/jobs"; PStr "http://[1.2.3.4]/";
   PStr "http://[::1]:8080/jobs"].

(** A url whose second label starts with a small e with an acute accent
    (code 233), followed by capitals. *)
Definition accented_url : string :=
  "https://jobs." ++ String "233"%char "COLE-du-nord.example.fr:443/x".

(** * Properties *)

(** ** Facts on [split], [find] and [in] *)

Module PyStrFacts.
Import PyStr.
Local Open Scope string_scope.

Lemma append_empty_r (s : string) : s ++ EmptyString = s.
Proof. induction s as [| c s IH]; simpl; [reflexivity | now rewrite IH]. Qed.

Lemma append_assoc (a b c : string) : (a ++ b) ++ c = a ++ (b ++ c).
Proof. induction a as [| x a IH]; simpl; [reflexivity | now rewrite IH]. Qed.

Lemma rev_onto_app (s acc : string) : rev_onto s acc = rev s ++ acc.
Proof.
  unfold rev. revert acc.
  induction s as [| c s IH]; intros acc; simpl; [reflexivity|].
  rewrite (IH (String c acc)), (IH (String c EmptyString)).
  rewrite append_assoc. reflexivity.
Qed.

Lemma rev_cons_app (c : ascii) (cur x : string) :
  rev (String c cur) ++ x = rev cur ++ String c x.
Proof.
  unfold rev at 1. simpl. rewrite rev_onto_app, append_assoc. reflexivity.
Qed.

Lemma drop_app_length (a b : string) : drop (String.length a) (a ++ b) = b.
Proof. induction a as [| c a IH]; simpl; [destruct b; reflexivity | exact IH]. Qed.

Lemma take_app_length (a b : string) : take (String.length a) (a ++ b) = a.
Proof.
  induction a as [| c a IH]; simpl; [destruct b; reflexivity | now rewrite IH].
Qed.

Lemma contains_find (sub s : string) :
  contains sub s = match find sub s with Some _ => true | None => false end.
Proof.
  induction s as [| c s IH].
  - cbn [contains find]. destruct (prefix sub EmptyString); reflexivity.
  - cbn [contains find]. destruct (prefix sub (String c s)); [reflexivity|].
    rewrite IH. simpl. destruct (find sub s); reflexivity.
Qed.

Lemma split_go_skip (sep : string) (k : nat) (cur s : string) :
  split_go sep k cur s = split_go sep 0 cur (drop k s).
Proof.
  revert k. induction s as [| c s IH]; intros k.
  - destruct k; reflexivity.
  - destruct k as [| k]; [reflexivity|]. cbn [split_go drop]. apply IH.
Qed.

Lemma prefix_empty_false (c : ascii) (sep : string) :
  prefix (String c sep) EmptyString = false.
Proof. reflexivity. Qed.

Section NonEmptySeparator.

Variables (c0 : ascii) (sep0 : string).
Local Abbreviation sep := (String c0 sep0).

(** [split] cuts at the first occurrence that [find] reports and goes on
    after it. *)
Lemma split_go_find (cur s : string) :
  split_go sep 0 cur s
  = match find sep s with
    | None => [rev cur ++ s]
    | Some n => (rev cur ++ take n s)
                :: split_go sep 0 EmptyString (drop (n + String.length sep) s)
    end.
Proof.
  revert cur. induction s as [| c s IH]; intros cur.
  - cbn [split_go find]. rewrite prefix_empty_false.
    rewrite append_empty_r. reflexivity.
  - cbn [split_go find]. destruct (prefix sep (String c s)) eqn:Hp.
    + rewrite split_go_skip. cbn [take]. rewrite append_empty_r.
      cbn [String.length Nat.add Nat.sub drop].
      rewrite Nat.sub_0_r. reflexivity.
    + rewrite IH. destruct (find sep s) as [n |].
      * cbn [take Nat.add drop]. rewrite rev_cons_app. reflexivity.
      * rewrite rev_cons_app. reflexivity.
Qed.

Lemma split_find (s : string) :
  split sep s
  = match find sep s with
    | None => [s]
    | Some n => take n s :: split sep (drop (n + String.length sep) s)
    end.
Proof.
  unfold split. rewrite (split_go_find EmptyString s).
  destruct (find sep s); reflexivity.
Qed.

Lemma split_hd (s : string) :
  hd EmptyString (split sep s) = up_to sep s.
Proof.
  rewrite split_find. unfold up_to.
  destruct (find sep s); reflexivity.
Qed.

Lemma split_second (s : string) :
  nth_error (split sep s) 1
  = match find sep s with
    | None => None
    | Some n => Some (up_to sep (drop (n + String.length sep) s))
    end.
Proof.
  rewrite (split_find s).
  destruct (find sep s) as [n |]; [|reflexivity].
  cbn [nth_error].
  set (rest := drop (n + String.length sep) s).
  pose proof (split_hd rest) as H.
  destruct (split sep rest) as [| x l] eqn:Hs.
  - rewrite (split_find rest) in Hs.
    destruct (find sep rest); discriminate.
  - simpl in H. rewrite H. reflexivity.
Qed.

End NonEmptySeparator.

End PyStrFacts.

(** ** Facts on [strip], [replace] and the case of letters *)

Module StripFacts.
Import PyStr PyStrFacts.
Local Open Scope string_scope.

Lemma append_nil_inv (a b : string) : a ++ b = EmptyString -> a = EmptyString /\ b = EmptyString.
Proof. destruct a; [intros H; split; [reflexivity | exact H] | discriminate]. Qed.

Lemma rev_cons (c : ascii) (s : string) : rev (String c s) = rev s ++ String c EmptyString.
Proof. unfold rev at 1. simpl. apply rev_onto_app. Qed.

Lemma rev_nil_inv (s : string) : rev s = EmptyString -> s = EmptyString.
Proof.
  destruct s as [| c s]; [reflexivity|]. rewrite rev_cons.
  intros H. apply append_nil_inv in H. destruct H as [_ H]. discriminate H.
Qed.

Lemma all_chars_app (p : ascii -> bool) (a b : string) :
  all_chars p (a ++ b) = all_chars p a && all_chars p b.
Proof.
  induction a as [| c a IH]; [reflexivity|]. simpl. rewrite IH.
  now rewrite andb_assoc.
Qed.

Lemma all_chars_rev (p : ascii -> bool) (s : string) :
  all_chars p (rev s) = all_chars p s.
Proof.
  induction s as [| c s IH]; [reflexivity|].
  rewrite rev_cons, all_chars_app, IH. simpl.
  rewrite andb_true_r. apply andb_comm.
Qed.

Lemma lstrip_by_head (p : ascii -> bool) (s : string) :
  lstrip_by p s = EmptyString
  \/ exists c r, lstrip_by p s = String c r /\ p c = false.
Proof.
  induction s as [| c s IH]; [now left|]. simpl.
  destruct (p c) eqn:E; [exact IH|]. right. eauto.
Qed.

Lemma lstrip_by_nil (p : ascii -> bool) (s : string) :
  lstrip_by p s = EmptyString <-> all_chars p s = true.
Proof.
  induction s as [| c s IH]; [split; reflexivity|]. simpl.
  destruct (p c); [exact IH|]. split; discriminate.
Qed.

Lemma all_chars_lstrip (p : ascii -> bool) (s : string) :
  all_chars p (lstrip_by p s) = true -> all_chars p s = true.
Proof.
  intros H. apply lstrip_by_nil.
  destruct (lstrip_by_head p s) as [E | [c [r [E Hc]]]]; [exact E|].
  rewrite E in H. simpl in H. rewrite Hc in H. discriminate H.
Qed.

(** What is stripped away is everything exactly when every character is
    one that is stripped. *)
Lemma strip_by_nil (p : ascii -> bool) (s : string) :
  strip_by p s = EmptyString <-> all_chars p s = true.
Proof.
  unfold strip_by, rstrip_by. split.
  - intros H. apply rev_nil_inv in H. apply lstrip_by_nil in H.
    rewrite all_chars_rev in H. now apply all_chars_lstrip.
  - intros H. apply lstrip_by_nil in H. rewrite H. reflexivity.
Qed.

(** A stripped text that is not empty ends with a character that is not
    stripped. *)
Lemma strip_by_last (p : ascii -> bool) (s : string) :
  strip_by p s = EmptyString
  \/ exists r x, strip_by p s = r ++ String x EmptyString /\ p x = false.
Proof.
  unfold strip_by, rstrip_by.
  destruct (lstrip_by_head p (rev (lstrip_by p s))) as [E | [c [r [E Hc]]]];
    rewrite E; [now left|].
  right. exists (rev r), c. split; [apply rev_cons | exact Hc].
Qed.

Lemma prefix_split (sep s : string) :
  prefix sep s = true -> s = sep ++ drop (String.length sep) s.
Proof.
  revert s. induction sep as [| c sep IH]; intros s H.
  - destruct s; reflexivity.
  - destruct s as [| x s]; [discriminate H|]. simpl in H.
    destruct (ascii_dec c x) as [-> | _]; [|discriminate H].
    simpl. f_equal. apply IH, H.
Qed.

Lemma find_split (sep s : string) (n : nat) :
  find sep s = Some n ->
  s = take n s ++ sep ++ drop (n + String.length sep) s.
Proof.
  revert n. induction s as [| c s IH]; intros n H.
  - cbn [find] in H. destruct (prefix sep EmptyString) eqn:E; [|discriminate H].
    injection H as <-. exact (prefix_split sep EmptyString E).
  - cbn [find] in H. destruct (prefix sep (String c s)) eqn:E.
    + injection H as <-. exact (prefix_split sep (String c s) E).
    + destruct (find sep s) as [m |]; [|discriminate H]. injection H as <-.
      cbn [take Nat.add drop append]. f_equal. apply IH. reflexivity.
Qed.

Lemma drop_length (n : nat) (s : string) :
  String.length (drop n s) = (String.length s - n)%nat.
Proof.
  revert s. induction n as [| n IH]; intros s; [simpl; lia|].
  destruct s as [| c s]; [reflexivity|]. simpl. apply IH.
Qed.

Lemma last_char_unique (a b : string) (x y : ascii) :
  a ++ String x EmptyString = b ++ String y EmptyString -> x = y.
Proof.
  revert b. induction a as [| c a IH]; intros b H.
  - destruct b as [| d b]; simpl in H; [now injection H|].
    injection H as _ H. destruct b; discriminate H.
  - destruct b as [| d b]; simpl in H.
    + injection H as _ H. destruct a; discriminate H.
    + injection H as _ H. exact (IH b H).
Qed.

Lemma suffix_last (a b r : string) (x : ascii) :
  a ++ b = r ++ String x EmptyString -> b <> EmptyString ->
  exists r', b = r' ++ String x EmptyString.
Proof.
  revert r. induction a as [| c a IH]; intros r H Hb.
  - exists r. exact H.
  - destruct r as [| d r]; simpl in H.
    + injection H as _ H. apply append_nil_inv in H. destruct H as [_ H].
      now elim Hb.
    + injection H as _ H. exact (IH r H Hb).
Qed.

Section Replace.

(** A separator [sep] that ends with the character [y]. *)
Variables (c0 : ascii) (sep0 sep1 : string) (y : ascii).
Local Abbreviation sep := (String c0 sep0).
Hypothesis sep_last : sep = sep1 ++ String y EmptyString.

Lemma split_not_nil (s : string) : split sep s <> [].
Proof.
  rewrite (split_find c0 sep0 s). destruct (find sep s); discriminate.
Qed.

(** Removing every occurrence of [sep] from a text that ends with another
    character than [sep] does leaves something. *)
Lemma remove_all_nonempty (n : nat) :
  forall (s r : string) (x : ascii),
    (String.length s <= n)%nat ->
    s = r ++ String x EmptyString -> x <> y ->
    replace sep EmptyString s <> EmptyString.
Proof.
  unfold replace, join.
  induction n as [| n IH]; intros s r x Hlen Hs Hx.
  - subst s. destruct r; simpl in Hlen; lia.
  - rewrite (split_find c0 sep0 s).
    destruct (find sep s) as [k |] eqn:Hfind.
    + pose proof (find_split sep s k Hfind) as Hsplit.
      set (s' := drop (k + String.length sep) s) in *.
      assert (Hs' : s' <> EmptyString).
      { intros E. rewrite E, append_empty_r, sep_last, <- append_assoc in Hsplit.
        rewrite Hs in Hsplit. apply last_char_unique in Hsplit. now elim Hx. }
      assert (Hend : exists r', s' = r' ++ String x EmptyString).
      { apply (suffix_last (take k s ++ sep) s' r x); [|exact Hs'].
        rewrite append_assoc, <- Hsplit. exact Hs. }
      destruct Hend as [r' Hend].
      assert (Hlen' : (String.length s' <= n)%nat).
      { unfold s'. rewrite drop_length. cbn [String.length].
        assert (String.length s <> 0)%nat
          by (rewrite Hs; destruct r; simpl; lia).
        lia. }
      pose proof (IH s' r' x Hlen' Hend Hx) as Hrest.
      pose proof (split_not_nil s') as Hnil.
      destruct (split sep s') as [| p ps]; [now elim Hnil|].
      cbn [concat]. cbn [append]. intros E. apply append_nil_inv in E.
      destruct E as [_ E]. exact (Hrest E).
    + cbn [concat]. rewrite Hs. destruct r; discriminate.
Qed.

End Replace.

Lemma title_char_not_nil (c : ascii) : title_char c <> EmptyString.
Proof.
  unfold title_char. destruct (nat_of_ascii c =? 223)%nat; [discriminate|].
  destruct (has_capital c); discriminate.
Qed.

Lemma capitalize_nil (s : string) :
  capitalize s = EmptyString <-> s = EmptyString.
Proof.
  destruct s as [| c s]; [split; reflexivity|]. simpl. split; [|discriminate].
  intros H. apply append_nil_inv in H. destruct H as [H _].
  now elim (title_char_not_nil c).
Qed.

End StripFacts.

(** ** The company name extractor *)

Section CompanyName.
Import PyStr PyStrFacts StripFacts.

Lemma extract_company_name_returns (u t : pyval) :
  exists name, _extract_company_name u t = Ok name.
Proof.
  unfold _extract_company_name.
  destruct (extract_company_name_try u t) as [name | e]; eauto.
Qed.

(** The title rule: the text before the first hiring, stripped, and
    without the words Jobs at when it starts with them. *)
Lemma title_rule (u : pyval) (t : string) :
  contains " hiring " t = true ->
  extract_company_name_try u (PStr t)
  = Ok (if startswith "Jobs at " (strip (up_to " hiring " t))
        then replace "Jobs at " EmptyString (strip (up_to " hiring " t))
        else strip (up_to " hiring " t)).
Proof.
  intros Hin. unfold extract_company_name_try. cbn [py_in bind].
  rewrite Hin. rewrite (split_hd " "%char "hiring " t). reflexivity.
Qed.

Lemma extract_company_name_title_only (u u' : pyval) (t : string) :
  contains " hiring " t = true ->
  _extract_company_name u (PStr t) = _extract_company_name u' (PStr t).
Proof.
  intros Hin. unfold _extract_company_name.
  now rewrite (title_rule u t Hin), (title_rule u' t Hin).
Qed.

Lemma space_is_space : is_space " "%char = true.
Proof. reflexivity. Qed.

(** The title rule gives the empty name only for a blank text. *)
Lemma title_rule_empty (p : string) :
  (if startswith "Jobs at " (strip p)
   then replace "Jobs at " EmptyString (strip p)
   else strip p) = EmptyString
  <-> blank p = true.
Proof.
  unfold blank. rewrite <- (strip_by_nil is_space p). fold (strip p).
  destruct (strip_by_last is_space p) as [E | [r [x [E Hx]]]]; fold (strip p) in E.
  - rewrite E. split; reflexivity.
  - split.
    + intros H. exfalso.
      destruct (startswith "Jobs at " (strip p)).
      * revert H.
        apply (remove_all_nonempty "J"%char "obs at " "Jobs at" " "%char eq_refl
                 (String.length (strip p)) (strip p) r x (le_n _) E).
        intros ->. rewrite space_is_space in Hx. discriminate Hx.
      * rewrite E in H. destruct r; discriminate H.
    + intros H. rewrite H in E. destruct r; discriminate E.
Qed.

Lemma two_last {A : Type} (l : list A) :
  (exists pre a b, l = pre ++ [a; b]) \/ (List.length l < 2)%nat.
Proof.
  destruct l as [| x l] using rev_ind; [right; simpl; lia|].
  destruct l as [| y l _] using rev_ind; [right; simpl; lia|].
  left. exists l, y, x. now rewrite <- app_assoc.
Qed.

Lemma second_to_last_app (pre : list string) (a b : string) :
  second_to_last (pre ++ [a; b]) = a.
Proof.
  induction pre as [| x pre IH]; [reflexivity|].
  cbn [app]. destruct pre as [| y pre]; [reflexivity|].
  destruct pre as [| z pre]; [reflexivity|]. exact IH.
Qed.

Lemma domain_label_app (domain : string) (pre : list string) (a b : string) :
  split "." domain = pre ++ [a; b] -> domain_label domain = a.
Proof.
  intros H. unfold domain_label. rewrite H, rev_app_distr. reflexivity.
Qed.

(** The label the code takes is [domain_label]. *)
Lemma label_of_parts (domain : string) :
  (if (2 <=? List.length (split "." domain))%nat
   then capitalize (second_to_last (split "." domain))
   else capitalize domain)
  = capitalize (domain_label domain).
Proof.
  destruct (two_last (split "." domain)) as [[pre [a [b E]]] | Hshort].
  - rewrite (domain_label_app domain pre a b E), E, second_to_last_app.
    rewrite length_app. cbn [List.length].
    replace (2 <=? List.length pre + 2)%nat with true
      by (symmetry; apply Nat.leb_le; lia).
    reflexivity.
  - unfold domain_label.
    replace (2 <=? List.length (split "." domain))%nat with false
      by (symmetry; apply Nat.leb_gt; exact Hshort).
    destruct (split "." domain) as [| x [| y l]]; [reflexivity | reflexivity|].
    simpl in Hshort. lia.
Qed.

(** The domain rule on a host that is not a job board. *)
Lemma domain_rule (u t : pyval) (domain : string) :
  py_in " hiring " t = Ok false ->
  url_domain u = Ok domain ->
  job_board domain = false ->
  extract_company_name_try u t = Ok (capitalize (domain_label domain)).
Proof.
  intros Hin Hdom Hboard. unfold extract_company_name_try.
  rewrite Hin. cbn [bind]. rewrite Hdom. cbn [bind].
  unfold job_board in Hboard.
  apply orb_false_elim in Hboard. destruct Hboard as [Hboard H4].
  apply orb_false_elim in Hboard. destruct Hboard as [Hboard H3].
  apply orb_false_elim in Hboard. destruct Hboard as [H1 H2].
  rewrite H1, H2, H3, H4. rewrite <- label_of_parts.
  destruct (2 <=? List.length (split "." domain))%nat; reflexivity.
Qed.

(** The domain rule on a job board: one of the four fixed names. *)
Lemma domain_rule_board (u t : pyval) (domain : string) :
  py_in " hiring " t = Ok false ->
  url_domain u = Ok domain ->
  job_board domain = true ->
  exists name,
    extract_company_name_try u t = Ok name
    /\ In name ["LinkedIn Job"; "Glassdoor Job"; "Indeed Job"; "Greenhouse Job"].
Proof.
  intros Hin Hdom Hboard. unfold extract_company_name_try.
  rewrite Hin. cbn [bind]. rewrite Hdom. cbn [bind].
  unfold job_board in Hboard.
  destruct (contains "linkedin.com" domain);
    [eexists; split; [reflexivity | simpl; tauto]|].
  destruct (contains "glassdoor.com" domain);
    [eexists; split; [reflexivity | simpl; tauto]|].
  destruct (contains "indeed.com" domain);
    [eexists; split; [reflexivity | simpl; tauto]|].
  destruct (contains "greenhouse.io" domain);
    [eexists; split; [reflexivity | simpl; tauto] | discriminate Hboard].
Qed.

Lemma try_title_not_string (u t : pyval) :
  py_in " hiring " t = Ok true ->
  (forall s, t <> PStr s) ->
  exists e, extract_company_name_try u t = Raise e.
Proof.
  intros Hin Hns. unfold extract_company_name_try. rewrite Hin. cbn [bind].
  destruct t; try (eexists; reflexivity). now elim (Hns s).
Qed.

Lemma try_in_raises (u t : pyval) (e : exn) :
  py_in " hiring " t = Raise e -> extract_company_name_try u t = Raise e.
Proof. intros H. unfold extract_company_name_try. now rewrite H. Qed.

Lemma try_domain_raises (u t : pyval) (e : exn) :
  py_in " hiring " t = Ok false ->
  url_domain u = Raise e ->
  extract_company_name_try u t = Raise e.
Proof.
  intros Hin Hdom. unfold extract_company_name_try.
  rewrite Hin. cbn [bind]. now rewrite Hdom.
Qed.

End CompanyName.

(** C6, as stated, fails: with the default url (the empty string, which the
    record parser passes when an item has no link) and a title without the
    word hiring, the name returned is the empty string. *)
Lemma extract_company_name_empty_name :
  ~ (exists name,
       _extract_company_name (PStr EmptyString) (PStr "Backend Engineer") = Ok name
       /\ name <> EmptyString).
Proof.
  intros [name [H Hne]]. vm_compute in H.
  injection H as <-. apply Hne. reflexivity.
Qed.

(** C6, amended: [_extract_company_name] is total and never raises: for
    every pair of objects it returns a string, and the string is the
    literal Unknown Company whenever the extraction raises, which it does
    exactly on the pairs of [extraction_raises].  The name is not empty
    but in two cases, where it is the empty string: a title with nothing
    but white space before its first hiring, and a title without the word
    together with a url whose host is none of the job boards and has an
    empty label where the domain rule looks (the label before the last
    one, or the host itself when it has no dot). *)
Theorem extract_company_name_total (u t : pyval) :
  exists name,
    _extract_company_name u t = Ok name
    /\ (forall e, extract_company_name_try u t = Raise e ->
                  name = "Unknown Company")
    /\ ((exists e, extract_company_name_try u t = Raise e)
        <-> extraction_raises u t = true)
    /\ (name = EmptyString <-> names_nothing u t = true).
Proof.
  unfold _extract_company_name, extraction_raises, names_nothing.
  destruct (py_in " hiring " t) as [[|] | e0] eqn:Hin.
  - (* the title holds the word *)
    assert (Hother : (forall s, t <> PStr s) ->
              exists name,
                match extract_company_name_try u t with
                | Ok company => Ok company
                | Raise _ => Ok "Unknown Company"
                end = Ok name
                /\ (forall e, extract_company_name_try u t = Raise e ->
                              name = "Unknown Company")
                /\ ((exists e, extract_company_name_try u t = Raise e)
                    <-> true = true)
                /\ (name = EmptyString <-> false = true)).
    { intros Hns. destruct (try_title_not_string u t Hin Hns) as [e He].
      rewrite He. exists "Unknown Company".
      split; [reflexivity|]. split; [reflexivity|].
      split; [split; eauto | split; discriminate]. }
    destruct t as [| b | z | s | l | d];
      try (apply Hother; intros s0; discriminate).
    cbn [py_in] in Hin. injection Hin as Hin.
    rewrite (title_rule u s Hin). eexists. split; [reflexivity|].
    split; [discriminate|].
    split; [split; [intros [e He]; discriminate He | discriminate]|].
    apply title_rule_empty.
  - (* the title does not hold the word *)
    assert (Hraise : forall e, url_domain u = Raise e ->
              exists name,
                match extract_company_name_try u t with
                | Ok company => Ok company
                | Raise _ => Ok "Unknown Company"
                end = Ok name
                /\ (forall e, extract_company_name_try u t = Raise e ->
                              name = "Unknown Company")
                /\ ((exists e, extract_company_name_try u t = Raise e)
                    <-> true = true)
                /\ (name = EmptyString <-> false = true)).
    { intros e He. rewrite (try_domain_raises u t e Hin He).
      exists "Unknown Company".
      split; [reflexivity|]. split; [reflexivity|].
      split; [split; eauto | split; discriminate]. }
    unfold url_names_nothing.
    destruct u as [| b | z | s | l | d];
      try (eapply Hraise; reflexivity).
    destruct (UrlParse.netloc s) as [host | e] eqn:Hloc.
    2:{ eapply Hraise. cbn [url_domain]. rewrite Hloc. reflexivity. }
    assert (Hdom : url_domain (PStr s) = Ok (PyStr.lower host)).
    { cbn [url_domain]. rewrite Hloc. reflexivity. }
    destruct (job_board (PyStr.lower host)) eqn:Hboard.
    + destruct (domain_rule_board _ t _ Hin Hdom Hboard) as [name [Hname Hcanned]].
      rewrite Hname. exists name. split; [reflexivity|].
      split; [discriminate|].
      split; [split; [intros [e He]; discriminate He | discriminate]|].
      cbn [negb andb]. split; [|discriminate].
      intros ->. simpl in Hcanned.
      destruct Hcanned as [H | [H | [H | [H | []]]]]; discriminate H.
    + rewrite (domain_rule _ t _ Hin Hdom Hboard). eexists.
      split; [reflexivity|]. split; [discriminate|].
      split; [split; [intros [e He]; discriminate He | discriminate]|].
      cbn [negb andb]. rewrite StripFacts.capitalize_nil.
      split; [intros ->; reflexivity | apply String.eqb_eq].
  - (* the test of the title raises *)
    rewrite (try_in_raises u t e0 Hin). exists "Unknown Company".
    split; [reflexivity|]. split; [reflexivity|].
    split; [split; eauto | split; discriminate].
Qed.

Lemma extract_company_name_total_witness :
  _extract_company_name (PStr "http://[broken]/x") (PStr "Engineer")
  = Ok "Unknown Company"
  /\ _extract_company_name (PStr "https://.com/jobs") (PStr "Engineer")
     = Ok EmptyString
  /\ _extract_company_name PNone (PStr "  hiring now") = Ok EmptyString.
Proof.
  destruct (extract_company_name_total (PStr "http://[broken]/x") (PStr "Engineer"))
    as [n1 [H1 [_ [R1 _]]]].
  destruct (extract_company_name_total (PStr "https://.com/jobs") (PStr "Engineer"))
    as [n2 [H2 [_ [_ E2]]]].
  destruct (extract_company_name_total PNone (PStr "  hiring now"))
    as [n3 [H3 [_ [_ E3]]]].
  rewrite H1, H2, H3. split; [|split].
  - destruct (proj2 R1 eq_refl) as [e He].
    revert H1. unfold _extract_company_name. rewrite He. auto.
  - f_equal. apply E2. reflexivity.
  - f_equal. apply E3. reflexivity.
Defined.

(** C7: the rule on the title wins over the rule on the domain: a title
    that holds the word hiring fixes the name whatever the url, and the
    name is the text before the word, stripped (when it does not start
    with Jobs at).  Else the domain rule applies to the lower-cased host
    of the url: unless the host names one of the four job boards, the
    name is the capitalized label before the last one, however many labels
    the host has.  The two examples of the specification evaluate to Acme
    Corp and Widgetco. *)
Theorem extract_company_name_examples :
  _extract_company_name (PStr "https://boards.greenhouse.io/acme/jobs/1")
    (PStr "Acme Corp hiring Backend Engineer") = Ok "Acme Corp"
  /\ _extract_company_name (PStr "https://careers.widgetco.com/job/42")
       (PStr "Backend Engineer") = Ok "Widgetco"
  /\ _extract_company_name (PStr "https://boards.greenhouse.io/acme/jobs/1")
       (PStr "Backend Engineer") = Ok "Greenhouse Job"
  /\ (forall (u u' : pyval) (t : string),
        PyStr.contains " hiring " t = true ->
        _extract_company_name u (PStr t) = _extract_company_name u' (PStr t))
  /\ (forall (u : pyval) (t : string),
        PyStr.contains " hiring " t = true ->
        PyStr.startswith "Jobs at " (PyStr.strip (up_to " hiring " t)) = false ->
        _extract_company_name u (PStr t)
        = Ok (PyStr.strip (up_to " hiring " t)))
  /\ (forall (s t host : string) (pre : list string) (a b : string),
        PyStr.contains " hiring " t = false ->
        UrlParse.netloc s = Ok host ->
        job_board (PyStr.lower host) = false ->
        PyStr.split "." (PyStr.lower host) = pre ++ [a; b] ->
        capital_in_range a = true ->
        _extract_company_name (PStr s) (PStr t) = Ok (PyStr.capitalize a)).
Proof.
  split; [vm_compute; reflexivity|].
  split; [vm_compute; reflexivity|].
  split; [vm_compute; reflexivity|].
  split; [intros u u' t; apply extract_company_name_title_only|].
  split.
  - intros u t Hin Hjobs. unfold _extract_company_name.
    rewrite (title_rule u t Hin), Hjobs. reflexivity.
  - intros s t host pre a b Hin Hloc Hboard Hparts _.
    unfold _extract_company_name.
    rewrite (domain_rule (PStr s) (PStr t) (PyStr.lower host)).
    + now rewrite (domain_label_app _ pre a b Hparts).
    + cbn [py_in]. now rewrite Hin.
    + cbn [url_domain]. now rewrite Hloc.
    + exact Hboard.
Qed.

Lemma extract_company_name_examples_witness :
  _extract_company_name (PStr "https://www.linkedin.com/jobs/view/1")
    (PStr "Initech hiring Analyst")
  = _extract_company_name PNone (PStr "Initech hiring Analyst")
  /\ _extract_company_name PNone (PStr " Initech  hiring Analyst") = Ok "Initech"
  /\ _extract_company_name (PStr "https://Jobs.EU.Acme-Corp.co.uk:8443/x?y")
       (PStr "Backend Engineer") = Ok "Co"
  /\ _extract_company_name (PStr "//widgetco.com") (PStr "Engineer")
     = Ok "Widgetco".
Proof.
  destruct extract_company_name_examples as [_ [_ [_ [Hany [Htitle Hdomain]]]]].
  split; [apply Hany; reflexivity|].
  split; [apply Htitle; reflexivity|].
  split.
  - apply (Hdomain "https://Jobs.EU.Acme-Corp.co.uk:8443/x?y" "Backend Engineer"
             "Jobs.EU.Acme-Corp.co.uk:8443" ["jobs"; "eu"; "acme-corp"] "co" "uk:8443");
      reflexivity.
  - apply (Hdomain "//widgetco.com" "Engineer" "widgetco.com" [] "widgetco" "com");
      reflexivity.
Defined.

(** ** The match analyzer *)

Section Analyzer.

Variables (svc : service) (resume : string) (n : nat) (job : JobListing).
Variable p : prompt.
Hypothesis Hprompt : build_prompt resume job = Ok p.

Lemma analyze_job_listing_outcome :
  analyze_job_listing svc resume n job = analyze_outcome (svc n p).
Proof. unfold analyze_job_listing. rewrite Hprompt. reflexivity. Qed.

Lemma subscript_str_missing (v : pyval) (k : string) :
  (match v with PDict d => dict_has k d | _ => false end) = false ->
  exists e, subscript_str v k = Raise e /\ is_json_decode_error e = false.
Proof.
  destruct v as [| b | z | s | l | d]; simpl; intros H;
    try (eexists; split; [reflexivity | reflexivity]).
  unfold dict_has in H. destruct (dict_lookup k d); [discriminate|].
  eexists; split; reflexivity.
Qed.

Lemma subscript_str_raise_class (v : pyval) (k : string) (e : exn) :
  subscript_str v k = Raise e -> is_json_decode_error e = false.
Proof.
  destruct v as [| b | z | s | l | d]; simpl; try (intros [= <-]; reflexivity).
  destruct (dict_lookup k d); [discriminate | intros [= <-]; reflexivity].
Qed.

Lemma analyze_outcome_missing_keys (text : string) (v : pyval) :
  has_both_keys v = false ->
  exists msg,
    analyze_outcome (Reply text (Some v))
    = Ok (PInt 0, PStr ("Analysis failed: " ++ msg)).
Proof.
  intros Hkeys. unfold analyze_outcome. simpl.
  destruct (subscript_str v "match_score") as [s | e] eqn:Hs; simpl.
  - destruct (subscript_str v "analysis") as [a | e] eqn:Ha; simpl.
    + exfalso. destruct v as [| b | z | t | l | d]; try discriminate.
      simpl in Hs, Ha, Hkeys. unfold dict_has in Hkeys.
      destruct (dict_lookup "match_score" d); [|discriminate].
      destruct (dict_lookup "analysis" d); discriminate.
    + rewrite (subscript_str_raise_class _ _ _ Ha). eauto.
  - rewrite (subscript_str_raise_class _ _ _ Hs). eauto.
Qed.

Lemma analyze_outcome_call_fails (e : exn) :
  is_json_decode_error e = false ->
  analyze_outcome (CallRaises e)
  = Ok (PInt 0, PStr ("Analysis failed: " ++ exn_str e)).
Proof. intros H. unfold analyze_outcome. simpl. rewrite H. reflexivity. Qed.

Lemma analyze_outcome_not_json (content : string) :
  analyze_outcome (Reply content None)
  = Ok (PInt (scrape_score content), PStr content).
Proof. reflexivity. Qed.

End Analyzer.

(** C10: a reply that decodes, but not to a dict with both keys, ends in
    the generic [except] clause: whenever the service was called and its
    reply decodes to an object that is not a dict or lacks match_score or
    analysis, the method returns the score 0 with a text that begins
    Analysis failed: and never the score 5 of the scrape. *)
Theorem analyze_missing_keys_is_failure
    (svc : service) (resume : string) (n : nat) (job : JobListing)
    (p : prompt) (text : string) (v : pyval) :
  build_prompt resume job = Ok p ->
  svc n p = Reply text (Some v) ->
  has_both_keys v = false ->
  exists msg,
    analyze_job_listing svc resume n job
    = Ok (PInt 0, PStr ("Analysis failed: " ++ msg)).
Proof.
  intros Hp Hsvc Hkeys.
  rewrite (analyze_job_listing_outcome svc resume n job p Hp), Hsvc.
  apply analyze_outcome_missing_keys. exact Hkeys.
Qed.

Lemma analyze_missing_keys_is_failure_witness :
  exists msg,
    analyze_job_listing
      (fun _ _ => score_only_reply)
      "resume" 1 sample_job
    = Ok (PInt 0, PStr ("Analysis failed: " ++ msg)).
Proof.
  apply (analyze_missing_keys_is_failure _ "resume" 1 sample_job sample_prompt
           ("{" ++ dquote ++ "score" ++ dquote ++ ": 7}")%string
           (PDict [("score", PInt 7)])); reflexivity.
Defined.

(** C2, at the inputs where the code breaks it.  When [create] itself
    raises a [JSONDecodeError], the first [except] clause is entered with
    the variable [response] unassigned, and the method raises
    [UnboundLocalError] where the claim promises the score 0 and a text
    that says failed.  And the prompt is built before the [try]: on the
    record that the parser builds from an item with a null snippet, the
    slice of the description raises [TypeError]. *)
Theorem analyze_job_listing_raises :
  analyze_job_listing undecodable_service "resume" 1 sample_job
  = Raise (Exn UnboundLocalError
             "cannot access local variable 'response' where it is not associated with a value")
  /\ (exists job,
        fst (parse_google_search_json null_snippet_snapshot) = Ok [job]
        /\ analyze_job_listing strong_fit "resume" 1 job
           = Raise (Exn TypeError "'NoneType' object is not subscriptable")).
Proof.
  split; [reflexivity|]. eexists. split; reflexivity.
Qed.

(** Apart from that case the claim holds on every record whose description
    can be sliced: the method returns, and a failed call gives the score 0
    with the description of the error. *)
Lemma analyze_returns_otherwise
    (svc : service) (resume : string) (n : nat) (job : JobListing) (p : prompt) :
  build_prompt resume job = Ok p ->
  (forall e, svc n p = CallRaises e -> is_json_decode_error e = false) ->
  returns (analyze_job_listing svc resume n job)
  /\ (forall e, svc n p = CallRaises e ->
        analyze_job_listing svc resume n job
        = Ok (PInt 0, PStr ("Analysis failed: " ++ exn_str e))).
Proof.
  intros Hp Hcls.
  rewrite (analyze_job_listing_outcome svc resume n job p Hp).
  split.
  - destruct (svc n p) as [e | text [v |]] eqn:Ho.
    + rewrite (analyze_outcome_call_fails e (Hcls e eq_refl)). eexists; reflexivity.
    + unfold analyze_outcome. simpl.
      destruct (subscript_str v "match_score") as [s | e] eqn:Hs; simpl.
      * destruct (subscript_str v "analysis") as [a | e] eqn:Ha; simpl.
        -- eexists; reflexivity.
        -- rewrite (subscript_str_raise_class _ _ _ Ha). eexists; reflexivity.
      * rewrite (subscript_str_raise_class _ _ _ Hs). eexists; reflexivity.
    + eexists; reflexivity.
  - intros e He. rewrite He. apply analyze_outcome_call_fails. apply Hcls, He.
Qed.

(** ** The scrape of a reply that is not JSON *)

Section Scrape.
Import PyStr PyStrFacts.
Local Open Scope string_scope.

Lemma scrape_score_by_position (content : string) :
  scrape_score content = scrape_by_position content.
Proof.
  unfold scrape_score, scrape_by_position, scrape_try.
  rewrite contains_find, split_second.
  destruct (find "match_score" content) as [n |]; [|reflexivity].
  set (examined := up_to "match_score" _).
  rewrite split_second.
  destruct (find ":" examined) as [c |]; [|reflexivity].
  rewrite split_hd. reflexivity.
Qed.

Lemma scrape_without_word (content : string) :
  contains "match_score" content = false -> scrape_score content = 5%Z.
Proof. intros H. unfold scrape_score. rewrite H. reflexivity. Qed.

Lemma drop_add (a b : nat) (s : string) : drop (a + b) s = drop b (drop a s).
Proof.
  revert s. induction a as [| a IH]; intros s; [reflexivity|].
  destruct s as [| c s]; simpl; [destruct b; reflexivity | apply IH].
Qed.

Lemma find_next (sub : string) (c : ascii) (s : string) :
  prefix sub (String c s) = false ->
  find sub (String c s) = option_map S (find sub s).
Proof.
  intros H. cbn [find]. rewrite H. destruct (find sub s); reflexivity.
Qed.

Lemma up_to_next (sub : string) (c : ascii) (s : string) :
  prefix sub (String c s) = false ->
  up_to sub (String c s) = String c (up_to sub s).
Proof.
  intros H. unfold up_to. rewrite (find_next _ _ _ H).
  destruct (find sub s); reflexivity.
Qed.

Lemma prefix_one_char (c : ascii) (s : string) :
  prefix (String c EmptyString) (String c s) = true.
Proof.
  cbn [prefix]. destruct (ascii_dec c c) as [_ | Hne]; [|now elim Hne].
  destruct s; reflexivity.
Qed.

Lemma up_to_here (c : ascii) (s : string) :
  up_to (String c EmptyString) (String c s) = EmptyString.
Proof. unfold up_to. cbn [find]. rewrite prefix_one_char. reflexivity. Qed.

Lemma find_here (c : ascii) (s : string) :
  find (String c EmptyString) (String c s) = Some 0.
Proof. cbn [find]. rewrite prefix_one_char. reflexivity. Qed.

Lemma scrape_seven (pre post : string) :
  find "match_score" (pre ++ "match_score" ++ seven_after post)
  = Some (String.length pre) ->
  scrape_score (pre ++ "match_score" ++ seven_after post) = 7%Z.
Proof.
  intros Hfirst. rewrite scrape_score_by_position.
  unfold scrape_by_position. rewrite Hfirst.
  rewrite drop_add, drop_app_length.
  change (drop (String.length "match_score") ("match_score" ++ seven_after post))
    with (seven_after post).
  unfold seven_after, dquote. cbn [append].
  repeat (rewrite (up_to_next "match_score") by reflexivity).
  set (tail := up_to "match_score" post).
  rewrite (find_next ":") by reflexivity.
  rewrite find_here. cbn [option_map Nat.add drop].
  repeat (rewrite (up_to_next ":") by reflexivity).
  repeat (rewrite (up_to_next ",") by reflexivity).
  rewrite up_to_here. reflexivity.
Qed.

End Scrape.

(** C3, as stated, fails: the body [prose_then_json] is not JSON and
    contains the word match_score followed by a double quote, a colon, 7
    and a comma, and the integer after the next colon and before the next
    comma is 7; the method returns 5, because the text it examines stops
    at the second occurrence of the word, before any colon. *)
Lemma scrape_stops_at_second_occurrence :
  PyStr.contains ("match_score" ++ seven_after EmptyString) prose_then_json = true
  /\ analyze_job_listing (fun _ _ => Reply prose_then_json None)
       "resume" 1 sample_job
     = Ok (PInt 5, PStr prose_then_json)
  /\ analyze_job_listing (fun _ _ => Reply prose_then_json None)
       "resume" 1 sample_job
     <> Ok (PInt 7, PStr prose_then_json).
Proof.
  split; [vm_compute; reflexivity|].
  split; [vm_compute; reflexivity|].
  vm_compute. discriminate.
Qed.

(** C3, amended: when the reply does not decode, the method returns the
    raw text as the analysis together with a scraped score.  The score is
    5 if the text lacks the word match_score.  Otherwise the text examined
    runs from the end of the first occurrence of the word to the start of
    its next occurrence (or to the end); the value is what follows the
    first colon of that text, up to the next colon or comma; stripped of
    white space and of double quotes it is read as an integer, which is
    the score, and the score is 5 if the colon is missing or the value is
    not an integer.  In particular a body whose first occurrence of the
    word is followed by a double quote, a colon, a space, 7 and a comma
    yields the score 7 with the raw body. *)
Theorem analyze_scrape_fallback
    (svc : service) (resume : string) (n : nat) (job : JobListing)
    (p : prompt) (content : string) :
  build_prompt resume job = Ok p ->
  svc n p = Reply content None ->
  analyze_job_listing svc resume n job
  = Ok (PInt (scrape_by_position content), PStr content)
  /\ (PyStr.contains "match_score" content = false ->
      scrape_by_position content = 5%Z)
  /\ (forall pre post : string,
        content = (pre ++ "match_score" ++ seven_after post)%string ->
        PyStr.find "match_score" content = Some (String.length pre) ->
        analyze_job_listing svc resume n job = Ok (PInt 7, PStr content)).
Proof.
  intros Hp Hsvc.
  assert (Hcall : analyze_job_listing svc resume n job
                  = Ok (PInt (scrape_score content), PStr content)).
  { rewrite (analyze_job_listing_outcome svc resume n job p Hp), Hsvc.
    apply analyze_outcome_not_json. }
  split; [rewrite Hcall, scrape_score_by_position; reflexivity|].
  split.
  - intros Hword. rewrite <- scrape_score_by_position.
    apply scrape_without_word, Hword.
  - intros pre post -> Hfirst. rewrite Hcall, (scrape_seven pre post Hfirst).
    reflexivity.
Qed.

Lemma analyze_scrape_fallback_witness :
  analyze_job_listing (fun _ _ => Reply json_in_prose None) "resume" 1 sample_job
  = Ok (PInt 7, PStr json_in_prose)
  /\ scrape_by_position "no score here" = 5%Z
  /\ analyze_job_listing (fun _ _ => Reply spaced_score None) "resume" 1 sample_job
     = Ok (PInt 42, PStr spaced_score)
  /\ analyze_job_listing (fun _ _ => Reply separated_score None) "resume" 1
       sample_job
     = Ok (PInt 5, PStr separated_score).
Proof.
  split; [|split; [|split]].
  - destruct (analyze_scrape_fallback (fun _ _ => Reply json_in_prose None)
                "resume" 1 sample_job sample_prompt json_in_prose
                eq_refl eq_refl) as [_ [_ H]].
    apply (H ("Here is my answer: {" ++ dquote)%string
             (" " ++ dquote ++ "analysis" ++ dquote ++ ": "
              ++ dquote ++ "Good fit" ++ dquote ++ "} Thanks!")%string);
      vm_compute; reflexivity.
  - destruct (analyze_scrape_fallback (fun _ _ => Reply "no score here" None)
                "resume" 1 sample_job sample_prompt "no score here"
                eq_refl eq_refl) as [_ [H _]].
    apply H. vm_compute. reflexivity.
  - destruct (analyze_scrape_fallback (fun _ _ => Reply spaced_score None)
                "resume" 1 sample_job sample_prompt spaced_score
                eq_refl eq_refl) as [H _].
    rewrite H. reflexivity.
  - destruct (analyze_scrape_fallback (fun _ _ => Reply separated_score None)
                "resume" 1 sample_job sample_prompt separated_score
                eq_refl eq_refl) as [H _].
    rewrite H. reflexivity.
Defined.

(** ** The record parser *)

Section RecordParser.

Lemma parse_item_records (i : nat) (item : pyval)
    (jobs : list JobListing) (log : list parse_log) :
  fst (parse_item i item (jobs, log)) = jobs ++ item_records item.
Proof.
  unfold parse_item, item_records.
  destruct item as [| b | z | s | l | d]; simpl; try (now rewrite app_nil_r).
  destruct (extract_company_name_returns
              (match dict_lookup "link" d with
               | Some v => v | None => PStr EmptyString end)
              (match dict_lookup "title" d with
               | Some v => v | None => PStr "Unknown Position" end))
    as [c Hc].
  rewrite Hc. simpl.
  destruct (slice_to 50 _); reflexivity.
Qed.

Lemma parse_items_records (items : list pyval) :
  forall (i : nat) (jobs : list JobListing) (log : list parse_log),
    fst (parse_items i items (jobs, log)) = jobs ++ flat_map item_records items.
Proof.
  induction items as [| item items IH]; intros i jobs log.
  - simpl. now rewrite app_nil_r.
  - cbn [parse_items flat_map].
    pose proof (parse_item_records i item jobs log) as H.
    destruct (parse_item i item (jobs, log)) as [jobs' log'].
    cbn [fst] in H. rewrite IH, H, <- app_assoc. reflexivity.
Qed.

(** A snapshot without the key, or with an empty list under it, gives the
    empty list of records. *)
Lemma parse_no_items (d : list (string * pyval)) :
  dict_lookup "items" d = None \/ dict_lookup "items" d = Some (PList []) ->
  fst (parse_google_search_json (PDict d)) = Ok [].
Proof.
  unfold parse_google_search_json. simpl. unfold dict_has.
  intros [H | H]; rewrite H; reflexivity.
Qed.

(** A snapshot with a non-empty list of items gives the records of its
    items, in order. *)
Lemma parse_items_in_order (d : list (string * pyval)) (item : pyval)
    (items : list pyval) :
  dict_lookup "items" d = Some (PList (item :: items)) ->
  fst (parse_google_search_json (PDict d))
  = Ok (flat_map item_records (item :: items)).
Proof.
  intros H. unfold parse_google_search_json. simpl. unfold dict_has.
  rewrite H. cbn [truthy negb iterate].
  pose proof (parse_items_records (item :: items) 1 []
                [LogFound (List.length (item :: items))]) as Hrec.
  destruct (parse_items 1 (item :: items) _) as [jobs log].
  simpl in Hrec. simpl. rewrite Hrec. reflexivity.
Qed.

End RecordParser.

(** C5, at the input where the code breaks it: the item raises inside the
    [try] (its title cannot be sliced for the progress line), the warning
    for item 1 is printed, and yet the record is in the list returned: it
    had been appended before the line that raised.  The claim has such an
    item skipped. *)
Theorem parse_keeps_item_that_raised :
  parse_google_search_json null_title_snapshot
  = (Ok [new_job PNone (PStr "Unknown Company")
           (PStr "https://careers.widgetco.com/job/42")
           (PStr "Build services.")],
     [LogFound 1; LogParseError 1 "'NoneType' object is not subscriptable"]).
Proof. vm_compute. reflexivity. Qed.

(** ** The result store *)

Section ResultStore.

Variable h : store.

Lemma result_entries_length (ranked : list ref) :
  forall k, List.length (result_entries h k ranked) = List.length ranked.
Proof.
  induction ranked as [| r rest IH]; intros k; simpl;
    [reflexivity | now rewrite IH].
Qed.

Lemma result_entries_nth (ranked : list ref) :
  forall (k i : nat) (r : ref),
    nth_error ranked i = Some r ->
    nth_error (result_entries h k ranked) i = Some (result_entry (k + i) (h r)).
Proof.
  induction ranked as [| r0 rest IH]; intros k i r Hnth.
  - destruct i; discriminate.
  - destruct i as [| i]; simpl in *.
    + injection Hnth as ->. now rewrite Nat.add_0_r.
    + rewrite (IH (S k) i r Hnth). f_equal. f_equal. lia.
Qed.

End ResultStore.

(** C9: [save_results] leaves at the path a JSON array with one object per
    record, in rank order; the object at position [i] (from 0) has exactly
    the six fields rank, match_score, company, title, url and analysis,
    rank being [i + 1] and the others copied from the record; what the
    path held before does not matter, and no other path changes. *)
Theorem save_results_writes_ranked_array
    (h : store) (ranked : list ref) (filename : string) (fs : files) :
  exists objs : list pyval,
    save_results h ranked filename fs filename = Some (PList objs)
    /\ List.length objs = List.length ranked
    /\ (forall (i : nat) (r : ref),
          nth_error ranked i = Some r ->
          nth_error objs i
          = Some (PDict [("rank", PInt (Z.of_nat (i + 1)));
                         ("match_score", match_score (h r));
                         ("company", company (h r));
                         ("title", title (h r));
                         ("url", url (h r));
                         ("analysis", analysis (h r))]))
    /\ (forall path : string,
          path <> filename ->
          save_results h ranked filename fs path = fs path).
Proof.
  exists (result_entries h 1 ranked).
  unfold save_results, write_file.
  split; [now rewrite String.eqb_refl|].
  split; [apply result_entries_length|].
  split.
  - intros i r Hnth. rewrite (result_entries_nth h ranked 1 i r Hnth).
    unfold result_entry. replace (1 + i)%nat with (i + 1)%nat by lia.
    reflexivity.
  - intros path Hne. apply String.eqb_neq in Hne. now rewrite Hne.
Qed.

Lemma save_results_writes_ranked_array_witness :
  exists objs : list pyval,
    save_results two_scored_jobs [0; 1]%nat "job_rankings.json"
      (fun _ => Some PNone) "job_rankings.json" = Some (PList objs)
    /\ nth_error objs 1
       = Some (PDict [("rank", PInt 2); ("match_score", PInt 4);
                      ("company", PStr "Initech"); ("title", PStr "Analyst");
                      ("url", PStr "https://i.example/2");
                      ("analysis", PStr "Weak fit")])
    /\ save_results two_scored_jobs [0; 1]%nat "job_rankings.json"
         (fun _ => Some PNone) "resume.txt" = Some PNone.
Proof.
  destruct (save_results_writes_ranked_array two_scored_jobs [0; 1]%nat
              "job_rankings.json" (fun _ => Some PNone))
    as [objs [Hfile [_ [Hnth Hother]]]].
  exists objs. split; [exact Hfile|]. split.
  - apply (Hnth 1%nat 1%nat). reflexivity.
  - apply Hother. discriminate.
Defined.

(** ** The ranking pipeline: the loop *)

(** [time.sleep] takes a plain delay. *)
Lemma plain_delay_sleeps (d : seconds) :
  plain_delay d = true -> sleep d = Ok tt.
Proof.
  destruct d as [q | negative |]; try discriminate.
  unfold plain_delay, sleep. intros H. apply andb_prop in H.
  destruct H as [Hpos Hmax]. rewrite Hpos.
  apply Qle_bool_iff in Hpos. apply Qle_bool_iff in Hmax.
  assert (Hns : (q * (1000000000 # 1) <= 4000000000000000000 # 1)%Q).
  { change (4000000000000000000 # 1)%Q
      with (long_wait * (1000000000 # 1))%Q.
    apply Qmult_le_compat_r; [exact Hmax | discriminate]. }
  assert (Hlow : (0 <= q * (1000000000 # 1))%Q).
  { apply Qmult_le_0_compat; [exact Hpos | discriminate]. }
  destruct (Qle_bool ns_limit (q * (1000000000 # 1))) eqn:E1.
  { apply Qle_bool_iff in E1. exfalso.
    assert (Habs : (ns_limit <= 4000000000000000000 # 1)%Q)
      by (eapply Qle_trans; eassumption).
    revert Habs. unfold ns_limit, Qle. simpl. lia. }
  destruct (Qle_bool (q * (1000000000 # 1)) (- ns_limit)) eqn:E2.
  { apply Qle_bool_iff in E2. exfalso.
    assert (Habs : (0 <= - ns_limit)%Q)
      by (eapply Qle_trans; eassumption).
    revert Habs. unfold ns_limit, Qle. simpl. lia. }
  reflexivity.
Qed.

Section Loop.

Variables (svc : service) (resume : string) (delay : seconds).

Lemma count_sleeps_paced (jobs : list ref) :
  forall i, count_sleeps (paced delay i jobs) = (List.length jobs - 1)%nat.
Proof.
  unfold count_sleeps.
  induction jobs as [| r rest IH]; intros i; [reflexivity|].
  destruct rest as [| r' rest']; [reflexivity|].
  change (paced delay i (r :: r' :: rest'))
    with (EvAnalyze i r :: EvSleep delay :: paced delay (S i) (r' :: rest')).
  cbn [filter is_sleep List.length]. rewrite IH. simpl. lia.
Qed.

Lemma last_cons_cons {A : Type} (x y : A) (l : list A) (d : A) :
  last (x :: y :: l) d = last (y :: l) d.
Proof. reflexivity. Qed.

Lemma last_nonempty_default {A : Type} (x : A) (l : list A) (d d' : A) :
  last (x :: l) d = last (x :: l) d'.
Proof.
  revert x. induction l as [| y l IH]; intros x; [reflexivity|].
  rewrite !last_cons_cons. apply IH.
Qed.

Lemma paced_last_is_analysis (jobs : list ref) :
  forall (r0 : ref) (i : nat),
    last (paced delay i (r0 :: jobs)) (EvSleep delay)
    = EvAnalyze (i + List.length jobs) (last (r0 :: jobs) r0).
Proof.
  induction jobs as [| r rest IH]; intros r0 i.
  - simpl. now rewrite Nat.add_0_r.
  - change (paced delay i (r0 :: r :: rest))
      with (EvAnalyze i r0 :: EvSleep delay :: paced delay (S i) (r :: rest)).
    rewrite last_cons_cons.
    assert (Hp : exists e tr, paced delay (S i) (r :: rest) = e :: tr).
    { destruct rest; simpl; eauto. }
    destruct Hp as [e [tr Hp]].
    rewrite Hp, last_cons_cons, <- Hp, (IH r (S i)).
    rewrite last_cons_cons, (last_nonempty_default r rest r0 r).
    cbn [List.length]. f_equal. lia.
Qed.

Lemma analyze_returns (n : nat) (job : JobListing) :
  no_decode_error_from_call svc ->
  returns (slice_to 4000 (description job)) ->
  returns (analyze_job_listing svc resume n job).
Proof.
  intros Hsvc [d Hd].
  assert (Hp : build_prompt resume job
               = Ok (mkPrompt resume (company job) (title job) (url job) d)).
  { unfold build_prompt. rewrite Hd. reflexivity. }
  apply (analyze_returns_otherwise svc resume n job _ Hp).
  intros e He. exact (Hsvc _ _ _ He).
Qed.

Lemma sliceable_set_result (h : store) (jobs : list ref) (r : ref)
    (score an : pyval) :
  sliceable h jobs ->
  sliceable (store_set h r (set_result (h r) score an)) jobs.
Proof.
  intros H x Hx. unfold store_set.
  destruct (Nat.eqb x r) eqn:E; [|apply H, Hx].
  apply Nat.eqb_eq in E. subst x. simpl. apply H, Hx.
Qed.

(** With a delay that [time.sleep] accepts and analyses that return, the
    loop runs to its end and its trace is the paced one. *)
Lemma rank_loop_trace (total : nat) (jobs : list ref) :
  sleep delay = Ok tt ->
  no_decode_error_from_call svc ->
  forall (i : nat) (st : run_state),
    sliceable (st_store st) jobs ->
    (i + List.length jobs = S total)%nat ->
    exists h',
      rank_loop svc resume delay total i jobs st
      = (Ok tt, mkState h' (st_trace st ++ paced delay i jobs)).
Proof.
  intros Hd Hsvc.
  induction jobs as [| r rest IH]; intros i st Hs Hlen.
  - exists (st_store st). simpl. rewrite app_nil_r. destruct st; reflexivity.
  - cbn [rank_loop].
    destruct (analyze_returns i (st_store st r) Hsvc (Hs r (or_introl eq_refl)))
      as [[score an] Ha].
    rewrite Ha.
    assert (Hs' : sliceable (store_set (st_store st) r
                               (set_result (st_store st r) score an)) rest).
    { apply sliceable_set_result. intros x Hx. apply Hs. now right. }
    cbn [List.length] in Hlen.
    destruct rest as [| r' rest'].
    + assert (Hi : (i <? total)%nat = false) by (apply Nat.ltb_ge; simpl in Hlen; lia).
      rewrite Hi. cbn [rank_loop paced]. eexists. reflexivity.
    + assert (Hi : (i <? total)%nat = true) by (apply Nat.ltb_lt; simpl in Hlen; lia).
      rewrite Hi, Hd.
      destruct (IH (S i)
                  (mkState (store_set (st_store st) r
                              (set_result (st_store st r) score an))
                     ((st_trace st ++ [EvAnalyze i r]) ++ [EvSleep delay]))
                  Hs' ltac:(cbn [List.length] in *; lia)) as [h' Hrun].
      rewrite Hrun. exists h'. cbn [st_trace].
      change (paced delay i (r :: r' :: rest'))
        with (EvAnalyze i r :: EvSleep delay :: paced delay (S i) (r' :: rest')).
      rewrite <- !app_assoc. reflexivity.
Qed.

End Loop.

(** ** The ranking pipeline: what the records hold afterwards *)

Section LoopResults.

Variables (svc : service) (resume : string) (delay : seconds).

(** A property of the pairs the analysis returns. *)
Variable P : pyval -> pyval -> Prop.
Hypothesis analysis_has_P :
  forall (i : nat) (job : JobListing) (s a : pyval),
    analyze_job_listing svc resume i job = Ok (s, a) -> P s a.

(** When the loop runs to its end, every record it went through holds a
    pair the analysis returned; a record it did not touch keeps what it
    held. *)
Lemma rank_loop_results (total : nat) (jobs : list ref) :
  forall (i : nat) (st st' : run_state),
    rank_loop svc resume delay total i jobs st = (Ok tt, st') ->
    forall r, In r jobs \/ holds_at P (st_store st) r ->
              holds_at P (st_store st') r.
Proof.
  induction jobs as [| r0 rest IH]; intros i st st' Hrun r Hr.
  - simpl in Hrun. injection Hrun as <-. destruct Hr as [[] | H]. exact H.
  - cbn [rank_loop] in Hrun.
    destruct (analyze_job_listing svc resume i (st_store st r0))
      as [[s a] | e] eqn:Ha; [|discriminate].
    assert (Hnext : In r rest
                    \/ holds_at P (store_set (st_store st) r0
                                   (set_result (st_store st r0) s a)) r).
    { destruct (Nat.eq_dec r r0) as [-> | Hne].
      - right. unfold holds_at, store_set. rewrite Nat.eqb_refl. simpl.
        exact (analysis_has_P _ _ _ _ Ha).
      - destruct Hr as [[Heq | Hin] | H].
        + now elim Hne.
        + now left.
        + right. unfold holds_at, store_set.
          apply Nat.eqb_neq in Hne. rewrite Hne. exact H. }
    destruct (i <? total)%nat.
    + destruct (sleep delay); [|discriminate].
      exact (IH _ _ _ Hrun r Hnext).
    + exact (IH _ _ _ Hrun r Hnext).
Qed.

End LoopResults.

Section RankingFacts.

Variables (svc : service) (resume : string) (delay : seconds).

Lemma same_identity_refl (j : JobListing) : same_identity j j.
Proof. repeat split. Qed.

Lemma same_identity_trans (a b c : JobListing) :
  same_identity a b -> same_identity b c -> same_identity a c.
Proof.
  intros [H1 [H2 [H3 H4]]] [K1 [K2 [K3 K4]]].
  repeat split; congruence.
Qed.

Lemma same_identity_set_result (j : JobListing) (s a : pyval) :
  same_identity (set_result j s a) j.
Proof. repeat split. Qed.

Lemma build_prompt_same_identity (a b : JobListing) :
  same_identity a b -> build_prompt resume a = build_prompt resume b.
Proof.
  intros [H1 [H2 [H3 H4]]]. unfold build_prompt.
  now rewrite H1, H2, H3, H4.
Qed.

Lemma analyze_same_identity (n : nat) (a b : JobListing) :
  same_identity a b ->
  analyze_job_listing svc resume n a = analyze_job_listing svc resume n b.
Proof.
  intros H. unfold analyze_job_listing.
  now rewrite (build_prompt_same_identity a b H).
Qed.

Lemma store_set_same (h : store) (r : ref) (j : JobListing) :
  store_set h r j r = j.
Proof. unfold store_set. now rewrite Nat.eqb_refl. Qed.

Lemma store_set_other (h : store) (r x : ref) (j : JobListing) :
  x <> r -> store_set h r j x = h x.
Proof. intros H. unfold store_set. apply Nat.eqb_neq in H. now rewrite H. Qed.

(** Whatever the run, the loop writes nothing but the two result fields,
    and only in the records of its list. *)
Lemma rank_loop_frame (total : nat) (jobs : list ref) :
  forall (i : nat) (st : run_state) (r : ref),
    let st' := snd (rank_loop svc resume delay total i jobs st) in
    same_identity (st_store st' r) (st_store st r)
    /\ (~ In r jobs -> st_store st' r = st_store st r).
Proof.
  induction jobs as [| r0 rest IH]; intros i st r.
  - simpl. split; [apply same_identity_refl | reflexivity].
  - cbn [rank_loop].
    destruct (analyze_job_listing svc resume i (st_store st r0)) as [[s a] | e].
    2:{ cbn [snd st_store]. split; [apply same_identity_refl | reflexivity]. }
    set (h1 := store_set (st_store st) r0 (set_result (st_store st r0) s a)).
    assert (Hstep : same_identity (h1 r) (st_store st r)
                    /\ (r <> r0 -> h1 r = st_store st r)).
    { unfold h1. destruct (Nat.eq_dec r r0) as [-> | Hne].
      - rewrite store_set_same. split; [apply same_identity_set_result|].
        intros H. now elim H.
      - rewrite (store_set_other _ _ _ _ Hne).
        split; [apply same_identity_refl | reflexivity]. }
    destruct Hstep as [Hid Hother].
    assert (Hrest : forall tr,
              let st' := snd (rank_loop svc resume delay total (S i) rest
                                (mkState h1 tr)) in
              same_identity (st_store st' r) (st_store st r)
              /\ (~ In r (r0 :: rest) -> st_store st' r = st_store st r)).
    { intros tr. destruct (IH (S i) (mkState h1 tr) r) as [Hid' Hother'].
      cbn [st_store] in *. split.
      - exact (same_identity_trans _ _ _ Hid' Hid).
      - intros Hnot. rewrite Hother' by (intros Hin; apply Hnot; now right).
        apply Hother. intros ->. apply Hnot. now left. }
    destruct (i <? total)%nat; [|apply Hrest].
    destruct (sleep delay); [apply Hrest|].
    cbn [snd st_store]. split; [exact Hid|].
    intros Hnot. apply Hother. intros ->. apply Hnot. now left.
Qed.

(** In a loop that runs to its end, a record holds the result of the
    analysis made at its last position in the list. *)
Lemma rank_loop_last_write (total : nat) (pre : list ref) :
  forall (post : list ref) (r : ref) (i : nat) (st st' : run_state),
    rank_loop svc resume delay total i (pre ++ r :: post) st = (Ok tt, st') ->
    ~ In r post ->
    analyze_job_listing svc resume (i + List.length pre) (st_store st r)
    = Ok (match_score (st_store st' r), analysis (st_store st' r)).
Proof.
  induction pre as [| x pre IH]; intros post r i st st' Hrun Hnot.
  - cbn [app rank_loop] in Hrun. cbn [List.length]. rewrite Nat.add_0_r.
    destruct (analyze_job_listing svc resume i (st_store st r)) as [[s a] | e];
      [|discriminate].
    assert (Hrest : forall tr,
              rank_loop svc resume delay total (S i) post
                (mkState (store_set (st_store st) r
                            (set_result (st_store st r) s a)) tr)
              = (Ok tt, st') ->
              Ok (s, a) = Ok (match_score (st_store st' r), analysis (st_store st' r))).
    { intros tr Hloop.
      pose proof (rank_loop_frame total post (S i)
                    (mkState (store_set (st_store st) r
                                (set_result (st_store st r) s a)) tr) r)
        as [_ Hsame].
      rewrite Hloop in Hsame. cbn [snd st_store] in Hsame.
      rewrite (Hsame Hnot), store_set_same. reflexivity. }
    destruct (i <? total)%nat; [|exact (Hrest _ Hrun)].
    destruct (sleep delay); [exact (Hrest _ Hrun) | discriminate].
  - cbn [app rank_loop] in Hrun.
    destruct (analyze_job_listing svc resume i (st_store st x)) as [[s a] | e];
      [|discriminate].
    set (h1 := store_set (st_store st) x (set_result (st_store st x) s a)) in *.
    assert (Hid : same_identity (h1 r) (st_store st r)).
    { unfold h1. destruct (Nat.eq_dec r x) as [-> | Hne].
      - rewrite store_set_same. apply same_identity_set_result.
      - rewrite (store_set_other _ _ _ _ Hne). apply same_identity_refl. }
    assert (Hrest : forall tr,
              rank_loop svc resume delay total (S i) (pre ++ r :: post)
                (mkState h1 tr) = (Ok tt, st') ->
              analyze_job_listing svc resume (i + List.length (x :: pre))
                (st_store st r)
              = Ok (match_score (st_store st' r), analysis (st_store st' r))).
    { intros tr Hloop.
      pose proof (IH post r (S i) (mkState h1 tr) st' Hloop Hnot) as H.
      cbn [st_store] in H. rewrite (analyze_same_identity _ _ _ Hid) in H.
      cbn [List.length]. replace (i + S (List.length pre))%nat
        with (S i + List.length pre)%nat by lia.
      exact H. }
    destruct (i <? total)%nat; [|exact (Hrest _ Hrun)].
    destruct (sleep delay); [exact (Hrest _ Hrun) | discriminate].
Qed.

End RankingFacts.

Lemma last_occurrence (r : ref) (l : list ref) :
  In r l -> exists pre post, l = pre ++ r :: post /\ ~ In r post.
Proof.
  induction l as [| x l IH]; [intros []|]. intros Hin.
  destruct (in_dec Nat.eq_dec r l) as [Hl | Hl].
  - destruct (IH Hl) as [pre [post [-> Hpost]]].
    exists (x :: pre), post. split; [reflexivity | exact Hpost].
  - destruct Hin as [-> | Hin]; [|now elim Hl].
    exists [], l. split; [reflexivity | exact Hl].
Qed.

Lemma conforming_result (o : api_outcome) (s a : pyval) :
  conforming o = true ->
  analyze_outcome o = Ok (s, a) ->
  score_in_range s = true /\ nonempty_text a = true.
Proof.
  intros Hc Ha. destruct o as [e | text [v |]].
  - unfold analyze_outcome in Ha. simpl in Ha.
    destruct (is_json_decode_error e); [discriminate|].
    injection Ha as <- <-. split; reflexivity.
  - unfold analyze_outcome in Ha. simpl in Ha, Hc.
    destruct (subscript_str v "match_score") as [s0 | e0] eqn:Hs; simpl in Ha.
    + destruct (subscript_str v "analysis") as [a0 | e1] eqn:Han; simpl in Ha.
      * injection Ha as <- <-. now apply andb_prop in Hc.
      * rewrite (subscript_str_raise_class _ _ _ Han) in Ha.
        injection Ha as <- <-. split; reflexivity.
    + rewrite (subscript_str_raise_class _ _ _ Hs) in Ha.
      injection Ha as <- <-. split; reflexivity.
  - rewrite analyze_outcome_not_json in Ha. injection Ha as <- <-.
    simpl in Hc. apply andb_prop in Hc. destruct Hc as [H1 H2].
    split; assumption.
Qed.

Lemma rank_jobs_completes_loop (svc : service) (resume : string) (h : store)
    (jobs : list ref) (d : seconds) (out : list ref) (st : run_state) :
  rank_jobs svc resume h jobs d = (Ok out, st) ->
  rank_loop svc resume d (List.length jobs) 1 jobs (mkState h []) = (Ok tt, st)
  /\ sorted_desc (fun r => match_score (st_store st r)) jobs = Ok out.
Proof.
  unfold rank_jobs.
  destruct (rank_loop svc resume d (List.length jobs) 1 jobs (mkState h []))
    as [[[] | e] st0]; intros H; [|discriminate].
  injection H as H1 H2. subst st0. split; [reflexivity | exact H1].
Qed.

(** C1, as stated, fails: the values of a decoded reply are written to the
    record as they come; a reply with match_score 42 and an empty analysis
    leaves the record with the score 42 and the empty text.  An empty
    reply, which does not decode, leaves the empty text as well. *)
Lemma rank_jobs_score_out_of_range :
  (exists (out : list ref) (st : run_state),
     rank_jobs out_of_range
       "resume" fresh_store [0%nat] (Finite 1)
     = (Ok out, st)
     /\ match_score (st_store st 0%nat) = PInt 42
     /\ analysis (st_store st 0%nat) = PStr EmptyString
     /\ score_in_range (match_score (st_store st 0%nat)) = false
     /\ nonempty_text (analysis (st_store st 0%nat)) = false)
  /\ (exists (out : list ref) (st : run_state),
        rank_jobs (fun _ _ => Reply EmptyString None)
          "resume" fresh_store [0%nat] (Finite 1)
        = (Ok out, st)
        /\ match_score (st_store st 0%nat) = PInt 5
        /\ nonempty_text (analysis (st_store st 0%nat)) = false).
Proof.
  split.
  - eexists. eexists. split; [reflexivity|]. repeat split; reflexivity.
  - eexists. eexists. split; [reflexivity|]. split; reflexivity.
Qed.

(** C1, amended: after ranking completes, every record of the list holds
    the score and the analysis that [analyze_job_listing] returned for it,
    unvalidated: the pair returned by the call made for the record at its
    position in the list, the last one if it is listed more than once.
    The score is an integer in [0,10] and the analysis a non-empty text
    provided every reply of the service conforms: a reply that decodes to
    an object with both keys carries an integer from 0 to 10 and a
    non-empty string, and a reply that does not decode is not empty and
    scrapes to a score from 0 to 10. *)
Theorem rank_jobs_scores_in_range
    (svc : service) (resume : string) (h : store) (jobs : list ref) (d : seconds)
    (out : list ref) (st : run_state) :
  rank_jobs svc resume h jobs d = (Ok out, st) ->
  (forall r, In r jobs ->
     exists pre post,
       jobs = pre ++ r :: post /\ ~ In r post
       /\ analyze_job_listing svc resume (S (List.length pre)) (h r)
          = Ok (match_score (st_store st r), analysis (st_store st r)))
  /\ ((forall i p, conforming (svc i p) = true) ->
      forall r, In r jobs ->
        score_in_range (match_score (st_store st r)) = true
        /\ nonempty_text (analysis (st_store st r)) = true).
Proof.
  intros Hrun.
  destruct (rank_jobs_completes_loop _ _ _ _ _ _ _ Hrun) as [Hloop _].
  split.
  - intros r Hr. destruct (last_occurrence r jobs Hr) as [pre [post [E Hpost]]].
    exists pre, post. split; [exact E|]. split; [exact Hpost|].
    rewrite E in Hloop.
    exact (rank_loop_last_write svc resume d _ pre post r 1 (mkState h []) st
             Hloop Hpost).
  - intros Hconf r Hr.
    apply (rank_loop_results svc resume d
             (fun s a => score_in_range s = true /\ nonempty_text a = true)
             ltac:(intros i job s a Ha; unfold analyze_job_listing in Ha;
                   destruct (build_prompt resume job) as [p |]; [|discriminate];
                   exact (conforming_result _ s a (Hconf i p) Ha))
             _ _ _ _ _ Hloop r).
    now left.
Qed.

Lemma rank_jobs_scores_in_range_witness :
  analyze_job_listing example_scores "resume" 2 (fresh_store 1%nat)
  = Ok (PInt 9, PStr "ok")
  /\ match_score
       (st_store
          (snd (rank_jobs example_scores "resume" fresh_store [0; 1]%nat
                  (Finite 1))) 1%nat)
     = PInt 9
  /\ score_in_range
       (match_score
          (st_store
             (snd (rank_jobs example_scores "resume" fresh_store [0; 1]%nat
                     (Finite 1))) 1%nat))
     = true
  /\ nonempty_text
       (analysis
          (st_store
             (snd (rank_jobs example_scores "resume" fresh_store [0; 1]%nat
                     (Finite 1))) 1%nat))
     = true.
Proof.
  set (run := rank_jobs example_scores "resume" fresh_store [0; 1]%nat (Finite 1)).
  assert (Hrun : run = (Ok [1; 0]%nat, snd run)) by reflexivity.
  destruct (rank_jobs_scores_in_range example_scores "resume" fresh_store
              [0; 1]%nat (Finite 1) _ _ Hrun) as [Hpair Hrange].
  split; [reflexivity|].
  split.
  - destruct (Hpair 1%nat) as [pre [post [E [Hpost Ha]]]];
      [simpl; right; left; reflexivity|].
    assert (Hpre : List.length pre = 1%nat).
    { destruct pre as [| x pre]; [injection E as E _; discriminate E|].
      apply (f_equal (@List.length ref)) in E. simpl in E.
      rewrite length_app in E. simpl in E.
      destruct pre; [reflexivity | simpl in E; lia]. }
    rewrite Hpre in Ha.
    change (analyze_job_listing example_scores "resume" 2 (fresh_store 1%nat))
      with (@Ok (pyval * pyval) (PInt 9, PStr "ok")) in Ha.
    congruence.
  - apply Hrange.
    + intros i p. unfold example_scores.
      destruct (i - 1)%nat as [| [| [| [| [| [| m]]]]]]; reflexivity.
    + simpl. right. left. reflexivity.
Defined.

(** ** The ranking pipeline: pacing *)

(** C8, as stated, fails: the loop does not always reach the last record.
    With a delay that [time.sleep] refuses it raises after the first
    analysis: for two records no delay is taken, the second record is not
    analysed, and [rank_jobs] raises [ValueError] for a negative delay or
    one that is no number, [OverflowError] for a delay of ten thousand
    million seconds or an infinite one.  The loop also stops at the first
    analysis that raises, be it for a description that cannot be sliced or
    for a decode error raised by the call. *)
Lemma rank_jobs_negative_delay :
  (fst (rank_jobs strong_fit
          "resume" fresh_store [0; 1]%nat (Finite (-1 # 1)))
   = Raise (Exn ValueError "sleep length must be non-negative")
   /\ st_trace (snd (rank_jobs strong_fit
                       "resume" fresh_store [0; 1]%nat (Finite (-1 # 1))))
      = [EvAnalyze 1 0%nat]
   /\ count_sleeps
        (st_trace (snd (rank_jobs strong_fit
                          "resume" fresh_store [0; 1]%nat (Finite (-1 # 1)))))
      <> (List.length [0; 1]%nat - 1)%nat)
  /\ count_sleeps
       (st_trace (snd (rank_jobs strong_fit
                         "resume" undescribed_store [0; 1]%nat (Finite 1))))
     <> (List.length [0; 1]%nat - 1)%nat
  /\ count_sleeps
       (st_trace (snd (rank_jobs undecodable_service
                         "resume" fresh_store [0; 1]%nat (Finite 1))))
     <> (List.length [0; 1]%nat - 1)%nat
  /\ rank_jobs strong_fit "resume" fresh_store [0; 1]%nat
       (Finite (10000000000 # 1))
     = (Raise (Exn OverflowError "timestamp too large to convert to C _PyTime_t"),
        mkState (store_set fresh_store 0%nat
                   (set_result sample_job (PInt 8) (PStr "Strong fit")))
          [EvAnalyze 1 0%nat])
  /\ fst (rank_jobs strong_fit "resume" fresh_store [0; 1]%nat (Infinity false))
     = Raise (Exn OverflowError "timestamp too large to convert to C _PyTime_t")
  /\ fst (rank_jobs strong_fit "resume" fresh_store [0; 1]%nat NotANumber)
     = Raise (Exn ValueError "Invalid value NaN (not a number)").
Proof.
  split.
  { split; [reflexivity|]. split; [reflexivity|]. vm_compute. discriminate. }
  split; [vm_compute; discriminate|].
  split; [vm_compute; discriminate|].
  split; [reflexivity|]. split; reflexivity.
Qed.

(** C8, amended: with a delay that [time.sleep] takes (a number that is
    not negative and not beyond [long_wait]) and analyses that all return
    (sliceable descriptions, no decode error raised by the call itself),
    [rank_jobs] goes through the records in order and sleeps for the
    configured delay after each analysis but the last: its trace is
    analysis 1, sleep, analysis 2, sleep, ..., analysis n; the delay is
    taken exactly n-1 times, and the last event is the analysis of the
    last record. *)
Theorem rank_jobs_pacing
    (svc : service) (resume : string) (h : store) (jobs : list ref) (d : seconds) :
  plain_delay d = true ->
  no_decode_error_from_call svc ->
  sliceable h jobs ->
  st_trace (snd (rank_jobs svc resume h jobs d)) = paced d 1 jobs
  /\ count_sleeps (st_trace (snd (rank_jobs svc resume h jobs d)))
     = (List.length jobs - 1)%nat
  /\ (forall r0 rest, jobs = r0 :: rest ->
        last (st_trace (snd (rank_jobs svc resume h jobs d))) (EvSleep d)
        = EvAnalyze (List.length jobs) (last jobs r0)).
Proof.
  intros Hd Hsvc Hs.
  destruct (rank_loop_trace svc resume d (List.length jobs) jobs
              (plain_delay_sleeps d Hd) Hsvc
              1%nat (mkState h []) Hs eq_refl) as [h' Hrun].
  assert (Htr : st_trace (snd (rank_jobs svc resume h jobs d)) = paced d 1 jobs).
  { unfold rank_jobs. rewrite Hrun. reflexivity. }
  rewrite Htr. split; [reflexivity|]. split.
  - apply count_sleeps_paced.
  - intros r0 rest ->. rewrite paced_last_is_analysis. reflexivity.
Qed.

Lemma rank_jobs_pacing_witness :
  st_trace (snd (rank_jobs strong_fit
                   "resume" fresh_store [4; 7; 9]%nat (Finite (2 # 1))))
  = [EvAnalyze 1 4%nat; EvSleep (Finite (2 # 1)); EvAnalyze 2 7%nat;
     EvSleep (Finite (2 # 1)); EvAnalyze 3 9%nat]
  /\ count_sleeps
       (st_trace (snd (rank_jobs strong_fit
                         "resume" fresh_store [4; 7; 9]%nat (Finite (2 # 1)))))
     = 2%nat.
Proof.
  destruct (rank_jobs_pacing strong_fit
              "resume" fresh_store [4; 7; 9]%nat (Finite (2 # 1))) as [Htr [Hn _]].
  - reflexivity.
  - intros i p e He. discriminate He.
  - intros r _. eexists. reflexivity.
  - split; [exact Htr | exact Hn].
Defined.

(** ** The ranking pipeline: the sort *)

Section StableSort.

(** The integer key of each record. *)
Variable k : ref -> Z.

Lemma insert_z_perm (x : ref) (l : list ref) :
  Permutation (x :: l) (insert_z k x l).
Proof.
  induction l as [| y l IH]; simpl; [apply Permutation_refl|].
  destruct (k x <? k y)%Z; [|apply Permutation_refl].
  eapply Permutation_trans; [apply perm_swap|].
  apply perm_skip, IH.
Qed.

Lemma sort_z_perm (l : list ref) : Permutation l (sort_z k l).
Proof.
  induction l as [| x l IH]; simpl; [apply perm_nil|].
  eapply Permutation_trans; [apply perm_skip, IH | apply insert_z_perm].
Qed.

Lemma insert_z_sorted (x : ref) (l : list ref) :
  StronglySorted (desc k) l -> StronglySorted (desc k) (insert_z k x l).
Proof.
  induction l as [| y l IH]; intros Hs; simpl.
  - constructor; [constructor | constructor].
  - inversion Hs as [| y' l' Hl Hy]; subst.
    destruct (k x <? k y)%Z eqn:E.
    + apply Z.ltb_lt in E. constructor; [apply IH, Hl|].
      apply (Permutation_Forall (insert_z_perm x l)).
      constructor; [unfold desc; lia | exact Hy].
    + apply Z.ltb_ge in E. constructor; [exact Hs|].
      constructor; [exact E|].
      eapply Forall_impl; [|exact Hy].
      intros a Ha. unfold desc in *. lia.
Qed.

Lemma sort_z_sorted (l : list ref) : StronglySorted (desc k) (sort_z k l).
Proof.
  induction l as [| x l IH]; simpl; [constructor | apply insert_z_sorted, IH].
Qed.

(** Stability: among the records of one key, the insertion puts the new
    record first. *)
Lemma insert_z_filter (z : Z) (x : ref) (l : list ref) :
  filter (fun r => Z.eqb (k r) z) (insert_z k x l)
  = filter (fun r => Z.eqb (k r) z) (x :: l).
Proof.
  induction l as [| y l IH]; [reflexivity|].
  cbn [insert_z]. destruct (k x <? k y)%Z eqn:E; [|reflexivity].
  apply Z.ltb_lt in E. cbn [filter] in *. rewrite IH.
  destruct (Z.eqb (k x) z) eqn:Ex; destruct (Z.eqb (k y) z) eqn:Ey;
    try reflexivity.
  apply Z.eqb_eq in Ex, Ey. lia.
Qed.

Lemma sort_z_stable (z : Z) (l : list ref) :
  filter (fun r => Z.eqb (k r) z) (sort_z k l)
  = filter (fun r => Z.eqb (k r) z) l.
Proof.
  induction l as [| x l IH]; [reflexivity|].
  cbn [sort_z]. rewrite insert_z_filter. cbn [filter]. now rewrite IH.
Qed.

(** On integer keys the sort of the program is this insertion sort. *)
Variable key : ref -> pyval.

Lemma insert_desc_int (x : ref) (l : list ref) :
  (forall r, In r (x :: l) -> key r = PInt (k r)) ->
  insert_desc key x l = Ok (insert_z k x l).
Proof.
  induction l as [| y l IH]; intros Hk; [reflexivity|].
  cbn [insert_desc insert_z].
  rewrite (Hk x (or_introl eq_refl)), (Hk y (or_intror (or_introl eq_refl))).
  cbn [py_lt num_of bind].
  destruct (k x <? k y)%Z; [|reflexivity].
  rewrite IH; [reflexivity|].
  intros r [<- | Hr]; apply Hk; [now left | now right; right].
Qed.

Lemma sorted_desc_int (l : list ref) :
  (forall r, In r l -> key r = PInt (k r)) ->
  sorted_desc key l = Ok (sort_z k l).
Proof.
  induction l as [| x l IH]; intros Hk; [reflexivity|].
  cbn [sorted_desc sort_z]. rewrite IH by (intros r Hr; apply Hk; now right).
  cbn [bind]. apply insert_desc_int.
  intros r [<- | Hr]; apply Hk; [now left | right].
  exact (Permutation_in r (Permutation_sym (sort_z_perm l)) Hr).
Qed.

End StableSort.

Lemma integer_scores_no_decode_error (svc : service) :
  integer_scores svc -> no_decode_error_from_call svc.
Proof.
  intros H i p e He. destruct (H i p) as [z [a Ha]].
  rewrite He in Ha. unfold analyze_outcome in Ha. simpl in Ha.
  destruct (is_json_decode_error e); [discriminate | reflexivity].
Qed.

(** C4, as stated, fails: the scores are sorted as they were decoded.  When
    one reply carries its score as a string and another as an integer, the
    comparison of the two keys raises [TypeError] and [rank_jobs] returns
    no list.  Nor does it return one when the loop before the sort is cut
    short, by a delay that [time.sleep] refuses (a negative one, or one of
    ten thousand million seconds) or by an analysis that raises. *)
Lemma rank_jobs_mixed_scores_raise :
  (exists e,
     fst (rank_jobs string_then_integer "resume" fresh_store [0; 1]%nat (Finite 0))
     = Raise e /\ exn_cls e = TypeError)
  /\ ~ (exists out,
          fst (rank_jobs string_then_integer "resume" fresh_store [0; 1]%nat (Finite 0))
          = Ok out)
  /\ ~ (exists out,
          fst (rank_jobs example_scores "resume" fresh_store [0; 1]%nat (Finite (-1 # 1)))
          = Ok out)
  /\ ~ (exists out,
          fst (rank_jobs example_scores "resume" undescribed_store [0; 1]%nat (Finite 1))
          = Ok out)
  /\ ~ (exists out,
          fst (rank_jobs example_scores "resume" fresh_store [0; 1]%nat
                 (Finite (10000000000 # 1)))
          = Ok out).
Proof.
  split; [eexists; split; reflexivity|].
  repeat split; intros [out H]; vm_compute in H; discriminate H.
Qed.

(** C4, amended: for every input sequence of job records whose analyses
    all return with an integer score (sliceable descriptions, a service
    whose analyses give integers) and a delay that [time.sleep] takes (a
    number that is not negative and not beyond [long_wait]),
    [rank_jobs] returns the same records, sorted by match_score in
    non-increasing order, records of equal score keeping their relative
    input order. *)
Theorem rank_jobs_sorted_stable
    (svc : service) (resume : string) (h : store) (jobs : list ref) (d : seconds) :
  plain_delay d = true ->
  sliceable h jobs ->
  integer_scores svc ->
  exists (out : list ref) (st : run_state),
    rank_jobs svc resume h jobs d = (Ok out, st)
    /\ Permutation jobs out
    /\ (forall r, In r jobs -> match_score (st_store st r) = PInt (score_of st r))
    /\ StronglySorted (fun a b => (score_of st b <= score_of st a)%Z) out
    /\ (forall z : Z,
          filter (fun r => Z.eqb (score_of st r) z) out
          = filter (fun r => Z.eqb (score_of st r) z) jobs).
Proof.
  intros Hd Hs Hint.
  destruct (rank_loop_trace svc resume d (List.length jobs) jobs
              (plain_delay_sleeps d Hd)
              (integer_scores_no_decode_error svc Hint)
              1%nat (mkState h []) Hs eq_refl) as [h' Hrun].
  cbn [st_trace] in Hrun.
  set (st := mkState h' ([] ++ paced d 1 jobs)) in *.
  assert (Hkeys : forall r, In r jobs ->
                    match_score (st_store st r) = PInt (score_of st r)).
  { intros r Hr.
    assert (Hex : exists z, match_score (st_store st r) = PInt z).
    { apply (rank_loop_results svc resume d
               (fun s _ => exists z, s = PInt z)
               ltac:(intros i job s a Ha; unfold analyze_job_listing in Ha;
                     destruct (build_prompt resume job) as [p |]; [|discriminate];
                     cbn [bind] in Ha;
                     destruct (Hint i p) as [z [a' Hz]];
                     rewrite Hz in Ha; injection Ha as <- _; eauto)
               _ _ _ _ _ Hrun r).
      now left. }
    destruct Hex as [z Hz]. unfold score_of. rewrite Hz. reflexivity. }
  exists (sort_z (score_of st) jobs), st.
  split.
  - unfold rank_jobs. rewrite Hrun. cbv beta iota.
    rewrite (sorted_desc_int (score_of st)
               (fun r => match_score (st_store st r)) jobs Hkeys).
    reflexivity.
  - split; [apply sort_z_perm|]. split; [exact Hkeys|].
    split; [apply sort_z_sorted|].
    intros z. apply sort_z_stable.
Qed.

Lemma rank_jobs_example :
  fst (rank_jobs example_scores "resume" fresh_store [10; 11; 12; 13; 14]%nat (Finite 1))
  = Ok [11; 13; 14; 10; 12]%nat.
Proof. reflexivity. Qed.

Lemma rank_jobs_sorted_stable_witness :
  exists (out : list ref) (st : run_state),
    rank_jobs example_scores "resume" fresh_store [10; 11; 12; 13; 14]%nat (Finite 1)
    = (Ok out, st)
    /\ Permutation [10; 11; 12; 13; 14]%nat out
    /\ StronglySorted (fun a b => (score_of st b <= score_of st a)%Z) out
    /\ filter (fun r => Z.eqb (score_of st r) 9) out
       = filter (fun r => Z.eqb (score_of st r) 9) [10; 11; 12; 13; 14]%nat.
Proof.
  destruct (rank_jobs_sorted_stable example_scores "resume" fresh_store
              [10; 11; 12; 13; 14]%nat (Finite 1))
    as [out [st [Hrun [Hperm [_ [Hsorted Hstable]]]]]].
  - reflexivity.
  - intros r _. eexists. reflexivity.
  - intros i p. unfold example_scores.
    destruct (i - 1)%nat as [| [| [| [| [| [| m]]]]]]; eexists; eexists; reflexivity.
  - exists out, st. repeat split; [exact Hrun | exact Hperm | exact Hsorted |].
    apply Hstable.
Defined.

(** * Further properties *)

(** ** Records from a list of urls *)

Section UrlLoader.
Import PyStrFacts.

Lemma url_company_label (host : string) :
  url_company host = Ok (company_label host).
Proof.
  unfold url_company, company_label.
  rewrite contains_find.
  pose proof (split_second "."%char EmptyString host) as Hsnd.
  pose proof (split_find "."%char EmptyString host) as Hsplit.
  destruct (PyStr.find "." host) as [n |].
  - rewrite Hsnd. rewrite Hsplit.
    destruct (PyStr.split "." (PyStr.drop (n + String.length ".") host))
      as [| label rest] eqn:Hrest.
    + rewrite (split_find "."%char EmptyString) in Hrest.
      destruct (PyStr.find "." _); discriminate.
    + pose proof (split_hd "."%char EmptyString
                    (PyStr.drop (n + String.length ".") host)) as Hhd.
      rewrite Hrest in Hhd. simpl in Hhd. rewrite Hhd. reflexivity.
  - rewrite Hsplit. reflexivity.
Qed.

Lemma url_record_of_netloc (u : pyval) (host : string) :
  url_netloc u = Ok host ->
  url_record_try u
  = Ok (new_job (PStr "Position from URL") (PStr (PyStr.str_title (company_label host)))
          u (PStr "[Job description will be fetched via Claude API]")).
Proof.
  intros H. unfold url_record_try. rewrite H. cbn [bind].
  rewrite url_company_label. reflexivity.
Qed.

Lemma url_parses_netloc (u : pyval) :
  url_parses u = true <->
  exists s host, u = PStr s /\ UrlParse.netloc s = Ok host.
Proof.
  unfold url_parses. split.
  - destruct (url_record_try u) as [job | e] eqn:Hrec; [intros _ | discriminate].
    unfold url_record_try in Hrec.
    destruct (url_netloc u) as [host | e] eqn:Hloc; [|discriminate].
    destruct u as [| b | z | s | l | d]; simpl in Hloc;
      try discriminate;
      try (match type of Hloc with
           | (if ?c then _ else _) = _ => destruct c; discriminate
           end).
    exists s, host. split; [reflexivity | exact Hloc].
  - intros [s [host [-> Hloc]]].
    rewrite (url_record_of_netloc (PStr s) host Hloc). reflexivity.
Qed.

Lemma load_urls_loop_spec (urls : list pyval) :
  forall jobs warned,
    load_urls_loop urls (jobs, warned)
    = (jobs ++ flat_map url_records urls,
       warned ++ filter (fun u => negb (url_parses u)) urls).
Proof.
  induction urls as [| u urls IH]; intros jobs warned.
  - simpl. now rewrite !app_nil_r.
  - cbn [load_urls_loop flat_map filter]. unfold url_records at 1, url_parses at 1.
    destruct (url_record_try u) as [job | e]; rewrite IH; cbn [negb app].
    + rewrite <- app_assoc. reflexivity.
    + rewrite <- app_assoc. reflexivity.
Qed.

Lemma url_records_map_url (urls : list pyval) :
  map url (flat_map url_records urls) = filter url_parses urls.
Proof.
  induction urls as [| u urls IH]; [reflexivity|].
  cbn [flat_map filter]. rewrite map_app, IH.
  unfold url_records, url_parses.
  destruct (url_record_try u) as [job | e] eqn:Hrec; [|reflexivity].
  unfold url_record_try in Hrec.
  destruct (url_netloc u) as [host |]; [|discriminate].
  cbn [bind] in Hrec. rewrite url_company_label in Hrec.
  injection Hrec as <-. reflexivity.
Qed.

Lemma url_records_shape (urls : list pyval) :
  Forall (fun j => title j = PStr "Position from URL"
                   /\ description j
                      = PStr "[Job description will be fetched via Claude API]"
                   /\ unscored j
                   /\ exists c, company j = PStr c)
    (flat_map url_records urls).
Proof.
  induction urls as [| u urls IH]; [constructor|].
  cbn [flat_map]. apply Forall_app. split; [|exact IH].
  unfold url_records.
  destruct (url_record_try u) as [job | e] eqn:Hrec; [|constructor].
  unfold url_record_try in Hrec.
  destruct (url_netloc u) as [host |]; [|discriminate].
  cbn [bind] in Hrec. rewrite url_company_label in Hrec.
  injection Hrec as <-. constructor; [|constructor].
  repeat split. eexists. reflexivity.
Qed.

End UrlLoader.

(** X1: [load_jobs_from_urls] never fails and sorts the urls in two: it
    returns one record per url that is a string whose network location
    [urlparse] can split off, in input order, and it warns about the
    others, in input order.  Every record carries the url it was built
    from, the fixed title and the placeholder description, a company that
    is a string, and is not scored. *)
Theorem load_jobs_from_urls_records (urls : list pyval) :
  let jobs := fst (load_jobs_from_urls urls) in
  let warned := snd (load_jobs_from_urls urls) in
  map url jobs = filter url_parses urls
  /\ warned = filter (fun u => negb (url_parses u)) urls
  /\ (List.length jobs + List.length warned = List.length urls)%nat
  /\ Forall (fun j => title j = PStr "Position from URL"
                      /\ description j
                         = PStr "[Job description will be fetched via Claude API]"
                      /\ unscored j
                      /\ exists c, company j = PStr c) jobs
  /\ (forall u, url_parses u = true <->
                exists s host, u = PStr s /\ UrlParse.netloc s = Ok host).
Proof.
  unfold load_jobs_from_urls. rewrite load_urls_loop_spec. cbn [fst snd app].
  split; [apply url_records_map_url|]. split; [reflexivity|].
  split.
  - rewrite <- (length_map url), url_records_map_url.
    induction urls as [| u urls IH]; [reflexivity|].
    cbn [filter List.length]. destruct (url_parses u); cbn [negb List.length]; lia.
  - split; [apply url_records_shape | apply url_parses_netloc].
Qed.

Lemma load_jobs_from_urls_records_witness :
  map url (fst (load_jobs_from_urls sample_urls))
  = [PStr "https://job-boards.greenhouse.io/acme/1"; PStr "widgetco.com/jobs";
     PStr "http://[::1]:8080/jobs"]
  /\ snd (load_jobs_from_urls sample_urls)
     = [PStr "http://[broken]/x"; PNone; PStr "http://[1.2.3.4]/"]
  /\ Forall (fun j => title j = PStr "Position from URL" /\ unscored j)
       (fst (load_jobs_from_urls sample_urls)).
Proof.
  destruct (load_jobs_from_urls_records sample_urls)
    as [Hurls [Hwarned [_ [Hshape _]]]].
  split; [rewrite Hurls; reflexivity|].
  split; [rewrite Hwarned; reflexivity|].
  eapply Forall_impl; [|exact Hshape].
  intros j [Ht [_ [Hu _]]]. split; [exact Ht | exact Hu].
Defined.

(** X2: the company [load_jobs_from_urls] gives a url is the second label
    of its host in title case, whatever the number of labels: for a host
    of two labels it is the last label (widgetco.com gives Com), where
    [_extract_company_name] takes the label before the last one; for a
    host without a dot it is the host itself.  The host is taken as it
    is written, without lower-casing; the label is one whose title case
    stays within the characters of the model. *)
Theorem load_jobs_from_urls_company (s host : string) :
  UrlParse.netloc s = Ok host ->
  title_in_range (company_label host) = true ->
  fst (load_jobs_from_urls [PStr s])
  = [new_job (PStr "Position from URL") (PStr (PyStr.str_title (company_label host)))
       (PStr s) (PStr "[Job description will be fetched via Claude API]")]
  /\ (forall a b, PyStr.split "." host = [a; b] -> company_label host = b)
  /\ (forall a b c rest, PyStr.split "." host = a :: b :: c :: rest ->
        company_label host = b)
  /\ (PyStr.contains "." host = false -> company_label host = host).
Proof.
  intros Hloc _. split.
  - unfold load_jobs_from_urls. cbn [load_urls_loop].
    rewrite (url_record_of_netloc (PStr s) host Hloc). reflexivity.
  - unfold company_label. split; [intros a b ->; reflexivity|].
    split; [intros a b c rest ->; reflexivity|].
    intros Hdot. rewrite PyStrFacts.contains_find in Hdot.
    rewrite (PyStrFacts.split_find "."%char EmptyString host).
    destruct (PyStr.find "." host); [discriminate | reflexivity].
Qed.

Lemma load_jobs_from_urls_company_witness :
  map company (fst (load_jobs_from_urls [PStr "https://widgetco.com/jobs"]))
  = [PStr "Com"]
  /\ _extract_company_name (PStr "https://widgetco.com/jobs") (PStr "Engineer")
     = Ok "Widgetco"
  /\ map company (fst (load_jobs_from_urls [PStr accented_url]))
     = [PStr (String "201"%char "cole-Du-Nord")].
Proof.
  destruct (load_jobs_from_urls_company "https://widgetco.com/jobs" "widgetco.com"
              eq_refl eq_refl) as [Hjobs [Htwo _]].
  destruct (load_jobs_from_urls_company accented_url
              ("jobs." ++ String "233"%char "COLE-du-nord.example.fr:443")%string
              eq_refl eq_refl) as [Hacc [_ [Hmany _]]].
  split; [|split; [reflexivity|]].
  - rewrite Hjobs. cbn [map company new_job].
    rewrite (Htwo "widgetco" "com" eq_refl). reflexivity.
  - rewrite Hacc. cbn [map company new_job].
    rewrite (Hmany "jobs" (String "233"%char "COLE-du-nord") "example"
               ["fr:443"] eq_refl).
    reflexivity.
Defined.

(** ** More on the record parser *)

Section ParserFacts.

Lemma item_records_dict (item : pyval) :
  List.length (item_records item) = if is_dict item then 1%nat else 0%nat.
Proof.
  destruct item as [| b | z | s | l | d]; try reflexivity.
  unfold item_records, is_dict.
  destruct (extract_company_name_returns
              (match dict_lookup "link" d with
               | Some v => v | None => PStr EmptyString end)
              (match dict_lookup "title" d with
               | Some v => v | None => PStr "Unknown Position" end))
    as [c Hc].
  rewrite Hc. reflexivity.
Qed.

Lemma item_records_count (items : list pyval) :
  List.length (flat_map item_records items)
  = List.length (filter is_dict items).
Proof.
  induction items as [| item items IH]; [reflexivity|].
  cbn [flat_map filter]. rewrite length_app, IH, item_records_dict.
  destruct (is_dict item); reflexivity.
Qed.

Lemma item_records_shape (items : list pyval) :
  Forall (fun j => unscored j /\ exists c, company j = PStr c)
    (flat_map item_records items).
Proof.
  induction items as [| item items IH]; [constructor|].
  cbn [flat_map]. apply Forall_app. split; [|exact IH].
  destruct item as [| b | z | s | l | d]; try constructor.
  unfold item_records.
  destruct (_extract_company_name _ _) as [c |]; constructor; [|constructor].
  split; [split; reflexivity | eexists; reflexivity].
Qed.

Lemma parse_item_line (i : nat) (item : pyval)
    (jobs : list JobListing) (log : list parse_log) :
  exists line,
    snd (parse_item i item (jobs, log)) = log ++ [line] /\ log_index line = i.
Proof.
  unfold parse_item.
  destruct (bind (item_get item "title" (PStr "Unknown Position")) _)
    as [job | e].
  - destruct (slice_to 50 (title job)); eexists; split; reflexivity.
  - eexists; split; reflexivity.
Qed.

Lemma parse_items_lines (items : list pyval) :
  forall (i : nat) (jobs : list JobListing) (log : list parse_log),
  exists lines,
    snd (parse_items i items (jobs, log)) = log ++ lines
    /\ map log_index lines = seq i (List.length items).
Proof.
  induction items as [| item items IH]; intros i jobs log.
  - exists []. simpl. now rewrite app_nil_r.
  - cbn [parse_items].
    destruct (parse_item_line i item jobs log) as [line [Hline Hidx]].
    destruct (parse_item i item (jobs, log)) as [jobs' log'].
    cbn [snd] in Hline. subst log'.
    destruct (IH (S i) jobs' (log ++ [line])) as [lines [Hlines Hseq]].
    exists (line :: lines). split.
    + rewrite Hlines, <- app_assoc. reflexivity.
    + cbn [map List.length seq]. now rewrite Hidx, Hseq.
Qed.

(** Every way the parser has to return. *)
Lemma parse_returns_cases (search_results : pyval) (jobs : list JobListing) :
  fst (parse_google_search_json search_results) = Ok jobs ->
  jobs = [] \/ exists items, jobs = flat_map item_records items.
Proof.
  unfold parse_google_search_json.
  destruct (py_in "items" search_results) as [[|] | e]; cbn [fst];
    try discriminate; [|intros [= <-]; now left].
  destruct (subscript_str search_results "items") as [items | e]; cbn [fst];
    [|discriminate].
  destruct (negb (truthy items)); cbn [fst]; [intros [= <-]; now left|].
  destruct (iterate items) as [l | e]; cbn [fst]; [|discriminate].
  pose proof (parse_items_records l 1 [] [LogFound (List.length l)]) as Hrec.
  destruct (parse_items 1 l _) as [jobs' log]. cbn [fst] in *.
  intros [= <-]. right. exists l. exact Hrec.
Qed.

End ParserFacts.

(** X3: whatever the snapshot, the records the parser returns are not
    scored (score 0, empty analysis) and their company is a string. *)
Theorem parse_records_unscored (search_results : pyval) (jobs : list JobListing) :
  fst (parse_google_search_json search_results) = Ok jobs ->
  Forall (fun j => unscored j /\ exists c, company j = PStr c) jobs.
Proof.
  intros H. destruct (parse_returns_cases _ _ H) as [-> | [items ->]].
  - constructor.
  - apply item_records_shape.
Qed.

Lemma parse_records_unscored_witness :
  Forall (fun j => unscored j /\ exists c, company j = PStr c)
    [new_job PNone (PStr "Unknown Company")
       (PStr "https://careers.widgetco.com/job/42") (PStr "Build services.")].
Proof.
  apply (parse_records_unscored null_title_snapshot). reflexivity.
Defined.

(** X4: on a snapshot whose items are a non-empty list the parser does not
    raise; it returns as many records as the list has objects (dicts), so
    never more than the list has items, and it prints, after the line
    that counts the items, one line per item, numbered from 1 in the
    order of the list. *)
Theorem parse_counts_objects (d : list (string * pyval)) (item : pyval)
    (items : list pyval) :
  dict_lookup "items" d = Some (PList (item :: items)) ->
  exists jobs lines,
    parse_google_search_json (PDict d)
    = (Ok jobs, LogFound (List.length (item :: items)) :: lines)
    /\ List.length jobs = List.length (filter is_dict (item :: items))
    /\ (List.length jobs <= List.length (item :: items))%nat
    /\ map log_index lines = seq 1 (List.length (item :: items)).
Proof.
  intros H. unfold parse_google_search_json. simpl py_in. unfold dict_has.
  rewrite H. cbn [subscript_str]. rewrite H. cbn [truthy negb iterate].
  pose proof (parse_items_records (item :: items) 1 []
                [LogFound (List.length (item :: items))]) as Hrec.
  destruct (parse_items_lines (item :: items) 1 []
              [LogFound (List.length (item :: items))]) as [lines [Hlog Hseq]].
  destruct (parse_items 1 (item :: items) _) as [jobs log].
  cbn [fst snd] in Hrec, Hlog. subst jobs log.
  exists (flat_map item_records (item :: items)), lines.
  split; [reflexivity|]. split; [apply item_records_count|].
  split; [|exact Hseq].
  rewrite item_records_count. apply filter_length_le.
Qed.

Lemma parse_counts_objects_witness :
  exists jobs lines,
    parse_google_search_json
      (PDict [("items", PList [PDict []; PInt 3; PDict [("title", PStr "T")]])])
    = (Ok jobs, LogFound 3 :: lines)
    /\ List.length jobs = 2%nat
    /\ map log_index lines = [1; 2; 3]%nat.
Proof.
  destruct (parse_counts_objects
              [("items", PList [PDict []; PInt 3; PDict [("title", PStr "T")]])]
              (PDict []) [PInt 3; PDict [("title", PStr "T")]] eq_refl)
    as [jobs [lines [Hrun [Hlen [_ Hseq]]]]].
  exists jobs, lines. repeat split; assumption.
Defined.

Lemma parse_list_no_items (pages : list pyval) :
  forallb is_dict pages = true ->
  parse_google_search_json (PList pages) = (Ok [], [LogNoResults]).
Proof.
  intros Hdicts. unfold parse_google_search_json. cbn [py_in].
  assert (Hin : existsb (eq_str "items") pages = false).
  { induction pages as [| p pages IH]; [reflexivity|].
    cbn [forallb] in Hdicts. apply andb_prop in Hdicts.
    destruct Hdicts as [Hp Hrest]. cbn [existsb]. rewrite (IH Hrest).
    destruct p; try discriminate Hp. reflexivity. }
  rewrite Hin. reflexivity.
Qed.

(** X5: a snapshot that is a list of objects, and not an object with an
    items key, makes the parser return no record and print that there are
    no results: the test for the key is a membership test on a list, and
    no dict equals the string items. *)
Theorem parse_list_of_objects (pages : list pyval) :
  forallb is_dict pages = true ->
  parse_google_search_json (PList pages) = (Ok [], [LogNoResults]).
Proof. apply parse_list_no_items. Qed.

Lemma parse_list_of_objects_witness :
  parse_google_search_json
    (PList [PDict [("items", PList [PDict [("title", PStr "Engineer")]])]])
  = (Ok [], [LogNoResults]).
Proof. apply parse_list_of_objects. reflexivity. Defined.

(** X6: on a snapshot that is an object the parser raises in one case only:
    when the value under items is a number other than zero or [True],
    which is truthy and has no length. *)
Theorem parse_object_raises_iff (d : list (string * pyval)) :
  (exists e, fst (parse_google_search_json (PDict d)) = Raise e)
  <-> (exists v, dict_lookup "items" d = Some v /\ is_nonzero_number v = true).
Proof.
  unfold parse_google_search_json. cbn [py_in]. unfold dict_has.
  cbn [subscript_str].
  destruct (dict_lookup "items" d) as [v |] eqn:Hv.
  - destruct v as [| b | z | s | l | items]; cbn [truthy negb iterate].
    + split; [intros [e He]; discriminate He | intros [v [[= <-] Hn]]; discriminate Hn].
    + destruct b; cbn [negb fst].
      * split; [intros _; eexists; split; reflexivity | intros _; eexists; reflexivity].
      * split; [intros [e He]; discriminate He | intros [v [[= <-] Hn]]; discriminate Hn].
    + destruct (Z.eqb z 0) eqn:Hz; cbn [negb fst].
      * split; [intros [e He]; discriminate He|].
        intros [v [[= <-] Hn]]. cbn [is_nonzero_number] in Hn.
        rewrite Hz in Hn. discriminate Hn.
      * split; [intros _|intros _; eexists; reflexivity].
        eexists. split; [reflexivity|]. cbn [is_nonzero_number]. now rewrite Hz.
    + destruct (negb (negb (String.eqb s EmptyString))); cbn [fst].
      * split; [intros [e He]; discriminate He | intros [v [[= <-] Hn]]; discriminate Hn].
      * destruct (parse_items 1 (chars_of s) _) as [jobs log]. cbn [fst].
        split; [intros [e He]; discriminate He | intros [v [[= <-] Hn]]; discriminate Hn].
    + destruct l as [| x l]; cbn [negb fst].
      * split; [intros [e He]; discriminate He | intros [v [[= <-] Hn]]; discriminate Hn].
      * destruct (parse_items 1 (x :: l) _) as [jobs log]. cbn [fst].
        split; [intros [e He]; discriminate He | intros [v [[= <-] Hn]]; discriminate Hn].
    + destruct items as [| x items]; cbn [negb fst].
      * split; [intros [e He]; discriminate He | intros [v [[= <-] Hn]]; discriminate Hn].
      * destruct (parse_items 1 _ _) as [jobs log]. cbn [fst].
        split; [intros [e He]; discriminate He | intros [v [[= <-] Hn]]; discriminate Hn].
  - cbn [fst]. split; [intros [e He]; discriminate He | intros [v [Hn _]]; discriminate Hn].
Qed.

Lemma parse_object_raises_iff_witness :
  (exists e, fst (parse_google_search_json (PDict [("items", PInt 3)])) = Raise e)
  /\ ~ (exists e, fst (parse_google_search_json (PDict [("items", PStr "abc")]))
                  = Raise e).
Proof.
  split.
  - apply (parse_object_raises_iff [("items", PInt 3)]).
    exists (PInt 3). split; reflexivity.
  - intros H. apply (parse_object_raises_iff [("items", PStr "abc")]) in H.
    destruct H as [v [Hv Hn]]. injection Hv as <-. discriminate Hn.
Defined.

(** ** More on the match analyzer *)

Section PromptFacts.
Import PyStr.
Local Open Scope string_scope.

Lemma take_length_le (n : nat) (s : string) : (String.length (take n s) <= n)%nat.
Proof.
  revert s. induction n as [| n IH]; intros s; [simpl; lia|].
  destruct s as [| c s]; simpl; [lia|]. specialize (IH s). lia.
Qed.

Lemma take_all (n : nat) (s : string) :
  (String.length s <= n)%nat -> take n s = s.
Proof.
  revert s. induction n as [| n IH]; intros s Hlen.
  - destruct s; [reflexivity | simpl in Hlen; lia].
  - destruct s as [| c s]; [reflexivity|]. simpl in *.
    rewrite IH by lia. reflexivity.
Qed.

Lemma take_drop (n : nat) (s : string) : take n s ++ drop n s = s.
Proof.
  revert s. induction n as [| n IH]; intros s; [reflexivity|].
  destruct s as [| c s]; [reflexivity|]. simpl. now rewrite IH.
Qed.

End PromptFacts.

(** X7: a reply that decodes to an object with the two keys is returned as
    it is: the method hands back whatever the object holds under
    match_score and analysis, with no check of type or range. *)
Theorem analyze_passes_values_through
    (svc : service) (resume : string) (n : nat) (job : JobListing)
    (p : prompt) (text : string) (d : list (string * pyval)) (s a : pyval) :
  build_prompt resume job = Ok p ->
  svc n p = Reply text (Some (PDict d)) ->
  dict_lookup "match_score" d = Some s ->
  dict_lookup "analysis" d = Some a ->
  analyze_job_listing svc resume n job = Ok (s, a).
Proof.
  intros Hp Hsvc Hs Ha.
  rewrite (analyze_job_listing_outcome svc resume n job p Hp), Hsvc.
  unfold analyze_outcome, analyze_try. cbn [subscript_str].
  rewrite Hs. cbn [bind]. rewrite Ha. reflexivity.
Qed.

Lemma analyze_passes_values_through_witness :
  analyze_job_listing strong_fit "resume" 1 sample_job
  = Ok (PInt 8, PStr "Strong fit")
  /\ analyze_job_listing
       (fun _ _ => json_reply "null" PNone "x") "resume" 1 sample_job
     = Ok (PNone, PStr "x").
Proof.
  split.
  - apply (analyze_passes_values_through strong_fit "resume" 1 sample_job
             sample_prompt (two_fields "8" "Strong fit")
             [("match_score", PInt 8); ("analysis", PStr "Strong fit")]);
      reflexivity.
  - apply (analyze_passes_values_through
             (fun _ _ => json_reply "null" PNone "x") "resume" 1 sample_job
             sample_prompt (two_fields "null" "x")
             [("match_score", PNone); ("analysis", PStr "x")]);
      reflexivity.
Defined.

(** X8: the prompt carries at most the first 4000 characters of a
    description that is a string: a prefix of it, the whole of it when it
    is not longer; the resume, the company, the title and the url go into
    the prompt unchanged. *)
Theorem prompt_truncates_description
    (resume : string) (job : JobListing) (s : string) :
  description job = PStr s ->
  exists p,
    build_prompt resume job = Ok p
    /\ p_description p = PStr (PyStr.take 4000 s)
    /\ (String.length (PyStr.take 4000 s) <= 4000)%nat
    /\ (PyStr.take 4000 s ++ PyStr.drop 4000 s)%string = s
    /\ ((String.length s <= 4000)%nat -> p_description p = PStr s)
    /\ p_resume p = resume /\ p_company p = company job
    /\ p_title p = title job /\ p_url p = url job.
Proof.
  intros Hd. unfold build_prompt. rewrite Hd. cbn [slice_to bind].
  eexists. split; [reflexivity|]. cbn [p_description p_resume p_company p_title p_url].
  split; [reflexivity|]. split; [apply take_length_le|].
  split; [apply take_drop|]. split; [|repeat split].
  intros Hlen. now rewrite take_all.
Qed.

Lemma prompt_truncates_description_witness :
  exists p,
    build_prompt "resume" sample_job = Ok p
    /\ p_description p = PStr "Build services.".
Proof.
  destruct (prompt_truncates_description "resume" sample_job "Build services."
              eq_refl) as [p [Hp [_ [_ [_ [Hshort _]]]]]].
  exists p. split; [exact Hp|]. apply Hshort. simpl. lia.
Defined.

(** ** More on the ranking pipeline *)

(** X9: whatever the run, completed or cut short by an exception,
    [rank_jobs] writes nothing but match_score and analysis: the title,
    company, url and description of every record are what they were, and
    a record that is not in the list is untouched. *)
Theorem rank_jobs_writes_only_results
    (svc : service) (resume : string) (h : store) (jobs : list ref) (d : seconds)
    (r : ref) :
  same_identity (st_store (snd (rank_jobs svc resume h jobs d)) r) (h r)
  /\ (~ In r jobs -> st_store (snd (rank_jobs svc resume h jobs d)) r = h r).
Proof.
  pose proof (rank_loop_frame svc resume d (List.length jobs) jobs 1
                (mkState h []) r) as H.
  unfold rank_jobs.
  destruct (rank_loop svc resume d (List.length jobs) 1 jobs (mkState h []))
    as [[[] | e] st]; exact H.
Qed.

Lemma rank_jobs_writes_only_results_witness :
  st_store (snd (rank_jobs strong_fit "resume" fresh_store [0; 1]%nat (Finite 1))) 5%nat
  = sample_job.
Proof.
  destruct (rank_jobs_writes_only_results strong_fit "resume" fresh_store
              [0; 1]%nat (Finite 1) 5%nat) as [_ H].
  apply H. simpl. intros [H0 | [H1 | []]]; discriminate.
Defined.

(** X10: the records are updated in place, one call after the other: when
    the ranking completes, a record holds the result of the analysis made
    at its last position in the list, so a record listed twice keeps the
    result of the second call. *)
Theorem rank_jobs_last_analysis_wins
    (svc : service) (resume : string) (h : store) (d : seconds)
    (pre post : list ref) (r : ref) (out : list ref) (st : run_state) :
  rank_jobs svc resume h (pre ++ r :: post) d = (Ok out, st) ->
  ~ In r post ->
  analyze_job_listing svc resume (S (List.length pre)) (h r)
  = Ok (match_score (st_store st r), analysis (st_store st r)).
Proof.
  intros Hrun Hnot.
  destruct (rank_jobs_completes_loop _ _ _ _ _ _ _ Hrun) as [Hloop _].
  exact (rank_loop_last_write svc resume d _ pre post r 1 (mkState h []) st
           Hloop Hnot).
Qed.

Lemma rank_jobs_last_analysis_wins_witness :
  analyze_job_listing example_scores "resume" 2 (fresh_store 7%nat)
  = Ok (match_score
          (st_store (snd (rank_jobs example_scores "resume" fresh_store
                            [7; 7]%nat (Finite 1))) 7%nat),
        analysis
          (st_store (snd (rank_jobs example_scores "resume" fresh_store
                            [7; 7]%nat (Finite 1))) 7%nat))
  /\ match_score
       (st_store (snd (rank_jobs example_scores "resume" fresh_store
                         [7; 7]%nat (Finite 1))) 7%nat) = PInt 9.
Proof.
  set (run := rank_jobs example_scores "resume" fresh_store [7; 7]%nat (Finite 1)).
  assert (Hrun : rank_jobs example_scores "resume" fresh_store
                   ([7%nat] ++ 7%nat :: []) (Finite 1)
                 = (Ok [7; 7]%nat, snd run)) by reflexivity.
  split; [|reflexivity].
  apply (rank_jobs_last_analysis_wins example_scores "resume" fresh_store (Finite 1)
           [7%nat] [] 7%nat [7; 7]%nat (snd run) Hrun).
  intros [].
Defined.

Section SortFacts.

Variable k : ref -> Z.

Lemma sort_z_sorted_id (l : list ref) :
  StronglySorted (desc k) l -> sort_z k l = l.
Proof.
  induction 1 as [| x l Hs IH Hx]; [reflexivity|].
  cbn [sort_z]. rewrite IH.
  destruct l as [| y l]; [reflexivity|].
  cbn [insert_z]. inversion Hx as [| y' l' Hy _]; subst.
  unfold desc in Hy. apply Z.ltb_ge in Hy. now rewrite Hy.
Qed.

Lemma sorted_keys (l : list ref) :
  StronglySorted (desc k) l ->
  StronglySorted (fun x y : Z => (y <= x)%Z) (map k l).
Proof.
  induction 1 as [| x l Hs IH Hx]; [constructor|].
  cbn [map]. constructor; [exact IH|].
  apply Forall_map. exact Hx.
Qed.

End SortFacts.

Lemma constant_key_sorted (l : list ref) (z : Z) :
  StronglySorted (desc (fun _ => z)) l.
Proof.
  induction l as [| x l IH]; constructor; [exact IH|].
  apply Forall_forall. intros y _. unfold desc. lia.
Qed.

Lemma service_down_no_decode_error (svc : service) :
  service_down svc -> no_decode_error_from_call svc.
Proof.
  intros H i p e He. destruct (H i p) as [e' [He' Hcls]].
  rewrite He in He'. injection He' as <-. exact Hcls.
Qed.

(** The run of [rank_jobs] on integer scores: it returns the insertion
    sort of the list on the scores the records hold afterwards. *)
Lemma rank_jobs_integer_run
    (svc : service) (resume : string) (h : store) (jobs : list ref) (d : seconds) :
  plain_delay d = true ->
  sliceable h jobs ->
  integer_scores svc ->
  exists st,
    rank_jobs svc resume h jobs d = (Ok (sort_z (score_of st) jobs), st)
    /\ st_trace st = paced d 1 jobs
    /\ (forall r, In r jobs -> match_score (st_store st r) = PInt (score_of st r)).
Proof.
  intros Hd Hs Hint.
  destruct (rank_loop_trace svc resume d (List.length jobs) jobs
              (plain_delay_sleeps d Hd)
              (integer_scores_no_decode_error svc Hint)
              1%nat (mkState h []) Hs eq_refl) as [h' Hrun].
  cbn [st_trace app] in Hrun.
  set (st := mkState h' (paced d 1 jobs)) in *.
  assert (Hkeys : forall r, In r jobs ->
                    match_score (st_store st r) = PInt (score_of st r)).
  { intros r Hr.
    assert (Hex : exists z, match_score (st_store st r) = PInt z).
    { apply (rank_loop_results svc resume d
               (fun s _ => exists z, s = PInt z)
               ltac:(intros i job s a Ha; unfold analyze_job_listing in Ha;
                     destruct (build_prompt resume job) as [p |]; [|discriminate];
                     cbn [bind] in Ha;
                     destruct (Hint i p) as [z [a' Hz]];
                     rewrite Hz in Ha; injection Ha as <- _; eauto)
               _ _ _ _ _ Hrun r).
      now left. }
    destruct Hex as [z Hz]. unfold score_of. rewrite Hz. reflexivity. }
  exists st. split; [|split; [reflexivity | exact Hkeys]].
  unfold rank_jobs. rewrite Hrun. cbv beta iota.
  rewrite (sorted_desc_int (score_of st)
             (fun r => match_score (st_store st r)) jobs Hkeys).
  reflexivity.
Qed.

(** X11: the sort is stable, so a list whose scores come out already in
    non-increasing order is returned in its input order. *)
Theorem rank_jobs_keeps_sorted_input
    (svc : service) (resume : string) (h : store) (jobs : list ref) (d : seconds)
    (out : list ref) (st : run_state) :
  rank_jobs svc resume h jobs d = (Ok out, st) ->
  (forall r, In r jobs -> match_score (st_store st r) = PInt (score_of st r)) ->
  StronglySorted (fun a b => (score_of st b <= score_of st a)%Z) jobs ->
  out = jobs.
Proof.
  intros Hrun Hkeys Hsorted.
  destruct (rank_jobs_completes_loop _ _ _ _ _ _ _ Hrun) as [_ Hsort].
  rewrite (sorted_desc_int (score_of st)
             (fun r => match_score (st_store st r)) jobs Hkeys) in Hsort.
  injection Hsort as <-. apply sort_z_sorted_id. exact Hsorted.
Qed.

Lemma rank_jobs_keeps_sorted_input_witness :
  exists out st,
    rank_jobs strong_fit "resume" fresh_store [3; 1; 2]%nat (Finite 1) = (Ok out, st)
    /\ out = [3; 1; 2]%nat.
Proof.
  eexists. eexists. split; [reflexivity|].
  eapply (rank_jobs_keeps_sorted_input strong_fit "resume" fresh_store
            [3; 1; 2]%nat (Finite 1)).
  - reflexivity.
  - intros r [<- | [<- | [<- | []]]]; reflexivity.
  - repeat constructor; vm_compute; discriminate.
Defined.

(** X12: when the service is down (every call raises an error of the
    client), the ranking still completes, given a delay that [time.sleep]
    takes and descriptions that can be sliced: [rank_jobs] returns the
    list in its input order, and every record of the list holds the score
    0 with a text that begins Analysis failed: *)
Theorem rank_jobs_service_down
    (svc : service) (resume : string) (h : store) (jobs : list ref) (d : seconds) :
  plain_delay d = true ->
  sliceable h jobs ->
  service_down svc ->
  exists st,
    rank_jobs svc resume h jobs d = (Ok jobs, st)
    /\ forall r, In r jobs ->
         match_score (st_store st r) = PInt 0
         /\ exists msg,
              analysis (st_store st r) = PStr ("Analysis failed: " ++ msg).
Proof.
  intros Hd Hs Hdown.
  destruct (rank_loop_trace svc resume d (List.length jobs) jobs
              (plain_delay_sleeps d Hd)
              (service_down_no_decode_error svc Hdown)
              1%nat (mkState h []) Hs eq_refl) as [h' Hrun].
  set (st := mkState h' _) in Hrun.
  assert (Hres : forall r, In r jobs ->
            match_score (st_store st r) = PInt 0
            /\ exists msg, analysis (st_store st r)
                           = PStr ("Analysis failed: " ++ msg)).
  { intros r Hr.
    apply (rank_loop_results svc resume d
             (fun s a => s = PInt 0
                         /\ exists msg, a = PStr ("Analysis failed: " ++ msg))
             ltac:(intros i job s a Ha; unfold analyze_job_listing in Ha;
                   destruct (build_prompt resume job) as [p |]; [|discriminate];
                   cbn [bind] in Ha;
                   destruct (Hdown i p) as [e [He Hcls]];
                   rewrite He, (analyze_outcome_call_fails e Hcls) in Ha;
                   injection Ha as <- <-; split; [reflexivity | exists (exn_str e); reflexivity])
             _ _ _ _ _ Hrun r).
    now left. }
  exists st. split; [|exact Hres].
  unfold rank_jobs. rewrite Hrun. cbv beta iota.
  rewrite (sorted_desc_int (fun _ => 0%Z)
             (fun r => match_score (st_store st r)) jobs
             (fun r Hr => proj1 (Hres r Hr))).
  rewrite (sort_z_sorted_id _ _ (constant_key_sorted jobs 0)). reflexivity.
Qed.

Lemma rank_jobs_service_down_witness :
  exists st,
    rank_jobs (fun _ _ => CallRaises (Exn ServiceError "Connection error."))
      "resume" fresh_store [2; 0; 1]%nat (Finite 1)
    = (Ok [2; 0; 1]%nat, st).
Proof.
  destruct (rank_jobs_service_down
              (fun _ _ => CallRaises (Exn ServiceError "Connection error."))
              "resume" fresh_store [2; 0; 1]%nat (Finite 1)) as [st [Hrun _]].
  - reflexivity.
  - intros r _. eexists. reflexivity.
  - intros i p. eexists. split; reflexivity.
  - exists st. exact Hrun.
Defined.

(** ** Ranking, saving and loading together *)

Section SavedFile.

Variable h : store.

Lemma result_entries_are_dicts (ranked : list ref) :
  forall i, forallb is_dict (result_entries h i ranked) = true.
Proof.
  induction ranked as [| r rest IH]; intros i; [reflexivity|].
  cbn [result_entries forallb]. rewrite IH. reflexivity.
Qed.

Lemma result_entries_ranks (ranked : list ref) :
  forall i,
    map entry_rank (result_entries h i ranked)
    = map Z.of_nat (seq i (List.length ranked)).
Proof.
  induction ranked as [| r rest IH]; intros i; [reflexivity|].
  cbn [result_entries map List.length seq]. rewrite IH. reflexivity.
Qed.

Lemma result_entries_scores (k : ref -> Z) (ranked : list ref) :
  (forall r, In r ranked -> match_score (h r) = PInt (k r)) ->
  forall i, map entry_score (result_entries h i ranked) = map k ranked.
Proof.
  induction ranked as [| r rest IH]; intros Hk i; [reflexivity|].
  cbn [result_entries map]. rewrite IH by (intros x Hx; apply Hk; now right).
  f_equal. unfold result_entry, entry_score. cbn [dict_lookup String.eqb].
  cbn. rewrite (Hk r (or_introl eq_refl)). reflexivity.
Qed.

End SavedFile.

(** X13: ranking and saving together: when the analyses all return integer
    scores (and [time.sleep] takes the delay), the file that [save_results]
    writes for the list [rank_jobs] returned has one object per input
    record, the ranks 1, 2, ..., n in this order, and scores that do not
    increase from one object to the next. *)
Theorem ranked_file_is_sorted
    (svc : service) (resume : string) (h : store) (jobs : list ref) (d : seconds)
    (filename : string) (fs : files) :
  plain_delay d = true ->
  sliceable h jobs ->
  integer_scores svc ->
  exists (out : list ref) (st : run_state) (objs : list pyval),
    rank_jobs svc resume h jobs d = (Ok out, st)
    /\ save_results (st_store st) out filename fs filename = Some (PList objs)
    /\ List.length objs = List.length jobs
    /\ map entry_rank objs = map Z.of_nat (seq 1 (List.length jobs))
    /\ StronglySorted (fun x y : Z => (y <= x)%Z) (map entry_score objs).
Proof.
  intros Hd Hs Hint.
  destruct (rank_jobs_integer_run svc resume h jobs d Hd Hs Hint)
    as [st [Hrun [_ Hkeys]]].
  set (out := sort_z (score_of st) jobs) in *.
  assert (Hperm : Permutation jobs out) by apply sort_z_perm.
  exists out, st, (result_entries (st_store st) 1 out).
  split; [exact Hrun|].
  split; [unfold save_results, write_file; now rewrite String.eqb_refl|].
  split.
  - rewrite result_entries_length. symmetry. apply Permutation_length, Hperm.
  - split.
    + rewrite result_entries_ranks.
      now rewrite (Permutation_length Hperm).
    + rewrite (result_entries_scores (st_store st) (score_of st) out).
      * apply sorted_keys. apply sort_z_sorted.
      * intros r Hr. apply Hkeys.
        exact (Permutation_in r (Permutation_sym Hperm) Hr).
Qed.

Lemma ranked_file_is_sorted_witness :
  exists (out : list ref) (st : run_state) (objs : list pyval),
    rank_jobs example_scores "resume" fresh_store [10; 11; 12; 13; 14]%nat (Finite 1)
    = (Ok out, st)
    /\ save_results (st_store st) out "job_rankings.json" (fun _ => None)
         "job_rankings.json" = Some (PList objs)
    /\ map entry_rank objs = [1; 2; 3; 4; 5]%Z
    /\ StronglySorted (fun x y : Z => (y <= x)%Z) (map entry_score objs).
Proof.
  destruct (ranked_file_is_sorted example_scores "resume" fresh_store
              [10; 11; 12; 13; 14]%nat (Finite 1) "job_rankings.json" (fun _ => None))
    as [out [st [objs [Hrun [Hfile [_ [Hranks Hsorted]]]]]]].
  - reflexivity.
  - intros r _. eexists. reflexivity.
  - intros i p. unfold example_scores.
    destruct (i - 1)%nat as [| [| [| [| [| [| m]]]]]]; eexists; eexists; reflexivity.
  - exists out, st, objs. repeat split; assumption.
Defined.

(** X14: a file written by [save_results] is not a search snapshot: read
    back by [load_jobs_from_google_search_file] it gives no record and no
    error, whatever was ranked, because the file holds a list and not an
    object with an items key. *)
Theorem saved_rankings_load_as_empty
    (h : store) (ranked : list ref) (filename : string) (fs : files)
    (d : disk) (body : file_body) :
  d filename = Some body ->
  body_json body = save_results h ranked filename fs filename ->
  load_jobs_from_google_search_file d filename = (Loaded [], [LogNoResults]).
Proof.
  intros Hfile Hjson. unfold load_jobs_from_google_search_file.
  rewrite Hfile, Hjson. unfold save_results, write_file.
  rewrite String.eqb_refl.
  rewrite (parse_list_no_items _ (result_entries_are_dicts h ranked 1)).
  reflexivity.
Qed.

Lemma saved_rankings_load_as_empty_witness :
  load_jobs_from_google_search_file disk_with_rankings "job_rankings.json"
  = (Loaded [], [LogNoResults])
  /\ fst (ranker_main
            (fun name => if String.eqb name "ANTHROPIC_API_KEY" then Some "sk-test"
                         else if String.eqb name "JOB_SEARCH_LIST_PATH"
                         then Some "job_rankings.json" else None)
            disk_with_rankings strong_fit (fun _ => None))
     = (MainNoJobs, None).
Proof.
  assert (H : load_jobs_from_google_search_file disk_with_rankings
                "job_rankings.json" = (Loaded [], [LogNoResults])).
  { destruct (disk_with_rankings "job_rankings.json") as [body |] eqn:Hbody;
      [|discriminate Hbody].
    apply (saved_rankings_load_as_empty two_scored_jobs [0; 1]%nat
             "job_rankings.json" (fun _ => None) disk_with_rankings body Hbody).
    injection Hbody as <-. reflexivity. }
  split; [exact H|].
  unfold ranker_main. cbn [ranker_init]. 
  change (getenv _ "JOB_SEARCH_LIST_PATH" "job_search_results.json")
    with "job_rankings.json".
  reflexivity.
Defined.

(** ** The search script *)

Section SearchLoop.

Variables (api : search_api) (max_results : Z).

Lemma starts_S (n : nat) : starts (S n) = starts n ++ [(1 + per_page * n)%nat].
Proof. unfold starts. rewrite seq_S, map_app. reflexivity. Qed.

Lemma starts_length (n : nat) : List.length (starts n) = n.
Proof. unfold starts. now rewrite length_map, length_seq. Qed.

Lemma paged_trace_S (n : nat) :
  paged_trace (S n)
  = paged_trace n ++ [EvRequest (1 + per_page * n)%nat; EvPause].
Proof.
  unfold paged_trace. rewrite starts_S, flat_map_app. cbn [flat_map].
  now rewrite app_nil_r.
Qed.

Lemma page_continues_is_dict (j : pyval) :
  page_continues j = true -> is_dict j = true.
Proof. destruct j; try discriminate. reflexivity. Qed.

Lemma forallb_removelast {A : Type} (f : A -> bool) (l : list A) :
  forallb f l = true -> forallb f (removelast l) = true.
Proof.
  induction l as [| x l IH]; [reflexivity|].
  intros H. cbn [forallb] in H. apply andb_prop in H. destruct H as [Hx Hl].
  destruct l as [| y l]; [reflexivity|].
  change (removelast (x :: y :: l)) with (x :: removelast (y :: l)).
  cbn [forallb]. now rewrite Hx, (IH Hl).
Qed.

(** With enough fuel the loop ends, and more fuel changes nothing. *)
Lemma search_loop_fuel (fuel : nat) :
  forall (fuel' start : nat) (raw : list pyval) (tr : list search_event),
    (100 < start + 10 * fuel)%nat ->
    (S fuel <= fuel')%nat ->
    exists r,
      search_loop (S fuel) api max_results start raw tr = Some r
      /\ search_loop fuel' api max_results start raw tr = Some r.
Proof.
  induction fuel as [| fuel IH]; intros fuel' start raw tr Hfuel Hle;
    (destruct fuel' as [| fuel']; [lia|]); cbn [search_loop].
  - assert (Hstart : (start <=? 100)%nat = false) by (apply Nat.leb_gt; lia).
    rewrite Hstart. cbn [andb]. eauto.
  - destruct (start <=? 100)%nat eqn:Hstart; cbn [andb]; [|eauto].
    destruct (Z.of_nat (List.length raw) <? max_results)%Z; [|eauto].
    destruct (api start) as [e | status_code text [j |]]; [eauto | |].
    + destruct (negb (Z.eqb status_code 200)); [eauto|].
      destruct (item_get j "items" PNone) as [items | e]; [|eauto].
      destruct (negb (truthy items)); [eauto|].
      apply IH; unfold per_page; lia.
    + destruct (negb (Z.eqb status_code 200)); eauto.
Qed.

Lemma search_loop_returned (fuel : nat) :
  forall (start : nat) (raw : list pyval) (tr : list search_event)
         (pages : list pyval) (tr' : list search_event),
    search_inv api max_results start raw tr ->
    search_loop fuel api max_results start raw tr = Some (Returned pages, tr') ->
    tr' = paged_trace (List.length pages)
    /\ map (fun s => json_200 (api s)) (starts (List.length pages)) = map Some pages
    /\ forallb is_dict pages = true
    /\ forallb page_continues (removelast pages) = true
    /\ (List.length pages <= 10)%nat
    /\ (Z.of_nat (List.length pages) <= Z.max 0 max_results)%Z.
Proof.
  induction fuel as [| fuel IH]; intros start raw tr pages tr' Hinv Hrun;
    [discriminate|].
  destruct Hinv as [Hstart [Htr [Hjson [Hcont [Hlen Hmax]]]]].
  assert (Hdone : Some (Returned raw, tr) = Some (Returned pages, tr') ->
            tr' = paged_trace (List.length pages)
            /\ map (fun s => json_200 (api s)) (starts (List.length pages))
               = map Some pages
            /\ forallb is_dict pages = true
            /\ forallb page_continues (removelast pages) = true
            /\ (List.length pages <= 10)%nat
            /\ (Z.of_nat (List.length pages) <= Z.max 0 max_results)%Z).
  { intros [= <- <-]. repeat split; try assumption.
    - rewrite forallb_forall in *. intros j Hj.
      apply page_continues_is_dict, Hcont, Hj.
    - apply forallb_removelast, Hcont. }
  cbn [search_loop] in Hrun.
  destruct (start <=? 100)%nat eqn:Hle; cbn [andb] in Hrun; [|now apply Hdone].
  destruct (Z.of_nat (List.length raw) <? max_results)%Z eqn:Hlt;
    [|now apply Hdone].
  apply Nat.leb_le in Hle. apply Z.ltb_lt in Hlt.
  destruct (api start) as [e | status_code text [j |]] eqn:Hapi; [discriminate | |].
  2:{ destruct (negb (Z.eqb status_code 200)); discriminate. }
  destruct (negb (Z.eqb status_code 200)) eqn:Hcode; [discriminate|].
  apply negb_false_iff in Hcode.
  destruct (item_get j "items" PNone) as [items | e] eqn:Hitems; [|discriminate].
  assert (Hlen' : List.length (raw ++ [j]) = S (List.length raw)).
  { rewrite length_app. simpl. lia. }
  assert (Hjson' : map (fun s => json_200 (api s)) (starts (S (List.length raw)))
                   = map Some (raw ++ [j])).
  { rewrite starts_S, !map_app, Hjson. cbn [map]. rewrite <- Hstart, Hapi.
    cbn [json_200]. now rewrite Hcode. }
  assert (Htr' : (tr ++ [EvRequest start]) ++ [EvPause]
                 = paged_trace (S (List.length raw))).
  { rewrite paged_trace_S, <- Hstart, Htr, <- app_assoc. reflexivity. }
  destruct (negb (truthy items)) eqn:Hfalsy.
  - injection Hrun as <- <-. rewrite Hlen'.
    split; [exact Htr'|]. split; [exact Hjson'|].
    split.
    + rewrite forallb_app. cbn [forallb].
      assert (Hd : is_dict j = true).
      { destruct j; try discriminate Hitems. reflexivity. }
      rewrite Hd. rewrite andb_true_r.
      rewrite forallb_forall in *. intros x Hx.
      apply page_continues_is_dict, Hcont, Hx.
    + split; [now rewrite removelast_last|].
      unfold per_page in *. split; lia.
  - apply negb_false_iff in Hfalsy.
    apply (IH (start + per_page)%nat (raw ++ [j])
              ((tr ++ [EvRequest start]) ++ [EvPause]) pages tr'); [|exact Hrun].
    unfold search_inv. rewrite Hlen'.
    split; [unfold per_page in *; lia|]. split; [exact Htr'|].
    split; [exact Hjson'|]. split.
    + rewrite forallb_app, Hcont. cbn [forallb].
      unfold page_continues. rewrite Hitems, Hfalsy. reflexivity.
    + unfold per_page in *. split; lia.
Qed.

Lemma search_inv_start : search_inv api max_results 1 [] [].
Proof.
  unfold search_inv. cbn. repeat split; try reflexivity; lia.
Qed.

End SearchLoop.

Lemma search_loop_full (api : search_api) (max_results : Z) (fuel : nat) :
  always_full api ->
  forall (start : nat) (raw : list pyval) (tr : list search_event)
         (out : search_outcome) (tr' : list search_event),
    start = (1 + per_page * List.length raw)%nat ->
    search_loop fuel api max_results start raw tr = Some (out, tr') ->
    exists pages,
      out = Returned pages
      /\ ((10 <= List.length pages)%nat
          \/ (max_results <= Z.of_nat (List.length pages))%Z).
Proof.
  intros Hfull.
  induction fuel as [| fuel IH]; intros start raw tr out tr' Hstart Hrun;
    [discriminate|].
  cbn [search_loop] in Hrun.
  destruct (start <=? 100)%nat eqn:Hle; cbn [andb] in Hrun.
  2:{ injection Hrun as <- <-. exists raw. split; [reflexivity|].
      apply Nat.leb_gt in Hle. unfold per_page in *. left. lia. }
  destruct (Z.of_nat (List.length raw) <? max_results)%Z eqn:Hlt.
  2:{ injection Hrun as <- <-. exists raw. split; [reflexivity|].
      apply Z.ltb_ge in Hlt. now right. }
  destruct (Hfull start) as [text [j [Hapi Hcont]]].
  rewrite Hapi in Hrun. cbn [Z.eqb Pos.eqb negb] in Hrun.
  unfold page_continues in Hcont.
  destruct (item_get j "items" PNone) as [items | e]; [|discriminate].
  rewrite Hcont in Hrun. cbn [negb] in Hrun.
  apply (IH (start + per_page)%nat (raw ++ [j])
            ((tr ++ [EvRequest start]) ++ [EvPause]) out tr'); [|exact Hrun].
  rewrite length_app. cbn [List.length]. unfold per_page in *. lia.
Qed.

Lemma run_search_total (api : search_api) (max_results : Z) :
  exists r,
    run_search api max_results = Some r
    /\ forall fuel, (11 <= fuel)%nat ->
         search_loop fuel api max_results 1 [] [] = Some r.
Proof.
  unfold run_search.
  destruct (search_loop_fuel api max_results 10 11 1 [] []) as [r [Hr _]];
    [lia | lia |].
  exists r. split; [exact Hr|].
  intros fuel Hfuel.
  destruct (search_loop_fuel api max_results 10 fuel 1 [] []) as [r' [Hr' Hfuel']];
    [lia | lia |].
  rewrite Hr in Hr'. injection Hr' as <-. exact Hfuel'.
Qed.

(** X15: [run_search] always ends: its loop makes at most ten turns, so the
    eleven turns the model allows are never used up, and allowing more
    turns gives the same outcome. *)
Theorem run_search_terminates (api : search_api) (max_results : Z) :
  exists r,
    run_search api max_results = Some r
    /\ forall fuel, (11 <= fuel)%nat ->
         search_loop fuel api max_results 1 [] [] = Some r.
Proof. apply run_search_total. Qed.

Lemma run_search_terminates_witness :
  exists r,
    run_search (fun _ => empty_page) 50 = Some r
    /\ search_loop 40 (fun _ => empty_page) 50 1 [] [] = Some r.
Proof.
  destruct (run_search_terminates (fun _ => empty_page) 50) as [r [Hr Hfuel]].
  exists r. split; [exact Hr|]. apply Hfuel. lia.
Defined.

(** X16: when [run_search] returns, it made one request per page returned,
    with the start parameters 1, 11, 21, ... in this order, and paused
    after each of them, the last one included; it returns at most ten
    pages and at most [max_results] pages: [max_results] bounds the number
    of pages, not the number of results. *)
Theorem run_search_requests
    (api : search_api) (max_results : Z) (pages : list pyval)
    (tr : list search_event) :
  run_search api max_results = Some (Returned pages, tr) ->
  tr = paged_trace (List.length pages)
  /\ (List.length pages <= 10)%nat
  /\ (Z.of_nat (List.length pages) <= Z.max 0 max_results)%Z.
Proof.
  intros Hrun.
  destruct (search_loop_returned api max_results 11 1 [] [] pages tr
              (search_inv_start api max_results) Hrun)
    as [Htr [_ [_ [_ [Hlen Hmax]]]]].
  repeat split; assumption.
Qed.

Lemma run_search_requests_witness :
  exists pages tr,
    run_search two_page_api 50 = Some (Returned pages, tr)
    /\ tr = [EvRequest 1; EvPause; EvRequest 11; EvPause].
Proof.
  eexists. eexists. split; [reflexivity|].
  destruct (run_search_requests two_page_api 50 _ _ eq_refl) as [Htr _].
  exact Htr.
Defined.

(** X17: the pages [run_search] returns are, in order, the decoded bodies
    of its requests, which were all answered with status 200; every page
    is an object, and every page but the last has a non-empty value under
    items: the search stops at the first page without items. *)
Theorem run_search_pages
    (api : search_api) (max_results : Z) (pages : list pyval)
    (tr : list search_event) :
  run_search api max_results = Some (Returned pages, tr) ->
  map (fun s => json_200 (api s)) (starts (List.length pages)) = map Some pages
  /\ forallb is_dict pages = true
  /\ forallb page_continues (removelast pages) = true.
Proof.
  intros Hrun.
  destruct (search_loop_returned api max_results 11 1 [] [] pages tr
              (search_inv_start api max_results) Hrun)
    as [_ [Hjson [Hdict [Hcont _]]]].
  repeat split; assumption.
Qed.

Lemma run_search_pages_witness :
  exists pages tr,
    run_search two_page_api 50 = Some (Returned pages, tr)
    /\ forallb is_dict pages = true
    /\ forallb page_continues (removelast pages) = true.
Proof.
  eexists. eexists. split; [reflexivity|].
  destruct (run_search_pages two_page_api 50 _ _ eq_refl) as [_ [Hd Hc]].
  split; [exact Hd | exact Hc].
Defined.

(** X18: when every request is answered with a page that has items,
    [run_search] returns as many pages as the smaller of ten and
    [max_results]: with the default of 50 it fetches ten pages, up to a
    hundred results. *)
Theorem run_search_full_pages (api : search_api) (max_results : Z) :
  always_full api ->
  exists pages tr,
    run_search api max_results = Some (Returned pages, tr)
    /\ List.length pages = Nat.min 10 (Z.to_nat max_results).
Proof.
  intros Hfull.
  destruct (run_search_total api max_results) as [[out tr] [Hrun _]].
  destruct (search_loop_full api max_results 11 Hfull 1 [] [] out tr eq_refl Hrun)
    as [pages [-> Hstop]].
  destruct (search_loop_returned api max_results 11 1 [] [] pages tr
              (search_inv_start api max_results) Hrun)
    as [_ [_ [_ [_ [Hlen Hmax]]]]].
  exists pages, tr. split; [exact Hrun|]. lia.
Qed.

Lemma run_search_full_pages_witness :
  exists pages tr,
    run_search (fun _ => full_page) 50 = Some (Returned pages, tr)
    /\ List.length pages = 10%nat.
Proof.
  destruct (run_search_full_pages (fun _ => full_page) 50)
    as [pages [tr [Hrun Hlen]]].
  - intros s. eexists. eexists. split; reflexivity.
  - exists pages, tr. split; [exact Hrun | exact Hlen].
Defined.

(** ** The two scripts together *)

(** X19: the file the search script writes is a list of pages, and the
    ranker reads it as a snapshot: whatever the search returned, loading
    its file gives no record, and [main] of the ranker, pointed at the
    default path, ends with no job to analyse: no call of the analysis
    service, nothing written. *)
Theorem search_output_gives_no_jobs
    (api : search_api) (fs fs' : files) (env : environ) (d : disk)
    (svc : service) (pages : list pyval) (tr : list search_event)
    (body : file_body) (key resume : string) :
  run_search api 50 = Some (Returned pages, tr) ->
  d "job_search_results.json" = Some body ->
  body_json body = search_main api fs "job_search_results.json" ->
  env "JOB_SEARCH_LIST_PATH" = None ->
  ranker_init None env d = InitOk key resume ->
  load_jobs_from_google_search_file d "job_search_results.json"
  = (Loaded [], [LogNoResults])
  /\ ranker_main env d svc fs' = (MainNoJobs, None, fs').
Proof.
  intros Hrun Hfile Hjson Henv Hinit.
  assert (Hdoc : body_json body = Some (PList pages)).
  { rewrite Hjson. unfold search_main. rewrite Hrun.
    unfold write_file. now rewrite String.eqb_refl. }
  assert (Hdicts : forallb is_dict pages = true).
  { destruct (search_loop_returned api 50 11 1 [] [] pages tr
                (search_inv_start api 50) Hrun) as [_ [_ [H _]]]. exact H. }
  assert (Hload : load_jobs_from_google_search_file d "job_search_results.json"
                  = (Loaded [], [LogNoResults])).
  { unfold load_jobs_from_google_search_file.
    rewrite Hfile, Hdoc, (parse_list_no_items pages Hdicts). reflexivity. }
  split; [exact Hload|].
  unfold ranker_main. rewrite Hinit. unfold getenv. rewrite Henv, Hload.
  reflexivity.
Qed.

Lemma search_output_gives_no_jobs_witness :
  ranker_main key_only disk_after_search strong_fit (fun _ => None)
  = (MainNoJobs, None, fun _ => None).
Proof.
  eapply (search_output_gives_no_jobs (fun _ => empty_page) (fun _ => None)
            (fun _ => None) key_only disk_after_search strong_fit).
  - reflexivity.
  - reflexivity.
  - reflexivity.
  - reflexivity.
  - reflexivity.
Defined.

(** ** The constructor and [main] *)

(** X20: the key the ranker uses: the argument when it is a non-empty
    string, else the environment variable when it is a non-empty string;
    an empty string counts as no key, and without a key the constructor
    raises [ValueError]. *)
Theorem resolve_api_key_choice (api_key : option string) (env : environ)
    (k : string) :
  resolve_api_key api_key env = Ok k
  <-> k <> EmptyString
      /\ (api_key = Some k
          \/ ((api_key = None \/ api_key = Some EmptyString)
              /\ env "ANTHROPIC_API_KEY" = Some k)).
Proof.
  unfold resolve_api_key. split.
  - destruct api_key as [a |].
    + destruct (String.eqb a EmptyString) eqn:Ha.
      * apply String.eqb_eq in Ha. subst a.
        destruct (env "ANTHROPIC_API_KEY") as [v |]; [|discriminate].
        destruct (String.eqb v EmptyString) eqn:Hv; [discriminate|].
        intros [= <-]. apply String.eqb_neq in Hv. split; [exact Hv|].
        right. split; [now right | reflexivity].
      * rewrite Ha. intros [= <-]. apply String.eqb_neq in Ha.
        split; [exact Ha | now left].
    + destruct (env "ANTHROPIC_API_KEY") as [v |]; [|discriminate].
      destruct (String.eqb v EmptyString) eqn:Hv; [discriminate|].
      intros [= <-]. apply String.eqb_neq in Hv. split; [exact Hv|].
      right. split; [now left | reflexivity].
  - intros [Hk [-> | [[-> | ->] Henv]]].
    + apply String.eqb_neq in Hk. now rewrite Hk, Hk.
    + rewrite Henv. apply String.eqb_neq in Hk. now rewrite Hk.
    + cbn [String.eqb]. rewrite Henv. apply String.eqb_neq in Hk. now rewrite Hk.
Qed.

Lemma resolve_api_key_choice_witness :
  resolve_api_key (Some EmptyString) key_only = Ok "sk-test"
  /\ resolve_api_key (Some "sk-arg") key_only = Ok "sk-arg".
Proof.
  split.
  - apply (resolve_api_key_choice (Some EmptyString) key_only "sk-test").
    split; [discriminate|]. right. split; [now right | reflexivity].
  - apply (resolve_api_key_choice (Some "sk-arg") key_only "sk-arg").
    split; [discriminate | now left].
Defined.

(** The constructor checks the key before it opens the resume file:
    without a key it raises [ValueError] whatever the files are, and with
    a key it raises [FileNotFoundError] exactly when the file named by
    RESUME_PATH (resume.txt when the variable is not set) is missing, and
    else holds the text of that file. *)
Lemma ranker_init_order (api_key : option string) (env : environ) (d : disk) :
  (forall e, resolve_api_key api_key env = Raise e ->
             ranker_init api_key env d = InitValueError (exn_str e))
  /\ (forall k, resolve_api_key api_key env = Ok k ->
        ranker_init api_key env d
        = match d (getenv env "RESUME_PATH" "resume.txt") with
          | Some body => InitOk k (body_text body)
          | None => InitFileNotFound (getenv env "RESUME_PATH" "resume.txt")
          end).
Proof.
  unfold ranker_init, load_resume_from_file. split.
  - intros e He. now rewrite He.
  - intros k Hk. rewrite Hk.
    destruct (d (getenv env "RESUME_PATH" "resume.txt")); reflexivity.
Qed.

Lemma ranker_init_order_witness :
  ranker_init None (fun _ => None) disk_after_search
  = InitValueError
      "ANTHROPIC_API_KEY environment variable must be set or pass api_key parameter"
  /\ ranker_init None key_only (fun _ => None) = InitFileNotFound "resume.txt".
Proof.
  destruct (ranker_init_order None (fun _ => None) disk_after_search) as [Hnone _].
  destruct (ranker_init_order None key_only (fun _ => None)) as [_ Hkey].
  split.
  - apply (Hnone (Exn ValueError
             "ANTHROPIC_API_KEY environment variable must be set or pass api_key parameter")).
    reflexivity.
  - apply (Hkey "sk-test"). reflexivity.
Defined.

Lemma store_of_list_sliceable (jobs : list JobListing) (dflt : JobListing) :
  Forall (fun j => returns (slice_to 4000 (description j))) jobs ->
  sliceable (store_of_list jobs dflt) (seq 0 (List.length jobs)).
Proof.
  intros Hall r Hr. apply in_seq in Hr. unfold store_of_list.
  rewrite Forall_forall in Hall. apply Hall. apply nth_In. lia.
Qed.

(** X21: [main] writes one file at most, job_rankings.json, and only after
    a ranking that completed: when there is no key, when the resume or
    the search file cannot be loaded, when the search file gives no
    record, or when the ranking raises, every file is left as it was; and
    no analysis is made unless the search file gave at least one record. *)
Theorem main_writes_only_rankings
    (env : environ) (d : disk) (svc : service) (fs : files) :
  let '(outcome, run, fs') := ranker_main env d svc fs in
  (forall path, path <> "job_rankings.json" -> fs' path = fs path)
  /\ ((forall ranked, outcome <> MainDone ranked) -> fs' = fs)
  /\ (run = None <->
      (outcome = MainNoJobs \/ (exists msg, outcome = MainNoKey msg)
       \/ (exists path, outcome = MainResumeNotFound path)
       \/ (exists l, outcome = MainLoadFailed l))).
Proof.
  unfold ranker_main.
  destruct (ranker_init None env d) as [key resume | msg | path].
  2:{ split; [reflexivity|]. split; [reflexivity|].
      split; [intros _; right; left; eauto | reflexivity]. }
  2:{ split; [reflexivity|]. split; [reflexivity|].
      split; [intros _; right; right; left; eauto | reflexivity]. }
  destruct (fst (load_jobs_from_google_search_file d
                   (getenv env "JOB_SEARCH_LIST_PATH" "job_search_results.json")))
    as [[| job jobs] | path | path | e].
  - split; [reflexivity|]. split; [reflexivity|].
    split; [intros _; now left | reflexivity].
  - destruct (rank_jobs svc resume _ _ (Finite 2)) as [[ranked | e] st].
    + split.
      * intros path Hne. unfold save_results, write_file.
        apply String.eqb_neq in Hne. now rewrite Hne.
      * split.
        -- intros Hnot. now elim (Hnot ranked).
        -- split; [discriminate|].
           intros [H | [[msg H] | [[path H] | [l H]]]]; discriminate H.
    + split; [reflexivity|]. split; [reflexivity|].
      split; [discriminate|].
      intros [H | [[msg H] | [[path H] | [l H]]]]; discriminate H.
  - split; [reflexivity|]. split; [reflexivity|].
    split; [intros _; right; right; right; eauto | reflexivity].
  - split; [reflexivity|]. split; [reflexivity|].
    split; [intros _; right; right; right; eauto | reflexivity].
  - split; [reflexivity|]. split; [reflexivity|].
    split; [intros _; right; right; right; eauto | reflexivity].
Qed.

Lemma main_writes_only_rankings_witness :
  snd (ranker_main key_only disk_with_snapshot undecodable_service
         (fun _ => Some PNone))
  = (fun _ => Some PNone).
Proof.
  pose proof (main_writes_only_rankings key_only disk_with_snapshot
                undecodable_service (fun _ => Some PNone)) as H.
  destruct (ranker_main key_only disk_with_snapshot undecodable_service
              (fun _ => Some PNone)) as [[outcome run] fs'] eqn:Hmain.
  destruct H as [_ [Hsame _]]. cbn [snd]. apply Hsame.
  intros ranked Hdone.
  assert (Hout : fst (fst (ranker_main key_only disk_with_snapshot
                             undecodable_service (fun _ => Some PNone)))
                 = outcome) by (rewrite Hmain; reflexivity).
  rewrite Hdone in Hout. vm_compute in Hout. discriminate Hout.
Defined.

(** X22: [main] from end to end: with a key, a resume file and a search
    file that gives at least one record, all with descriptions that are
    strings or lists, and a service whose analyses return integer scores,
    [main] ranks every record (its fixed delay of two seconds is taken
    between two analyses, n-1 times) and leaves in job_rankings.json one
    object per record, with the ranks 1, ..., n and scores that do not
    increase; no other file changes. *)
Theorem main_ranks_and_saves
    (env : environ) (d : disk) (svc : service) (fs : files)
    (key resume : string) (job : JobListing) (jobs : list JobListing) :
  ranker_init None env d = InitOk key resume ->
  fst (load_jobs_from_google_search_file d
         (getenv env "JOB_SEARCH_LIST_PATH" "job_search_results.json"))
  = Loaded (job :: jobs) ->
  Forall (fun j => returns (slice_to 4000 (description j))) (job :: jobs) ->
  integer_scores svc ->
  exists (ranked : list ref) (st : run_state) (objs : list pyval),
    ranker_main env d svc fs
    = (MainDone ranked, Some st,
       write_file fs "job_rankings.json" (PList objs))
    /\ Permutation (seq 0 (S (List.length jobs))) ranked
    /\ count_sleeps (st_trace st) = List.length jobs
    /\ List.length objs = S (List.length jobs)
    /\ map entry_rank objs = map Z.of_nat (seq 1 (S (List.length jobs)))
    /\ StronglySorted (fun x y : Z => (y <= x)%Z) (map entry_score objs).
Proof.
  intros Hinit Hload Hslice Hint.
  pose proof (store_of_list_sliceable (job :: jobs) job Hslice) as Hs.
  destruct (rank_jobs_integer_run svc resume (store_of_list (job :: jobs) job)
              (seq 0 (List.length (job :: jobs))) (Finite 2) eq_refl Hs Hint)
    as [st [Hrun [Htrace Hkeys]]].
  set (refs := seq 0 (List.length (job :: jobs))) in *.
  set (ranked := sort_z (score_of st) refs) in *.
  assert (Hperm : Permutation refs ranked) by apply sort_z_perm.
  assert (Hn : @List.length ref refs = S (List.length jobs)).
  { unfold refs. now rewrite length_seq. }
  exists ranked, st, (result_entries (st_store st) 1 ranked).
  split.
  - unfold ranker_main. rewrite Hinit, Hload. fold refs. rewrite Hrun.
    reflexivity.
  - split; [exact Hperm|]. split.
    + rewrite Htrace, count_sleeps_paced, Hn. lia.
    + split.
      * rewrite result_entries_length.
        etransitivity; [symmetry; exact (Permutation_length Hperm) | exact Hn].
      * split.
        -- rewrite result_entries_ranks. do 2 f_equal.
           etransitivity; [symmetry; exact (Permutation_length Hperm) | exact Hn].
        -- rewrite (result_entries_scores (st_store st) (score_of st) ranked).
           ++ apply sorted_keys, sort_z_sorted.
           ++ intros r Hr. apply Hkeys.
              exact (Permutation_in r (Permutation_sym Hperm) Hr).
Qed.

Lemma main_ranks_and_saves_witness :
  exists (ranked : list ref) (st : run_state) (objs : list pyval),
    ranker_main key_only disk_with_snapshot example_scores (fun _ => None)
    = (MainDone ranked, Some st,
       write_file (fun _ => None) "job_rankings.json" (PList objs))
    /\ count_sleeps (st_trace st) = 1%nat
    /\ map entry_rank objs = [1; 2]%Z
    /\ StronglySorted (fun x y : Z => (y <= x)%Z) (map entry_score objs).
Proof.
  edestruct (main_ranks_and_saves key_only disk_with_snapshot example_scores
               (fun _ => None))
    as [ranked [st [objs [Hmain [_ [Hsleeps [_ [Hranks Hsorted]]]]]]]].
  - reflexivity.
  - reflexivity.
  - repeat constructor; eexists; reflexivity.
  - intros i p. unfold example_scores.
    destruct (i - 1)%nat as [| [| [| [| [| [| m]]]]]]; eexists; eexists; reflexivity.
  - exists ranked, st, objs. repeat split; assumption.
Defined.

(** ** Further edge behaviour *)

(** X23: asking [load_jobs_from_google_search] for full descriptions
    changes nothing in what it returns: the records and the lines of the
    parser are those of [parse_google_search_json] for both values of the
    flag; the flag only adds two printed lines, and only when there is at
    least one record. *)
Theorem fetch_flag_changes_nothing (search_results : pyval) (flag : bool) :
  fst (load_jobs_from_google_search search_results flag)
  = parse_google_search_json search_results
  /\ (snd (load_jobs_from_google_search search_results flag) <> [] ->
      flag = true
      /\ exists job jobs,
           fst (parse_google_search_json search_results) = Ok (job :: jobs)
           /\ snd (load_jobs_from_google_search search_results flag)
              = [NoteAttempt (S (List.length jobs)); NoteNotSupported]).
Proof.
  unfold load_jobs_from_google_search.
  destruct (parse_google_search_json search_results) as [[jobs | e] log].
  - destruct flag; destruct jobs as [| job jobs]; cbn [andb fst snd];
      (split; [reflexivity|]); intros H; try (now elim H).
    split; [reflexivity|]. exists job, jobs. split; reflexivity.
  - cbn [fst snd]. split; [reflexivity|]. intros H. now elim H.
Qed.

Lemma fetch_flag_changes_nothing_witness :
  fst (load_jobs_from_google_search null_title_snapshot true)
  = fst (load_jobs_from_google_search null_title_snapshot false)
  /\ snd (load_jobs_from_google_search null_title_snapshot true)
     = [NoteAttempt 1; NoteNotSupported].
Proof.
  destruct (fetch_flag_changes_nothing null_title_snapshot true) as [Ht Hnotes].
  destruct (fetch_flag_changes_nothing null_title_snapshot false) as [Hf _].
  split; [now rewrite Ht, Hf|].
  destruct Hnotes as [_ [job [jobs [Hjobs Hn]]]]; [discriminate|].
  rewrite Hn. vm_compute in Hjobs. injection Hjobs as _ <-. reflexivity.
Defined.

(** X24: [rank_jobs] is not atomic: the records are scored in place before
    the sort, so when the loop completes (a delay that [time.sleep] takes,
    analyses that return) every record of the list holds the result of the
    analysis made for it at its last position in the list, also when the
    sort then raises and no list is returned. *)
Theorem rank_jobs_scores_before_sorting
    (svc : service) (resume : string) (h : store) (jobs : list ref) (d : seconds) :
  plain_delay d = true ->
  no_decode_error_from_call svc ->
  sliceable h jobs ->
  forall r, In r jobs ->
    exists pre post,
      jobs = pre ++ r :: post /\ ~ In r post
      /\ analyze_job_listing svc resume (S (List.length pre)) (h r)
         = Ok (match_score (st_store (snd (rank_jobs svc resume h jobs d)) r),
               analysis (st_store (snd (rank_jobs svc resume h jobs d)) r)).
Proof.
  intros Hd Hsvc Hs r Hr.
  destruct (rank_loop_trace svc resume d (List.length jobs) jobs
              (plain_delay_sleeps d Hd) Hsvc
              1%nat (mkState h []) Hs eq_refl) as [h' Hrun].
  assert (Hsnd : snd (rank_jobs svc resume h jobs d)
                 = mkState h' (st_trace (mkState h []) ++ paced d 1 jobs)).
  { unfold rank_jobs. rewrite Hrun. reflexivity. }
  rewrite Hsnd.
  destruct (last_occurrence r jobs Hr) as [pre [post [E Hpost]]].
  exists pre, post. split; [exact E|]. split; [exact Hpost|].
  rewrite E in Hrun.
  exact (rank_loop_last_write svc resume d _ pre post r 1 (mkState h []) _
           Hrun Hpost).
Qed.

Lemma rank_jobs_scores_before_sorting_witness :
  (exists e,
     fst (rank_jobs string_then_integer "resume" fresh_store [0; 1]%nat (Finite 0))
     = Raise e)
  /\ exists pre post,
       [0; 1]%nat = pre ++ 1%nat :: post /\ ~ In 1%nat post
       /\ analyze_job_listing string_then_integer "resume" (S (List.length pre))
            (fresh_store 1%nat)
          = Ok (match_score
                  (st_store (snd (rank_jobs string_then_integer "resume"
                                    fresh_store [0; 1]%nat (Finite 0))) 1%nat),
                analysis
                  (st_store (snd (rank_jobs string_then_integer "resume"
                                    fresh_store [0; 1]%nat (Finite 0))) 1%nat)).
Proof.
  split; [eexists; reflexivity|].
  apply (rank_jobs_scores_before_sorting string_then_integer "resume"
           fresh_store [0; 1]%nat (Finite 0)).
  - reflexivity.
  - intros i p e He. unfold string_then_integer in He.
    destruct (Nat.eqb i 1); discriminate He.
  - intros r _. eexists. reflexivity.
  - simpl. right. left. reflexivity.
Defined.

Lemma search_loop_bad_status
    (api : search_api) (max_results : Z) (k : nat) (c : Z) (text : string)
    (j : option pyval) :
  Z.eqb c 200 = false ->
  api (1 + per_page * k)%nat = Response c text j ->
  (forall i, (i < k)%nat ->
     exists t p, api (1 + per_page * i)%nat = Response 200 t (Some p)
                 /\ page_continues p = true) ->
  (k < 10)%nat ->
  (Z.of_nat k < max_results)%Z ->
  forall (m fuel : nat) (raw : list pyval) (tr : list search_event),
    (m + List.length raw = k)%nat ->
    (m < fuel)%nat ->
    exists tr',
      search_loop fuel api max_results (1 + per_page * List.length raw) raw tr
      = Some (SearchApiError c text, tr').
Proof.
  intros Hc Hbad Hfull Hk Hmax.
  induction m as [| m IH]; intros fuel raw tr Hlen Hfuel;
    (destruct fuel as [| fuel]; [lia|]); cbn [search_loop].
  - cbn [Nat.add] in Hlen. rewrite Hlen.
    assert (Hle : (1 + per_page * k <=? 100)%nat = true)
      by (apply Nat.leb_le; unfold per_page; lia).
    assert (Hlt : (Z.of_nat k <? max_results)%Z = true) by (apply Z.ltb_lt; lia).
    rewrite Hle, Hlt, Hbad, Hc. cbn [andb negb]. eauto.
  - assert (Hle : (1 + per_page * List.length raw <=? 100)%nat = true)
      by (apply Nat.leb_le; unfold per_page; lia).
    assert (Hlt : (Z.of_nat (List.length raw) <? max_results)%Z = true)
      by (apply Z.ltb_lt; lia).
    rewrite Hle, Hlt. cbn [andb].
    destruct (Hfull (List.length raw) ltac:(lia)) as [t [p [Hapi Hcont]]].
    rewrite Hapi. cbn [Z.eqb Pos.eqb negb].
    unfold page_continues in Hcont.
    destruct (item_get p "items" PNone) as [items | e]; [|discriminate].
    rewrite Hcont. cbn [negb].
    replace (1 + per_page * List.length raw + per_page)%nat
      with (1 + per_page * List.length (raw ++ [p]))%nat
      by (rewrite length_app; cbn [List.length]; unfold per_page; lia).
    apply IH; [rewrite length_app; cbn [List.length]; lia | lia].
Qed.

(** X25: one bad answer discards the whole search: when the request for a
    page gets a status other than 200, after any number of pages that
    were fetched, [run_search] raises with that status and text and
    returns no page, and the script writes no file. *)
Theorem run_search_error_discards_pages
    (api : search_api) (fs : files) (k : nat) (c : Z) (text : string)
    (j : option pyval) :
  Z.eqb c 200 = false ->
  api (1 + per_page * k)%nat = Response c text j ->
  (forall i, (i < k)%nat ->
     exists t p, api (1 + per_page * i)%nat = Response 200 t (Some p)
                 /\ page_continues p = true) ->
  (k < 10)%nat ->
  (exists tr, run_search api 50 = Some (SearchApiError c text, tr))
  /\ search_main api fs = fs.
Proof.
  intros Hc Hbad Hfull Hk.
  destruct (search_loop_bad_status api 50 k c text j Hc Hbad Hfull Hk
              ltac:(lia) k 11 [] [] ltac:(simpl; lia) ltac:(lia)) as [tr Hrun].
  change (search_loop 11 api 50 (1 + per_page * List.length (@nil pyval)) [] [])
    with (run_search api 50) in Hrun.
  split; [eauto|]. unfold search_main. rewrite Hrun. reflexivity.
Qed.

Lemma run_search_error_discards_pages_witness :
  (exists tr,
     run_search (fun s => if Nat.eqb s 21
                          then Response 429 "quota exceeded" None
                          else full_page) 50
     = Some (SearchApiError 429 "quota exceeded", tr))
  /\ search_main (fun s => if Nat.eqb s 21
                           then Response 429 "quota exceeded" None
                           else full_page) (fun _ => None)
     = (fun _ => None).
Proof.
  apply (run_search_error_discards_pages
           (fun s => if Nat.eqb s 21
                     then Response 429 "quota exceeded" None
                     else full_page)
           (fun _ => None) 2 429 "quota exceeded" None).
  - reflexivity.
  - reflexivity.
  - intros i Hi. destruct i as [| [| i]]; [| | lia];
      eexists; eexists; split; reflexivity.
  - lia.
Defined.
